(** * Scrape-job supervision of the dashboard (src/dashboard/app.py, lines 364-493)

    A shallow embedding of the block of [main] that launches the scraper as
    a child process, reads its combined output line by line, updates the four
    counters from the recognised lines, publishes them to the Streamlit
    widgets and reports how the child ended.

    - Text is a list of Unicode code points, bytes are [Byte.byte].
    - Python integers are [Z].
    - The Streamlit calls are recorded, in call order, in a trace of
      [ui_event]s; floating-point arguments (elapsed time, rate, ratio) are
      not computed, the events keep the integers they are computed from.
    - Local variables and the trace are threaded through a state monad with
      exceptions, so that [try: ... except: pass] and the outer
      [except Exception] read as in the source.
    - Behaviour of the interpreter that the repository does not fix
      (Unicode tables beyond ASCII, the integer/string digit limit, the
      range of floats, the clock) is a parameter [Host]; inside the range
      where every CPython agrees the definitions do not consult it. *)

From Stdlib.Strings Require Import String Ascii Byte.
From Stdlib Require Import DecimalPos DecimalN Permutation Sorted.
From Stdlib Require Import List ZArith NArith Bool Lia.
Import ListNotations.

Local Open Scope Z_scope.

(** ** Text and bytes *)

Definition char := N.
Definition text := list char.
Definition bytes := list byte.

(** A source literal such as ["Progress:"], as text. *)
Definition lit (s : string) : text := map N_of_ascii (list_ascii_of_string s).

(** The bytes of an ASCII literal, as the child writes them. *)
Definition blit (s : string) : bytes := list_byte_of_string s.

Definition newline : byte := x0a.

Fixpoint starts_with (p s : text) : bool :=
  match p, s with
  | [], _ => true
  | _ :: _, [] => false
  | c :: p', x :: s' => N.eqb c x && starts_with p' s'
  end.

(** [p in s] on Python strings. *)
Fixpoint contains (p s : text) : bool :=
  starts_with p s ||
  match s with
  | [] => false
  | _ :: s' => contains p s'
  end.

(** [''.join(ls)] *)
Definition join (ls : list text) : text := concat ls.

(** [l[-n:]] for a positive [n]: the last [n] elements, all of [l] when it
    is shorter. *)
Definition py_last {A : Type} (n : nat) (l : list A) : list A :=
  skipn (length l - n) l.

(** ** The hosting interpreter and operating system

    The exceptions the block can meet, and what the repository leaves to
    the interpreter.  [Host] collects the answers of the interpreter and of
    the clock outside the range in which they are fixed: the definitions
    below decide themselves on ASCII text, on digit strings of at most 640
    characters (the least limit the interpreter can be set to), on integers
    below [10 ^ 640] and below [2 ^ 1000] (far inside the range of a
    float), and ask the host only beyond. *)

Inductive exn : Type :=
| ValueError
| ZeroDivisionError
| OverflowError
| IndexError
| OSError.

Record Host : Type := {
  (** decimal value of a non-ASCII character of category Nd, if it is one *)
  unicode_digit : char -> option N;
  (** whether a character other than the printable ASCII ones, blank, tab,
      line feed, vertical tab, form feed and carriage return is white space
      for [\s] *)
  unicode_space : char -> bool;
  (** [bytes.decode('utf-8', errors='replace')] on input that is not plain
      ASCII *)
  utf8_replace : bytes -> text;
  (** whether [int] accepts a digit string of the given length, above 640 *)
  long_int_ok : nat -> bool;
  (** whether [str] accepts an integer of more than 640 digits *)
  long_str_ok : Z -> bool;
  (** whether an integer of 1000 bits or more converts to a float *)
  big_float_ok : Z -> bool;
  (** whether the quotient of a numerator of 1000 bits or more fits a float *)
  big_div_ok : Z -> Z -> bool;
  (** whether [time.time() - start_time > 0] when read in the iteration
      that handles the line of the given number (from 1) *)
  elapsed_positive : nat -> bool
}.

(** A host for evaluating the block on ASCII input: no digits or spaces
    beyond ASCII, no numeric limits, a clock that has always advanced.  Its
    [utf8_replace] is never consulted on such input. *)
Definition plain_host : Host := {|
  unicode_digit := fun _ => None;
  unicode_space := fun _ => false;
  utf8_replace := map (fun b => if N.ltb (Byte.to_N b) 128 then Byte.to_N b else 65533%N);
  long_int_ok := fun _ => true;
  long_str_ok := fun _ => true;
  big_float_ok := fun _ => true;
  big_div_ok := fun _ _ => true;
  elapsed_positive := fun _ => true
|}.

(** ** Widgets, local variables and the monad *)

Inductive widget : Type := PostsW | CommentsW | ImagesW | VideosW.

(** The value string of a metric: [str(n)], [f"{n}/{total}"] or [f"~{n}"]. *)
Inductive metric_text : Type :=
| MCount (n : Z)
| MRatio (n total : Z)
| MApprox (n : Z).

Inductive status_text : Type :=
| SFound (batch : Z)      (* "Found {batch} posts in batch..." *)
| SRunning.               (* "Running for {elapsed}s | Rate: {rate} posts/sec" *)

Inductive ui_event : Type :=
| Metric (m : widget) (v : metric_text)    (* <m>_metric.metric(label, v) *)
| ProgressRatio (n total : Z)              (* progress_bar.progress(min(n / total, 1.0)) *)
| ProgressFull                             (* progress_bar.progress(1.0) *)
| StatusInfo (s : status_text)             (* status_container.info(s) *)
| OutputCode (display_text : text)         (* output_container.code(display_text) *)
| StatusSuccess                            (* status_container.success("Completed ...") *)
| Balloons                                 (* st.balloons() *)
| StatusError (returncode : Z)             (* status_container.error("Failed with code ...") *)
| StCode (t : text)                        (* st.code(''.join(output_lines[-30:])) *)
| StError (e : exn)                        (* st.error(f"Error running scraper: {e}") *)
| StTraceback.                             (* st.code(traceback.format_exc()) *)

(** The local variables of the block and the calls made on the widgets so
    far, oldest first. *)
Record world : Type := {
  output_lines : list text;
  posts_count : Z;
  comments_count : Z;
  images_count : Z;
  videos_count : Z;
  ui : list ui_event
}.

(** Lines 382-387: the locals as assigned after [Popen] returned. *)
Definition start : world := {|
  output_lines := [];
  posts_count := 0;
  comments_count := 0;
  images_count := 0;
  videos_count := 0;
  ui := []
|}.

Inductive result (A : Type) : Type :=
| Normal (a : A)
| Raised (e : exn).
Arguments Normal {A} a.
Arguments Raised {A} e.

Definition M (A : Type) : Type := world -> world * result A.

Definition ret {A : Type} (a : A) : M A := fun w => (w, Normal a).

Definition raise {A : Type} (e : exn) : M A := fun w => (w, Raised e).

Definition bind {A B : Type} (m : M A) (k : A -> M B) : M B :=
  fun w =>
    match m w with
    | (w', Normal a) => k a w'
    | (w', Raised e) => (w', Raised e)
    end.

Notation "x <- m ;; k" := (bind m (fun x => k))
  (at level 61, m at next level, right associativity).
Notation "m ;; k" := (bind m (fun _ => k))
  (at level 61, right associativity).

(** [try: m  except: pass] *)
Definition try_pass (m : M unit) : M unit :=
  fun w => (fst (m w), Normal tt).

(** [try: m  except Exception as e: h e] *)
Definition try_except (m : M unit) (h : exn -> M unit) : M unit :=
  fun w =>
    match m w with
    | (w', Normal a) => (w', Normal a)
    | (w', Raised e) => h e w'
    end.

(** [if b: m] *)
Definition when (b : bool) (m : M unit) : M unit :=
  if b then m else ret tt.

Definition get {A : Type} (f : world -> A) : M A := fun w => (w, Normal (f w)).

Definition with_ui (evs : list ui_event) (w : world) : world :=
  {| output_lines := output_lines w; posts_count := posts_count w;
     comments_count := comments_count w; images_count := images_count w;
     videos_count := videos_count w; ui := evs |}.

Definition with_output_lines (ls : list text) (w : world) : world :=
  {| output_lines := ls; posts_count := posts_count w;
     comments_count := comments_count w; images_count := images_count w;
     videos_count := videos_count w; ui := ui w |}.

Definition with_posts_count (n : Z) (w : world) : world :=
  {| output_lines := output_lines w; posts_count := n;
     comments_count := comments_count w; images_count := images_count w;
     videos_count := videos_count w; ui := ui w |}.

Definition with_comments_count (n : Z) (w : world) : world :=
  {| output_lines := output_lines w; posts_count := posts_count w;
     comments_count := n; images_count := images_count w;
     videos_count := videos_count w; ui := ui w |}.

Definition with_images_count (n : Z) (w : world) : world :=
  {| output_lines := output_lines w; posts_count := posts_count w;
     comments_count := comments_count w; images_count := n;
     videos_count := videos_count w; ui := ui w |}.

Definition with_videos_count (n : Z) (w : world) : world :=
  {| output_lines := output_lines w; posts_count := posts_count w;
     comments_count := comments_count w; images_count := images_count w;
     videos_count := n; ui := ui w |}.

(** A call on a widget. *)
Definition emit (e : ui_event) : M unit :=
  fun w => (with_ui (ui w ++ [e]) w, Normal tt).

(** [output_lines.append(line)] *)
Definition append_line (line : text) : M unit :=
  fun w => (with_output_lines (output_lines w ++ [line]) w, Normal tt).

Definition set_posts_count (n : Z) : M unit :=
  fun w => (with_posts_count n w, Normal tt).

Definition set_comments_count (n : Z) : M unit :=
  fun w => (with_comments_count n w, Normal tt).

Definition set_images_count (n : Z) : M unit :=
  fun w => (with_images_count n w, Normal tt).

Definition set_videos_count (n : Z) : M unit :=
  fun w => (with_videos_count n w, Normal tt).

(** [match.group(i)] *)
Definition group (i : nat) (gs : list text) : M text :=
  match nth_error gs (i - 1) with
  | Some g => ret g
  | None => raise IndexError
  end.

(** ** The child process as the parent sees it *)

Inductive ending : Type :=
| EndOfFile      (* every writer closed the pipe *)
| ReadFails.     (* the read after the last delivered byte raises OSError *)

(** What [Popen] returned: the chunks the child wrote to its combined
    stdout and stderr, how the stream ends, and the exit status that
    [process.wait()] stores in [process.returncode]. *)
Record process : Type := {
  writes : list bytes;
  stream_end : ending;
  returncode : Z
}.

Inductive spawn : Type :=
| SpawnFails                 (* [Popen] raises, e.g. FileNotFoundError *)
| Spawned (p : process).

(** A pipe is a queue of bytes: what the reader sees is the writes joined. *)
Definition stream (p : process) : bytes := concat (writes p).

(** One call of [process.stdout.readline()] on the unbuffered pipe: bytes
    are taken one at a time up to and including the first line feed;
    [AtEnd] is the case where the delivered bytes run out first. *)
Inductive read_result : Type :=
| Line (l rest : bytes)
| AtEnd (partial : bytes).

Fixpoint readline (s : bytes) : read_result :=
  match s with
  | [] => AtEnd []
  | b :: s' =>
      if Byte.eqb b newline then Line [b] s'
      else
        match readline s' with
        | Line l rest => Line (b :: l) rest
        | AtEnd partial => AtEnd (b :: partial)
        end
  end.

(** [iter(process.stdout.readline, b'')]: the lines it yields and how it
    stops, by exhaustion or by the exception of a failed read.  At end of
    file a last line without terminator is yielded if it is not empty. *)
Fixpoint iter_readline (fuel : nat) (s : bytes) (e : ending)
  : list bytes * result unit :=
  match fuel with
  | O => ([], Normal tt)
  | S fuel' =>
      match readline s with
      | Line l rest =>
          let (ls, r) := iter_readline fuel' rest e in (l :: ls, r)
      | AtEnd partial =>
          match e with
          | ReadFails => ([], Raised OSError)
          | EndOfFile =>
              match partial with
              | [] => ([], Normal tt)
              | _ :: _ => ([partial], Normal tt)
              end
          end
      end
  end.

(** Every yielded line takes at least one byte, so one step more than the
    stream has bytes lets the iterator reach the end of the stream. *)
Definition read_lines (p : process) : list bytes * result unit :=
  iter_readline (S (length (stream p))) (stream p) (stream_end p).

(** Integers below the first have at most 640 digits; integers below the
    second convert to a float without overflow. *)
Definition str_digits_threshold : Z := 10 ^ 640.
Definition float_safe_bound : Z := 2 ^ 1000.

Section Supervisor.

Variable host : Host.

(** *** Characters: [\d] and [\s] of a [str] pattern *)

Definition digit_value (c : char) : option N :=
  if N.ltb c 128 then
    if N.leb 48 c && N.leb c 57 then Some (c - 48)%N else None
  else unicode_digit host c.

Definition is_digit (c : char) : bool :=
  match digit_value c with Some _ => true | None => false end.

Definition is_space (c : char) : bool :=
  if N.eqb c 32 || (N.leb 9 c && N.leb c 13) then true
  else if N.ltb 32 c && N.ltb c 127 then false
  else unicode_space host c.

(** *** [raw_line.decode('utf-8', errors='replace')] *)

Definition is_ascii_byte (b : byte) : bool := N.ltb (Byte.to_N b) 128.

Definition decode (raw : bytes) : text :=
  if forallb is_ascii_byte raw then map Byte.to_N raw else utf8_replace host raw.

(** *** Regular expressions

    The six patterns of the source are sequences of literal characters,
    [\s*] and the group [(\d+)].  [match_here] is the backtracking matcher
    anchored at the head of the text: both repetitions are greedy and give
    characters back, longest attempt first.  It returns the groups. *)

Inductive item : Type :=
| Lit (c : char)
| Spaces
| Digits.

Definition regex := list item.

Section Repetition.
Context {A : Type}.

(** [\s*] followed by the continuation [k] *)
Fixpoint star_spaces (k : text -> option A) (s : text) : option A :=
  match s with
  | [] => k []
  | c :: s' =>
      if is_space c then
        match star_spaces k s' with
        | Some r => Some r
        | None => k s
        end
      else k s
  end.

(** [(\d+)] followed by [k], which receives the group and the rest;
    [acc] holds the digits taken so far *)
Fixpoint plus_digits (acc : text) (k : text -> text -> option A) (s : text)
  : option A :=
  match s with
  | [] => None
  | c :: s' =>
      if is_digit c then
        match plus_digits (acc ++ [c]) k s' with
        | Some r => Some r
        | None => k (acc ++ [c]) s'
        end
      else None
  end.
End Repetition.

Fixpoint match_here (p : regex) (s : text) : option (list text) :=
  match p with
  | [] => Some []
  | Lit c :: p' =>
      match s with
      | [] => None
      | x :: s' => if N.eqb x c then match_here p' s' else None
      end
  | Spaces :: p' => star_spaces (match_here p') s
  | Digits :: p' =>
      plus_digits []
        (fun g rest =>
           match match_here p' rest with
           | Some gs => Some (g :: gs)
           | None => None
           end) s
  end.

(** [re.search(p, s)]: the match at the leftmost position that has one. *)
Fixpoint re_search (p : regex) (s : text) : option (list text) :=
  match match_here p s with
  | Some gs => Some gs
  | None =>
      match s with
      | [] => None
      | _ :: s' => re_search p s'
      end
  end.

Definition lits (s : string) : regex := map Lit (lit s).

(** [r'(\d+)\s*/\s*(\d+)'] *)
Definition re_progress : regex := [Digits; Spaces; Lit 47%N; Spaces; Digits].
(** [r'Saved (\d+)'] *)
Definition re_saved : regex := lits "Saved " ++ [Digits].
(** [r'Comments:\s*(\d+)'] *)
Definition re_comments : regex := lits "Comments:" ++ [Spaces; Digits].
(** [r'Images:\s*(\d+)'] *)
Definition re_images : regex := lits "Images:" ++ [Spaces; Digits].
(** [r'Videos:\s*(\d+)'] *)
Definition re_videos : regex := lits "Videos:" ++ [Spaces; Digits].
(** [r'Found (\d+) posts'] *)
Definition re_found : regex := lits "Found " ++ [Digits] ++ lits " posts".

(** *** Integers *)

(** The number a string of decimal digits denotes. *)
Fixpoint int_value_from (acc : N) (ds : text) : option N :=
  match ds with
  | [] => Some acc
  | c :: ds' =>
      match digit_value c with
      | Some d => int_value_from (10 * acc + d)%N ds'
      | None => None
      end
  end.

Definition int_value (ds : text) : option Z :=
  match ds with
  | [] => None
  | _ => option_map Z.of_N (int_value_from 0%N ds)
  end.

Definition int_accepts (ds : text) : bool :=
  Nat.leb (length ds) 640 || long_int_ok host (length ds).

Definition str_accepts (n : Z) : bool :=
  Z.ltb (Z.abs n) str_digits_threshold || long_str_ok host n.

Definition float_accepts (n : Z) : bool :=
  Z.ltb (Z.abs n) float_safe_bound || big_float_ok host n.

Definition div_accepts (n d : Z) : bool :=
  Z.ltb (Z.abs n) float_safe_bound || big_div_ok host n d.

(** [int(ds)] on a string matched by [\d+]: the value, unless the
    interpreter refuses the string for its length *)
Definition parse_int (ds : text) : option Z :=
  match int_value ds with
  | Some n => if int_accepts ds then Some n else None
  | None => None
  end.

Definition py_int (ds : text) : M Z :=
  match parse_int ds with
  | Some n => ret n
  | None => raise ValueError
  end.

(** [str(n)], also inside an f-string; the text itself is kept symbolic in
    the event *)
Definition py_str (n : Z) : M unit :=
  if str_accepts n then ret tt else raise ValueError.

(** [n / d] on integers, result discarded *)
Definition true_div (n d : Z) : M unit :=
  if Z.eqb d 0 then raise ZeroDivisionError
  else if div_accepts n d then ret tt else raise OverflowError.

(** *** The loop body, lines 396-476 *)

(** lines 398-409 *)
Definition progress_block (line : text) : M unit :=
  when (contains (lit "Progress:") line && contains (lit "/") line)
    (try_pass
       match re_search re_progress line with
       | Some gs =>
           g1 <- group 1 gs ;;
           n <- py_int g1 ;;
           set_posts_count n ;;
           g2 <- group 2 gs ;;
           total <- py_int g2 ;;
           true_div n total ;;
           emit (ProgressRatio n total) ;;
           py_str n ;;
           py_str total ;;
           emit (Metric PostsW (MRatio n total))
       | None => ret tt
       end).

(** lines 412-420 *)
Definition saved_block (line : text) : M unit :=
  when (contains (lit "Saved") line && contains (lit "posts") line)
    (try_pass
       match re_search re_saved line with
       | Some gs =>
           g <- group 1 gs ;;
           n <- py_int g ;;
           old <- get posts_count ;;
           set_posts_count (old + n) ;;
           py_str (old + n) ;;
           emit (Metric PostsW (MCount (old + n)))
       | None => ret tt
       end).

(** lines 423-431 *)
Definition comments_block (line : text) : M unit :=
  when (contains (lit "Comments:") line)
    (try_pass
       match re_search re_comments line with
       | Some gs =>
           g <- group 1 gs ;;
           n <- py_int g ;;
           set_comments_count n ;;
           py_str n ;;
           emit (Metric CommentsW (MCount n))
       | None => ret tt
       end).

(** lines 434-436, outside any [try] *)
Definition fetching_block (line : text) : M unit :=
  when (contains (lit "Fetching comments for:") line)
    (old <- get comments_count ;;
     set_comments_count (old + 1) ;;
     py_str (old + 1) ;;
     emit (Metric CommentsW (MApprox (old + 1)))).

(** lines 439-447 *)
Definition images_block (line : text) : M unit :=
  when (contains (lit "Images:") line)
    (try_pass
       match re_search re_images line with
       | Some gs =>
           g <- group 1 gs ;;
           n <- py_int g ;;
           set_images_count n ;;
           py_str n ;;
           emit (Metric ImagesW (MCount n))
       | None => ret tt
       end).

(** lines 450-458 *)
Definition videos_block (line : text) : M unit :=
  when (contains (lit "Videos:") line)
    (try_pass
       match re_search re_videos line with
       | Some gs =>
           g <- group 1 gs ;;
           n <- py_int g ;;
           set_videos_count n ;;
           py_str n ;;
           emit (Metric VideosW (MCount n))
       | None => ret tt
       end).

(** lines 461-467.  The listing of this [try] carries no handler; the block
    is embedded with the [except: pass] of its five siblings. *)
Definition found_block (line : text) : M unit :=
  when (contains (lit "Found") line && contains (lit "posts") line)
    (try_pass
       match re_search re_found line with
       | Some gs =>
           g <- group 1 gs ;;
           batch <- py_int g ;;
           py_str batch ;;
           emit (StatusInfo (SFound batch))
       | None => ret tt
       end).

(** lines 398-467: the seven tests, one after the other *)
Definition patterns (line : text) : M unit :=
  progress_block line ;;
  saved_block line ;;
  comments_block line ;;
  fetching_block line ;;
  images_block line ;;
  videos_block line ;;
  found_block line.

(** lines 470-472.  [posts_count / elapsed] is evaluated when
    [elapsed > 0] and raises when the integer has no float; the two tests
    are pure and are taken here in the order that lets the definition
    compute without the clock for counts of fewer than 1000 bits. *)
Definition update_status : M unit :=
  n <- get posts_count ;;
  i <- get (fun w => length (output_lines w)) ;;
  (if float_accepts n then ret tt
   else if elapsed_positive host i then raise OverflowError else ret tt) ;;
  emit (StatusInfo SRunning).

(** lines 475-476 *)
Definition update_display : M unit :=
  ls <- get output_lines ;;
  emit (OutputCode (join (py_last 15 ls))).

(** lines 393-476 *)
Definition iteration (raw_line : bytes) : M unit :=
  let line := decode raw_line in
  append_line line ;;
  patterns line ;;
  update_status ;;
  update_display.

(** lines 389-476: [for raw_line in ...:], with the [break] of line 391 *)
Fixpoint pump (lines : list bytes) : M unit :=
  match lines with
  | [] => ret tt
  | raw_line :: rest =>
      match raw_line with
      | [] => ret tt
      | _ :: _ => iteration raw_line ;; pump rest
      end
  end.

(** lines 478-488 *)
Definition finish (rc : Z) : M unit :=
  emit ProgressFull ;;
  if Z.eqb rc 0 then
    emit StatusSuccess ;;
    emit Balloons
  else
    emit (StatusError rc) ;;
    ls <- get output_lines ;;
    emit (StCode (join (py_last 30 ls))).

(** lines 490-493 *)
Definition report_error (e : exn) : M unit :=
  emit (StError e) ;;
  emit StTraceback.

(** lines 364-493 *)
Definition supervise (c : spawn) : M unit :=
  try_except
    match c with
    | SpawnFails => raise OSError
    | Spawned p =>
        let (lines, stop) := read_lines p in
        pump lines ;;
        (fun w => (w, stop)) ;;
        finish (returncode p)
    end
    report_error.

(** The state of the widgets and locals when the block is left. *)
Definition run (c : spawn) : world := fst (supervise c start).

(** *** What a line carries for each test

    The integer the test of a block finds on a line, [None] when the
    trigger is absent, the expression does not match or [int] refuses the
    digits. *)

Definition payload (i : nat) (p : regex) (line : text) : option Z :=
  match re_search p line with
  | Some gs =>
      match nth_error gs (i - 1) with
      | Some g => parse_int g
      | None => None
      end
  | None => None
  end.

Definition progress_trigger (line : text) : bool :=
  contains (lit "Progress:") line && contains (lit "/") line.
Definition saved_trigger (line : text) : bool :=
  contains (lit "Saved") line && contains (lit "posts") line.
Definition comments_trigger (line : text) : bool :=
  contains (lit "Comments:") line.
Definition fetching_trigger (line : text) : bool :=
  contains (lit "Fetching comments for:") line.
Definition images_trigger (line : text) : bool :=
  contains (lit "Images:") line.
Definition videos_trigger (line : text) : bool :=
  contains (lit "Videos:") line.
Definition found_trigger (line : text) : bool :=
  contains (lit "Found") line && contains (lit "posts") line.

Definition progress_done (line : text) : option Z :=
  if progress_trigger line then payload 1 re_progress line else None.
Definition progress_total (line : text) : option Z :=
  if progress_trigger line then payload 2 re_progress line else None.
Definition saved_delta (line : text) : option Z :=
  if saved_trigger line then payload 1 re_saved line else None.
Definition comments_total (line : text) : option Z :=
  if comments_trigger line then payload 1 re_comments line else None.
Definition images_total (line : text) : option Z :=
  if images_trigger line then payload 1 re_images line else None.
Definition videos_total (line : text) : option Z :=
  if videos_trigger line then payload 1 re_videos line else None.
Definition found_batch (line : text) : option Z :=
  if found_trigger line then payload 1 re_found line else None.

Definition no_match (trigger : bool) (p : regex) (line : text) : bool :=
  negb trigger ||
  match re_search p line with Some _ => false | None => true end.

(** A line on which no test finds anything: each expression whose trigger
    is in the line fails to match, and the line does not announce the
    fetching of comments. *)
Definition unmatched (line : text) : bool :=
  no_match (progress_trigger line) re_progress line &&
  no_match (saved_trigger line) re_saved line &&
  no_match (comments_trigger line) re_comments line &&
  negb (fetching_trigger line) &&
  no_match (images_trigger line) re_images line &&
  no_match (videos_trigger line) re_videos line &&
  no_match (found_trigger line) re_found line.

(** The widget calls of each block, given what the line carries. *)

Definition progress_published (n total : Z) : list ui_event :=
  if Z.eqb total 0 then []
  else if div_accepts n total then
    ProgressRatio n total ::
    (if str_accepts n && str_accepts total
     then [Metric PostsW (MRatio n total)] else [])
  else [].

Definition count_published (m : widget) (n : Z) : list ui_event :=
  if str_accepts n then [Metric m (MCount n)] else [].

(** The tests after the first one. *)
Definition later_patterns (line : text) : M unit :=
  saved_block line ;;
  comments_block line ;;
  fetching_block line ;;
  images_block line ;;
  videos_block line ;;
  found_block line.

End Supervisor.

(** ** Reading the trace *)

Definition emits (evs : list ui_event) (w : world) : world :=
  with_ui (ui w ++ evs) w.

Definition default {A : Type} (d : A) (o : option A) : A :=
  match o with Some a => a | None => d end.

(** The report of how the job ended. *)
Definition is_outcome (e : ui_event) : bool :=
  match e with
  | StatusSuccess | StatusError _ | StError _ => true
  | _ => false
  end.

(** A publication of counters, progress, status or output while the job
    runs. *)
Definition is_snapshot (e : ui_event) : bool :=
  match e with
  | Metric _ _ | ProgressRatio _ _ | ProgressFull | StatusInfo _
  | OutputCode _ => true
  | _ => false
  end.

(** What [output_container] shows: the text of its last call, nothing when
    it was never called. *)
Definition display_after (seen : text) (evs : list ui_event) : text :=
  fold_left (fun shown e => match e with OutputCode t => t | _ => shown end)
    evs seen.

Definition displayed_output (evs : list ui_event) : text :=
  display_after [] evs.

(** The spec's JobOutcome, read off the widget calls.  [StatusSuccess] is a
    success with exit code 0 whose tail is what the output container shows;
    [StatusError rc] is a failure with exit code [rc] whose tail is the text
    of the [st.code] call that follows it; [StError] is a failure without
    exit code, the tail being what the output container shows. *)
Inductive job_status : Type := Succeeded | Failed.

Record JobOutcome : Type := {
  status : job_status;
  exit_code : option Z;
  tail_output : text
}.

Fixpoint job_outcomes (shown : text) (evs : list ui_event) : list JobOutcome :=
  match evs with
  | [] => []
  | OutputCode t :: evs' => job_outcomes t evs'
  | StatusSuccess :: evs' =>
      {| status := Succeeded; exit_code := Some 0; tail_output := shown |}
      :: job_outcomes shown evs'
  | StatusError rc :: evs' =>
      {| status := Failed; exit_code := Some rc;
         tail_output := match evs' with StCode t :: _ => t | _ => shown end |}
      :: job_outcomes shown evs'
  | StError _ :: evs' =>
      {| status := Failed; exit_code := None; tail_output := shown |}
      :: job_outcomes shown evs'
  | _ :: evs' => job_outcomes shown evs'
  end.

Definition outcomes_of (w : world) : list JobOutcome := job_outcomes [] (ui w).

(** All four counters are natural numbers. *)
Definition counters_nonneg (w : world) : Prop :=
  0 <= posts_count w /\ 0 <= comments_count w /\
  0 <= images_count w /\ 0 <= videos_count w.

(** The numbers shown by a widget call are natural numbers. *)
Definition event_nonneg (e : ui_event) : Prop :=
  match e with
  | Metric _ (MCount n) | Metric _ (MApprox n) => 0 <= n
  | Metric _ (MRatio n total) | ProgressRatio n total => 0 <= n /\ 0 <= total
  | StatusInfo (SFound batch) => 0 <= batch
  | _ => True
  end.

(** A line with its terminator, as the child prints it. *)
Definition terminated (l : bytes) : bytes := l ++ [newline].

Definition bline (s : string) : bytes := terminated (blit s).

(** A child that wrote the given chunks, closed its output and exited
    with status [rc]. *)
Definition child (chunks : list bytes) (rc : Z) : spawn :=
  Spawned {| writes := chunks; stream_end := EndOfFile; returncode := rc |}.

(** ** Invariants of the loop *)

(** The counters and every number published so far are natural numbers. *)
Definition good (w : world) : Prop :=
  counters_nonneg w /\ Forall event_nonneg (ui w).

(** [w'] is [w] after further calls, all of them publications. *)
Definition quiet (w w' : world) : Prop :=
  exists evs, ui w' = ui w ++ evs /\ Forall (fun e => is_snapshot e = true) evs.

(** One step of the loop body: [output_lines] is kept, the calls are
    publications, and natural counters stay natural. *)
Definition ok_step (w w' : world) : Prop :=
  output_lines w' = output_lines w /\
  quiet w w' /\
  (good w -> good w').

(** The world in which the tests of a line run. *)
Definition appended (line : text) (w : world) : world :=
  with_output_lines (output_lines w ++ [line]) w.

(** What the output container shows is the join of the last 15 lines. *)
Definition shown (w : world) : Prop :=
  displayed_output (ui w) = join (py_last 15 (output_lines w)).


(** A line from which no test obtains a number, and that does not announce
    the fetching of comments. *)
Definition nothing_parsed (host : Host) (line : text) : Prop :=
  progress_done host line = None /\
  saved_delta host line = None /\
  comments_total host line = None /\
  fetching_trigger line = false /\
  images_total host line = None /\
  videos_total host line = None /\
  found_batch host line = None.


(** * Beyond the supervision block

    Further readings of the trace of the block, and the parts of the
    repository around it that do not depend on pandas or on the layout of
    the page: the form that builds the command line, the listing of the
    data directory and the start of [main], the name given to the Parquet
    export (src/dashboard/app.py); the keys and the reports of the uploads
    (src/export/cloud.py); the subreddit statistics
    (src/analytics/subreddit_stats.py).  What these parts ask of the file
    system, of the network and of the libraries is a parameter of the
    definitions. *)
(** ** Further readings of the trace *)

(** The texts [output_container] was given, oldest first. *)
Definition output_refreshes (evs : list ui_event) : list text :=
  flat_map (fun e => match e with OutputCode t => [t] | _ => [] end) evs.

(** The statuses [status_container.info] was given, oldest first. *)
Definition status_infos (evs : list ui_event) : list status_text :=
  flat_map (fun e => match e with StatusInfo s => [s] | _ => [] end) evs.

(** A call one of the seven tests makes, with a ratio that is defined. *)
Definition pattern_event (e : ui_event) : Prop :=
  match e with
  | Metric _ _ => True
  | ProgressRatio n total => 0 <= n /\ 0 < total
  | StatusInfo (SFound _) => True
  | _ => False
  end.

(** A call of the loop body: one of a test, the running status or the
    output. *)
Definition loop_event (e : ui_event) : Prop :=
  match e with
  | StatusInfo SRunning | OutputCode _ => True
  | _ => pattern_event e
  end.

(** [w'] is [w] after calls that all satisfy [P]. *)
Definition extends_with (P : ui_event -> Prop) (w w' : world) : Prop :=
  exists evs, ui w' = ui w ++ evs /\ Forall P evs.

(** The number of groups of an expression. *)
Definition groups (p : regex) : nat :=
  length (filter (fun i => match i with Digits => true | _ => false end) p).

(** A non-empty string of characters that [\d] matches. *)
Definition digit_string (host : Host) (g : text) : Prop :=
  g <> [] /\ Forall (fun c => is_digit host c = true) g.

(** The text does not go on with a digit. *)
Definition no_digit_ahead (host : Host) (s : text) : Prop :=
  match s with
  | [] => True
  | c :: _ => is_digit host c = false
  end.

(** ** The form of the Scraper tab (src/dashboard/app.py, lines 316-338, 371) *)

(** [str(n)] of an integer: its decimal digits, after a minus sign when it
    is negative. *)
Fixpoint uint_text (d : Decimal.uint) : text :=
  match d with
  | Decimal.Nil => []
  | Decimal.D0 d => 48%N :: uint_text d
  | Decimal.D1 d => 49%N :: uint_text d
  | Decimal.D2 d => 50%N :: uint_text d
  | Decimal.D3 d => 51%N :: uint_text d
  | Decimal.D4 d => 52%N :: uint_text d
  | Decimal.D5 d => 53%N :: uint_text d
  | Decimal.D6 d => 54%N :: uint_text d
  | Decimal.D7 d => 55%N :: uint_text d
  | Decimal.D8 d => 56%N :: uint_text d
  | Decimal.D9 d => 57%N :: uint_text d
  end.

Definition str_int (z : Z) : text :=
  match z with
  | Zneg p => 45%N :: uint_text (N.to_uint (Npos p))
  | _ => uint_text (N.to_uint (Z.to_N z))
  end.

(** What the widgets of lines 317-325 return. *)
Record scrape_form : Type := {
  new_sub : text;
  is_user : bool;
  limit : Z;
  mode : text;
  no_media : bool;
  no_comments : bool
}.

(** lines 332-338 *)
Definition cmd (f : scrape_form) : list text :=
  [lit "python"; lit "main.py"; new_sub f; lit "--mode"; mode f;
   lit "--limit"; str_int (limit f)]
  ++ (if is_user f then [lit "--user"] else [])
  ++ (if no_media f then [lit "--no-media"] else [])
  ++ (if no_comments f then [lit "--no-comments"] else []).

(** line 371: [["python", "-u"] + cmd[1:]] *)
Definition cmd_with_unbuffered (f : scrape_form) : list text :=
  [lit "python"; lit "-u"] ++ tl (cmd f).

(** lines 327-373: the argument vector [Popen] is called with when the
    button is pressed, [None] when line 329 reports the missing name
    instead. *)
Definition start_scraping (f : scrape_form) : option (list text) :=
  match new_sub f with
  | [] => None
  | _ :: _ => Some (cmd_with_unbuffered f)
  end.


(** ** The data directory (src/dashboard/app.py, lines 57-112)

    A directory is the list of its entries in the order the operating
    system lists them; [lookup] is what a path ending in a name denotes. *)

#[warnings="-register-all"]
Inductive node : Type :=
| File
| Dir (entries : list (text * node)).

Fixpoint text_eqb (a b : text) : bool :=
  match a, b with
  | [], [] => true
  | x :: a', y :: b' => N.eqb x y && text_eqb a' b'
  | _, _ => false
  end.

Fixpoint lookup (name : text) (es : list (text * node)) : option node :=
  match es with
  | [] => None
  | (n, x) :: es' => if text_eqb name n then Some x else lookup name es'
  end.

(** [dir / name], for a [dir] that may not exist *)
Definition joinpath (name : text) (dir : option node) : option node :=
  match dir with
  | Some (Dir es) => lookup name es
  | _ => None
  end.

(** [path.exists()] and [path.is_dir()] *)
Definition path_exists (p : option node) : bool :=
  match p with Some _ => true | None => false end.

Definition is_dir (p : option node) : bool :=
  match p with Some (Dir _) => true | _ => false end.

(** [a <= b] on Python strings: code point by code point, a proper prefix
    first. *)
Fixpoint text_leb (a b : text) : bool :=
  match a, b with
  | [], _ => true
  | _ :: _, [] => false
  | x :: a', y :: b' =>
      if N.ltb x y then true
      else if N.ltb y x then false
      else text_leb a' b'
  end.

Definition text_le (a b : text) : Prop := text_leb a b = true.

(** [sorted(l)] on strings: the ascending arrangement of [l].  The order of
    strings is total and antisymmetric, so that arrangement is the same
    list whatever the sorting algorithm. *)
Fixpoint insert_sorted (x : text) (l : list text) : list text :=
  match l with
  | [] => [x]
  | y :: l' => if text_leb x y then x :: l else y :: insert_sorted x l'
  end.

Definition py_sorted (l : list text) : list text :=
  fold_right insert_sorted [] l.

Inductive outcome (E A : Type) : Type :=
| Returns (a : A)
| Raises (e : E).
Arguments Returns {E A} a.
Arguments Raises {E A} e.

(** line 78: [sub_dir.is_dir() and (sub_dir / 'posts.csv').exists()] *)
Definition has_posts (e : text * node) : bool :=
  is_dir (Some (snd e))
  && path_exists (joinpath (lit "posts.csv") (Some (snd e))).

(** lines 76-81, for a data directory with the entries [es] *)
Definition listed_subreddits (es : list (text * node)) : list text :=
  py_sorted (map fst (filter has_posts es)).

(** lines 71-81; [project] are the entries of the directory two levels
    above the file of the module.  [iterdir] of a path that is no directory
    raises [NotADirectoryError] (the only value of [unit] here). *)
Definition get_available_subreddits (project : list (text * node))
  : outcome unit (list text) :=
  match lookup (lit "data") project with
  | None => Returns (py_sorted [])
  | Some File => Raises tt
  | Some (Dir es) => Returns (listed_subreddits es)
  end.

Inductive main_error (E : Type) : Type :=
| NotADirectoryError
| ReadCsvError (e : E).
Arguments NotADirectoryError {E}.
Arguments ReadCsvError {E} e.

(** How [main] goes on after line 112. *)
Inductive page (frame : Type) : Type :=
| NoScrapedData
| NoPostsData
| Dashboard (selected_sub : text) (posts_df comments_df : frame).
Arguments NoScrapedData {frame}.
Arguments NoPostsData {frame}.
Arguments Dashboard {frame} selected_sub posts_df comments_df.

Section Loading.

(** [pd.read_csv] of an existing path and the errors it raises, the empty
    [pd.DataFrame()], and the choice made in the select box. *)
Variables frame csv_error : Type.
Variable read_csv : node -> outcome csv_error frame.
Variable empty_frame : frame.
Variable selectbox : list text -> text.

(** the dictionary [data] of lines 59-69: its keys ['posts'] and
    ['comments'] *)
Record loaded : Type := {
  posts : option frame;
  comments : option frame
}.

(** lines 61-63 and 65-67 *)
Definition load_file (name : text) (subreddit_path : option node)
  : outcome csv_error (option frame) :=
  match joinpath name subreddit_path with
  | None => Returns None
  | Some n =>
      match read_csv n with
      | Returns df => Returns (Some df)
      | Raises e => Raises e
      end
  end.

(** lines 57-69 *)
Definition load_subreddit_data (subreddit_path : option node)
  : outcome csv_error loaded :=
  match load_file (lit "posts.csv") subreddit_path with
  | Raises e => Raises e
  | Returns p =>
      match load_file (lit "comments.csv") subreddit_path with
      | Raises e => Raises e
      | Returns c => Returns {| posts := p; comments := c |}
      end
  end.

(** lines 83-112 of [main] *)
Definition main_head (project : list (text * node))
  : outcome (main_error csv_error) (page frame) :=
  match get_available_subreddits project with
  | Raises _ => Raises NotADirectoryError
  | Returns [] => Returns NoScrapedData
  | Returns (s :: ss) =>
      let selected_sub := selectbox (s :: ss) in
      let sub_path := joinpath selected_sub (lookup (lit "data") project) in
      match load_subreddit_data sub_path with
      | Raises e => Raises (ReadCsvError e)
      | Returns data =>
          match posts data with
          | None => Returns NoPostsData
          | Some posts_df =>
              Returns (Dashboard selected_sub posts_df
                         (match comments data with
                          | Some df => df
                          | None => empty_frame
                          end))
          end
      end
  end.

End Loading.

Arguments posts {frame} l.
Arguments comments {frame} l.

(** ** The Parquet export (src/dashboard/app.py, line 743) *)

(** [s.replace(old, new)] for a non-empty [old]: the occurrences of [old]
    are found from the left and do not overlap.  [skip] counts the
    characters of the occurrence just replaced that are still to be
    passed. *)
Fixpoint replace_from (skip : nat) (old new s : text) : text :=
  match s with
  | [] => []
  | c :: s' =>
      match skip with
      | S k => replace_from k old new s'
      | O =>
          if starts_with old s
          then new ++ replace_from (length old - 1) old new s'
          else c :: replace_from 0 old new s'
      end
  end.

Definition py_replace (old new s : text) : text := replace_from 0 old new s.

(** line 743: [export_sub.replace('r_', '').replace('u_', '')] *)
Definition target_name (export_sub : text) : text :=
  py_replace (lit "u_") [] (py_replace (lit "r_") [] export_sub).

(** ** The keys of the objects stored in S3 (src/export/cloud.py, lines
    101-105) *)

(** [sep.join(parts)] *)
Fixpoint join_with (sep : text) (parts : list text) : text :=
  match parts with
  | [] => []
  | p :: ps =>
      match ps with
      | [] => p
      | _ :: _ => p ++ sep ++ join_with sep ps
      end
  end.

(** [str(relative_path)] for a relative path with the components [parts],
    under the path flavour whose separator is [sep] (["/"], or the
    backslash, character 92, on Windows) *)
Definition path_str (sep : char) (parts : list text) : text :=
  match parts with
  | [] => lit "."
  | _ :: _ => join_with [sep] parts
  end.

(** lines 104-105 *)
Definition s3_key (sep : char) (s3_prefix : text) (relative_path : list text)
  : text :=
  py_replace [92%N] (lit "/")
    (match s3_prefix with
     | [] => path_str sep relative_path
     | _ :: _ => s3_prefix ++ lit "/" ++ path_str sep relative_path
     end).

(** A component in which neither separator occurs. *)
Definition plain_name (part : text) : Prop :=
  ~ In 47%N part /\ ~ In 92%N part.

(** What line 105 makes of a character. *)
Definition slashed (c : char) : char := if N.eqb c 92 then 47%N else c.

(** ** Uploads of a data directory (src/export/cloud.py) *)

(** [local_dir.rglob('*')]: every path below a directory, relative to it,
    with what it denotes, in the order of the walk; nothing below a
    file. *)
Fixpoint rglob (n : node) : list (list text * node) :=
  match n with
  | File => []
  | Dir es =>
      flat_map (fun e : text * node =>
                  let (name, x) := e in
                  ([name], x)
                  :: map (fun q => (name :: fst q, snd q)) (rglob x))
        es
  end.

Definition is_file (x : node) : bool :=
  match x with
  | File => true
  | Dir _ => false
  end.

(** lines 101-103 and 254-255: the relative paths of the files of the
    walk *)
Definition files_below (n : node) : list (list text) :=
  map fst (filter (fun q => is_file (snd q)) (rglob n)).

(** [file_path.name] *)
Definition basename (path : list text) : text := last path [].

(** A tree as a file system holds it: in every directory the names are
    distinct and hold no separator. *)
Fixpoint well_formed (sep : char) (n : node) : Prop :=
  match n with
  | File => True
  | Dir es =>
      NoDup (map fst es) /\
      fold_right (fun (e : text * node) rest =>
                    let (name, x) := e in
                    (~ In sep name /\ well_formed sep x) /\ rest)
        True es
  end.

(** A path of the walk: non-empty, of components without separator. *)
Definition clean_path (sep : char) (p : list text) : Prop :=
  p <> [] /\ Forall (fun part => ~ In sep part) p.

(** A dictionary with string keys and values, in insertion order;
    [d[k] = v], [d.get(k)] and [len(d)] are [dict_set], [dict_get] and
    [length]. *)
Definition dict : Type := list (text * text).

Fixpoint dict_set (k v : text) (d : dict) : dict :=
  match d with
  | [] => [(k, v)]
  | (k', v') :: d' =>
      if text_eqb k k' then (k', v) :: d' else (k', v') :: dict_set k v d'
  end.

Fixpoint dict_get (k : text) (d : dict) : option text :=
  match d with
  | [] => None
  | (k', v) :: d' => if text_eqb k k' then Some v else dict_get k d'
  end.

(** The dictionary a loop of assignments [d[k] = v] builds. *)
Definition dict_of (entries : list (text * text)) (d : dict) : dict :=
  fold_left (fun acc e => dict_set (fst e) (snd e) acc) entries d.

(** What [self.s3.upload_file] does: it stores the object, raises
    [ClientError], or raises another exception. *)
Inductive put_result : Type :=
| Stored
| ClientError
| OtherError.

Definition is_stored (r : put_result) : bool :=
  match r with
  | Stored => true
  | _ => false
  end.

Module S3Uploader.
Section S3Uploader.

(** [os.sep], the attributes of [self], and the answer of the client for a
    file of the directory and a key. *)
Variable sep : char.
Variables bucket_name region : text.
Variable client : list text -> text -> put_result.

(** line 75 *)
Definition url_of (s3_key : text) : text :=
  lit "https://" ++ bucket_name ++ lit ".s3." ++ region
  ++ lit ".amazonaws.com/" ++ s3_key.

(** lines 54-80; [file_exists] is [local_path.exists()] *)
Definition upload_file (file_exists : bool) (local_path : list text)
           (s3_key : text) : outcome unit (option text) :=
  if negb file_exists then Returns None
  else
    let s3_key := match s3_key with
                  | [] => basename local_path
                  | _ :: _ => s3_key
                  end in
    match client local_path s3_key with
    | Stored => Returns (Some (url_of s3_key))
    | ClientError => Returns None
    | OtherError => Raises tt
    end.

(** lines 101-109; a path of the walk exists *)
Fixpoint upload_loop (s3_prefix : text) (files : list (list text))
         (uploaded : dict) : outcome unit dict :=
  match files with
  | [] => Returns uploaded
  | relative_path :: rest =>
      match upload_file true relative_path
              (s3_key sep s3_prefix relative_path) with
      | Raises e => Raises e
      | Returns url =>
          upload_loop s3_prefix rest
            (match url with
             | Some (c :: u) =>
                 dict_set (path_str sep relative_path) (c :: u) uploaded
             | _ => uploaded
             end)
      end
  end.

(** lines 82-112 *)
Definition upload_directory (local_dir : option node) (s3_prefix : text)
  : outcome unit dict :=
  match local_dir with
  | None => Returns []
  | Some n => upload_loop s3_prefix (files_below n) []
  end.

(** The entries of the files the client stored, in the order of the
    walk. *)
Definition stored_entries (s3_prefix : text) (files : list (list text))
  : list (text * text) :=
  map (fun p => (path_str sep p, url_of (s3_key sep s3_prefix p)))
    (filter (fun p => is_stored (client p (s3_key sep s3_prefix p))) files).

End S3Uploader.
End S3Uploader.

(** What the request of lines 229-233 does, and the constructor of line
    226 before it: the file is created and the answer holds a link or
    none, the request raises, or the constructor raises. *)
Inductive drive_result : Type :=
| Created (webViewLink : option text)
| RequestFails
| MediaFails.

Module GDriveUploader.
Section GDriveUploader.

(** [self.create_folder] and the service behind [upload_file] *)
Variable create_folder : text -> outcome unit (option text).
Variable service : list text -> option text -> drive_result.

(** lines 214-239 *)
Definition upload_file (file_exists : bool) (local_path : list text)
           (folder_id : option text) : outcome unit (option text) :=
  if negb file_exists then Returns None
  else
    let parents := match folder_id with
                   | Some (c :: i) => Some (c :: i)
                   | _ => None
                   end in
    match service local_path parents with
    | Created link => Returns link
    | RequestFails => Returns None
    | MediaFails => Raises tt
    end.

(** lines 254-258 *)
Fixpoint upload_loop (root_folder : option text) (files : list (list text))
         (uploaded : dict) : outcome unit dict :=
  match files with
  | [] => Returns uploaded
  | file_path :: rest =>
      match upload_file true file_path root_folder with
      | Raises e => Raises e
      | Returns url =>
          upload_loop root_folder rest
            (match url with
             | Some (c :: u) => dict_set (basename file_path) (c :: u) uploaded
             | _ => uploaded
             end)
      end
  end.

(** lines 241-261; [data_dir] is what the path of line 243 denotes and
    [folder_name] the name built in line 250 *)
Definition upload_subreddit_data (data_dir : option node) (folder_name : text)
  : outcome unit dict :=
  match data_dir with
  | None => Returns []
  | Some n =>
      match create_folder folder_name with
      | Raises e => Raises e
      | Returns root_folder => upload_loop root_folder (files_below n) []
      end
  end.

(** The link a file was uploaded with, if it was and has one. *)
Definition link_of (root_folder : option text) (file_path : list text)
  : option text :=
  match upload_file true file_path root_folder with
  | Returns (Some (c :: u)) => Some (c :: u)
  | _ => None
  end.

(** The names and links of the files uploaded with a link, in the order of
    the walk. *)
Definition linked_entries (root_folder : option text)
           (files : list (list text)) : list (text * text) :=
  flat_map (fun p => match link_of root_folder p with
                     | Some u => [(basename p, u)]
                     | None => []
                     end) files.

End GDriveUploader.
End GDriveUploader.

(** ** Subreddit statistics (src/analytics/subreddit_stats.py)

    Every function but the last two runs in a [try] whose handler catches
    every exception, so inside them an exception is [None] of an [option].
    The calls of [print] are taken to succeed. *)

Module SubredditStats.
Section SubredditStats.

(** The numbers of JSON, as [json.loads] represents them. *)
Variable number : Type.

#[warnings="-register-all"]
Inductive json : Type :=
| JNull
| JBool (b : bool)
| JNum (x : number)
| JStr (s : text)
| JList (items : list json)
| JDict (members : list (text * json)).

(** [x != 0], the number [0], [datetime.fromtimestamp(v).isoformat()]
    ([None] when it raises), what [requests.get] does for a URL, and
    [datetime.now().isoformat()]. *)
Variable nonzero : number -> bool.
Variable zero : number.
Variable isoformat : json -> option text.

Inductive response : Type :=
| RequestRaises
| Response (status_code : Z) (body : option json).

Variable requests_get : text -> response.
Variable now : text.

(** [bool(v)] *)
Definition truthy (v : json) : bool :=
  match v with
  | JNull => false
  | JBool b => b
  | JNum x => nonzero x
  | JStr [] => false
  | JStr (_ :: _) => true
  | JList [] => false
  | JList (_ :: _) => true
  | JDict [] => false
  | JDict (_ :: _) => true
  end.

Fixpoint member (k : text) (members : list (text * json)) : option json :=
  match members with
  | [] => None
  | (k', v) :: rest => if text_eqb k k' then Some v else member k rest
  end.

(** [v.get(k, default)]: [AttributeError] on what is no object *)
Definition get (v : json) (k : text) (default : json) : option json :=
  match v with
  | JDict members =>
      Some (match member k members with
            | Some x => x
            | None => default
            end)
  | _ => None
  end.

(** [v[k]] for a string [k]: [KeyError] or [TypeError] *)
Definition subscript (v : json) (k : text) : option json :=
  match v with
  | JDict members => member k members
  | _ => None
  end.

(** [for x in v]: [TypeError] on what cannot be iterated *)
Definition iterate (v : json) : option (list json) :=
  match v with
  | JList items => Some items
  | JDict members => Some (map (fun m => JStr (fst m)) members)
  | JStr s => Some (map (fun c => JStr [c]) s)
  | _ => None
  end.

(** [s.split('?')[0]] *)
Fixpoint before_question (s : text) : text :=
  match s with
  | [] => []
  | c :: s' => if N.eqb c 63 then [] else c :: before_question s'
  end.

(** lines 41, 42 and 44:
    [data.get(k, '').split('?')[0] if data.get(k) else None] *)
Definition url_field (data : json) (k : text) : option (option text) :=
  match get data k JNull with
  | None => None
  | Some v =>
      if truthy v
      then match get data k (JStr []) with
           | Some (JStr s) => Some (Some (before_question s))
           | _ => None
           end
      else Some None
  end.

(** the dictionary of lines 31-50 *)
Record about_info : Type := {
  name : json;
  title : json;
  description : json;
  subscribers : json;
  active_users : json;
  created_utc : text;
  over_18 : json;
  subreddit_type : json;
  lang : json;
  icon_url : option text;
  banner_url : option text;
  header_url : json;
  community_icon : option text;
  wiki_enabled : json;
  spoilers_enabled : json;
  allow_videos : json;
  allow_images : json;
  allow_polls : json
}.

Definition about_url (subreddit : text) : text :=
  lit "https://old.reddit.com/r/" ++ subreddit ++ lit "/about.json".

(** lines 31-50, for the value [data] of line 29 *)
Definition about_of (data : json) : option about_info :=
  match data with
  | JDict members =>
      let field k default :=
        match member k members with
        | Some x => x
        | None => default
        end in
      match isoformat (field (lit "created_utc") (JNum zero)),
            url_field data (lit "icon_img"),
            url_field data (lit "banner_img"),
            url_field data (lit "community_icon") with
      | Some created, Some icon, Some banner, Some community =>
          Some {| name := field (lit "display_name") JNull;
                  title := field (lit "title") JNull;
                  description := field (lit "public_description") JNull;
                  subscribers := field (lit "subscribers") (JNum zero);
                  active_users := field (lit "accounts_active") (JNum zero);
                  created_utc := created;
                  over_18 := field (lit "over18") (JBool false);
                  subreddit_type := field (lit "subreddit_type") JNull;
                  lang := field (lit "lang") JNull;
                  icon_url := icon;
                  banner_url := banner;
                  header_url := field (lit "header_img") JNull;
                  community_icon := community;
                  wiki_enabled := field (lit "wiki_enabled") (JBool false);
                  spoilers_enabled :=
                    field (lit "spoilers_enabled") (JBool false);
                  allow_videos := field (lit "allow_videos") (JBool false);
                  allow_images := field (lit "allow_images") (JBool false);
                  allow_polls := field (lit "allow_polls") (JBool false) |}
      | _, _, _, _ => None
      end
  | _ => None
  end.

(** lines 10-53 *)
Definition get_subreddit_about (subreddit : text) : option about_info :=
  match requests_get (about_url subreddit) with
  | RequestRaises => None
  | Response status_code body =>
      if negb (Z.eqb status_code 200) then None
      else
        match body with
        | None => None
        | Some j =>
            match subscript j (lit "data") with
            | None => None
            | Some data => about_of data
            end
        end
  end.

(** A loop that appends [f x] for every [x], given up at the first
    exception. *)
Fixpoint for_each {A B : Type} (f : A -> option B) (l : list A)
  : option (list B) :=
  match l with
  | [] => Some []
  | x :: l' =>
      match f x with
      | None => None
      | Some y =>
          match for_each f l' with
          | None => None
          | Some ys => Some (y :: ys)
          end
      end
  end.

(** the dictionary of lines 77-83 *)
Record rule_info : Type := {
  short_name : json;
  rule_description : json;
  priority : json;
  kind : json;
  rule_created_utc : text
}.

Definition rule_of (rule : json) : option rule_info :=
  match rule with
  | JDict members =>
      let field k default :=
        match member k members with
        | Some x => x
        | None => default
        end in
      match isoformat (field (lit "created_utc") (JNum zero)) with
      | Some created =>
          Some {| short_name := field (lit "short_name") JNull;
                  rule_description := field (lit "description") JNull;
                  priority := field (lit "priority") JNull;
                  kind := field (lit "kind") JNull;
                  rule_created_utc := created |}
      | None => None
      end
  | _ => None
  end.

Definition rules_url (subreddit : text) : text :=
  lit "https://old.reddit.com/r/" ++ subreddit ++ lit "/about/rules.json".

(** The value a loop of one of the three list functions runs over, for a
    response: [None] when the function returns [[]] before its loop. *)
Definition or_empty {A : Type} (r : option (list A)) : list A :=
  match r with
  | Some l => l
  | None => []
  end.

(** lines 73-85, for the value [data] of line 73 *)
Definition rules_of (data : json) : option (list rule_info) :=
  match get data (lit "rules") (JList []) with
  | None => None
  | Some v =>
      match iterate v with
      | None => None
      | Some items => for_each rule_of items
      end
  end.

(** lines 55-88 *)
Definition get_subreddit_rules (subreddit : text) : list rule_info :=
  match requests_get (rules_url subreddit) with
  | RequestRaises => []
  | Response status_code body =>
      if negb (Z.eqb status_code 200) then []
      else
        match body with
        | None => []
        | Some data => or_empty (rules_of data)
        end
  end.

(** the dictionary of lines 112-116 *)
Record mod_info : Type := {
  mod_name : json;
  permissions : json;
  added_utc : option text
}.

Definition mod_of (mod_ : json) : option mod_info :=
  match mod_ with
  | JDict members =>
      let field k default :=
        match member k members with
        | Some x => x
        | None => default
        end in
      match (if truthy (field (lit "date") JNull)
             then match isoformat (field (lit "date") (JNum zero)) with
                  | Some added => Some (Some added)
                  | None => None
                  end
             else Some None) with
      | Some added =>
          Some {| mod_name := field (lit "name") JNull;
                  permissions := field (lit "mod_permissions") (JList []);
                  added_utc := added |}
      | None => None
      end
  | _ => None
  end.

Definition mods_url (subreddit : text) : text :=
  lit "https://old.reddit.com/r/" ++ subreddit
  ++ lit "/about/moderators.json".

(** lines 108-118 *)
Definition mods_of (data : json) : option (list mod_info) :=
  match get data (lit "data") (JDict []) with
  | None => None
  | Some inner =>
      match get inner (lit "children") (JList []) with
      | None => None
      | Some v =>
          match iterate v with
          | None => None
          | Some items => for_each mod_of items
          end
      end
  end.

(** lines 90-121 *)
Definition get_subreddit_mods (subreddit : text) : list mod_info :=
  match requests_get (mods_url subreddit) with
  | RequestRaises => []
  | Response status_code body =>
      if negb (Z.eqb status_code 200) then []
      else
        match body with
        | None => []
        | Some data => or_empty (mods_of data)
        end
  end.

(** the dictionary of lines 143-149 *)
Record flair_info : Type := {
  flair_text : json;
  flair_id : json;
  background_color : json;
  text_color : json;
  flair_type : json
}.

Definition flair_of (flair : json) : option flair_info :=
  match flair with
  | JDict members =>
      let field k :=
        match member k members with
        | Some x => x
        | None => JNull
        end in
      Some {| flair_text := field (lit "text");
              flair_id := field (lit "id");
              background_color := field (lit "background_color");
              text_color := field (lit "text_color");
              flair_type := field (lit "type") |}
  | _ => None
  end.

Definition flairs_url (subreddit : text) : text :=
  lit "https://old.reddit.com/r/" ++ subreddit
  ++ lit "/api/link_flair_v2.json".

(** lines 141-151 *)
Definition flairs_of (data : json) : option (list flair_info) :=
  match iterate data with
  | None => None
  | Some items => for_each flair_of items
  end.

(** lines 123-153 *)
Definition get_subreddit_flairs (subreddit : text) : list flair_info :=
  match requests_get (flairs_url subreddit) with
  | RequestRaises => []
  | Response status_code body =>
      if negb (Z.eqb status_code 200) then []
      else
        match body with
        | None => []
        | Some data => or_empty (flairs_of data)
        end
  end.

(** the dictionary of lines 176-185: the entries of [about] and seven
    more, none under a key of [about] *)
Record stats_info : Type := {
  about : about_info;
  rules : list rule_info;
  rules_count : nat;
  moderators : list mod_info;
  moderator_count : nat;
  flairs : list flair_info;
  flair_count : nat;
  fetched_at : text
}.

(** What the format [{v:,}] of lines 189 and 190 raises. *)
Inductive format_error : Type :=
| FormatTypeError
| FormatValueError.

Definition with_thousands (v : json) : outcome format_error unit :=
  match v with
  | JNum _ => Returns tt
  | JBool _ => Returns tt
  | JStr _ => Raises FormatValueError
  | _ => Raises FormatTypeError
  end.

(** lines 155-197 *)
Definition get_full_subreddit_stats (subreddit : text)
  : outcome format_error (option stats_info) :=
  match get_subreddit_about subreddit with
  | None => Returns None
  | Some a =>
      let r := get_subreddit_rules subreddit in
      let m := get_subreddit_mods subreddit in
      let f := get_subreddit_flairs subreddit in
      let stats := {| about := a;
                      rules := r;
                      rules_count := length r;
                      moderators := m;
                      moderator_count := length m;
                      flairs := f;
                      flair_count := length f;
                      fetched_at := now |} in
      match with_thousands (subscribers a) with
      | Raises e => Raises e
      | Returns _ =>
          match with_thousands (active_users a) with
          | Raises e => Raises e
          | Returns _ => Returns (Some stats)
          end
      end
  end.

(** lines 199-226: the path of the file and what is dumped into it, when
    the directory and the file can be written *)
Definition save_subreddit_stats (subreddit output_dir : text)
  : outcome format_error (option (text * stats_info)) :=
  match get_full_subreddit_stats subreddit with
  | Raises e => Raises e
  | Returns None => Returns None
  | Returns (Some stats) =>
      Returns (Some (output_dir ++ lit "/r_" ++ subreddit
                     ++ lit "/subreddit_stats.json", stats))
  end.

(** A number of JSON, or one of its truth values. *)
Definition is_number (v : json) : bool :=
  match v with
  | JNum _ => true
  | JBool _ => true
  | _ => false
  end.

(** How a URL of the dictionary relates to the member of the response it
    was made from: the text before the first question mark of a non-empty
    string, or [None] for a missing or false member. *)
Definition cut_from (original : option json) (url : option text) : Prop :=
  match url with
  | Some u =>
      exists rest, original = Some (JStr (u ++ rest))
                   /\ u ++ rest <> []
                   /\ ~ In 63%N u
                   /\ (rest = [] \/ exists r, rest = 63%N :: r)
  | None =>
      match original with
      | Some v => truthy v = false
      | None => True
      end
  end.

End SubredditStats.
End SubredditStats.

(** An answer to try the functions on: the subscriber count is [null], the
    icon has a query, and the second rule is no object. *)
Definition example_body : SubredditStats.json Z :=
  SubredditStats.JDict Z
    [(lit "data",
      SubredditStats.JDict Z
        [(lit "display_name", SubredditStats.JStr Z (lit "python"));
         (lit "subscribers", SubredditStats.JNull Z);
         (lit "icon_img",
          SubredditStats.JStr Z (lit "https://a.example/i.png?width=256"))]);
     (lit "rules",
      SubredditStats.JList Z
        [SubredditStats.JDict Z
           [(lit "short_name", SubredditStats.JStr Z (lit "Be nice"))];
         SubredditStats.JNull Z])].

Definition example_get (url : text) : SubredditStats.response Z :=
  SubredditStats.Response Z 200 (Some example_body).

Definition example_isoformat (v : SubredditStats.json Z) : option text :=
  match v with
  | SubredditStats.JNum _ _ => Some (lit "1970-01-01T00:00:00")
  | _ => None
  end.

Definition example_nonzero (x : Z) : bool := negb (Z.eqb x 0).
(** * Properties *)

(** ** The expressions on sample lines *)

Example search_progress_with_blanks :
  re_search plain_host re_progress (lit "Progress: 5 / 100 posts")
  = Some [lit "5"; lit "100"].
Proof. reflexivity. Qed.

Example search_progress_leftmost :
  re_search plain_host re_progress (lit "a1/b Progress: 2/3")
  = Some [lit "2"; lit "3"].
Proof. reflexivity. Qed.

Example search_saved :
  re_search plain_host re_saved (lit "Saved 12 new posts") = Some [lit "12"].
Proof. reflexivity. Qed.

Example search_comments_second_occurrence :
  re_search plain_host re_comments (lit "Comments: x7 Comments:8")
  = Some [lit "8"].
Proof. reflexivity. Qed.

Example search_found_needs_the_blank :
  re_search plain_host re_found (lit "Found 33 posts in this batch")
  = Some [lit "33"] /\
  re_search plain_host re_found (lit "Found 3posts") = None.
Proof. split; reflexivity. Qed.

Example fetching_line_has_no_comments_trigger :
  comments_trigger (lit "Fetching comments for: abc") = false.
Proof. reflexivity. Qed.

Example last_fifteen_of_three :
  py_last 15 [1; 2; 3] = [1; 2; 3] /\ py_last 2 [1; 2; 3] = [2; 3].
Proof. split; reflexivity. Qed.

Example read_lines_across_writes :
  read_lines {| writes := [blit "ab"; blit "c"; [newline]; blit "zz"];
                stream_end := EndOfFile; returncode := 0 |}
  = ([bline "abc"; blit "zz"], Normal tt).
Proof. reflexivity. Qed.

Example read_lines_failed_read :
  read_lines {| writes := [blit "ab"; blit "c"; [newline]; blit "zz"];
                stream_end := ReadFails; returncode := 0 |}
  = ([bline "abc"], Raised OSError).
Proof. reflexivity. Qed.

(** ** Worlds *)

Lemma emits_nil (w : world) : emits [] w = w.
Proof. destruct w; unfold emits, with_ui; simpl. now rewrite app_nil_r. Qed.

Lemma emits_app (a b : list ui_event) (w : world) :
  emits b (emits a w) = emits (a ++ b) w.
Proof. destruct w; unfold emits, with_ui; simpl. now rewrite app_assoc. Qed.

Lemma with_posts_count_same (w : world) : with_posts_count (posts_count w) w = w.
Proof. now destruct w. Qed.

Lemma with_comments_count_same (w : world) :
  with_comments_count (comments_count w) w = w.
Proof. now destruct w. Qed.

Lemma with_images_count_same (w : world) :
  with_images_count (images_count w) w = w.
Proof. now destruct w. Qed.

Lemma with_videos_count_same (w : world) :
  with_videos_count (videos_count w) w = w.
Proof. now destruct w. Qed.

(** Unfolds the monad and splits on every test met on the way. *)
Ltac run_block :=
  unfold when, try_pass, bind, group, py_int, py_str, true_div, get, ret,
    raise, emit, set_posts_count, set_comments_count, set_images_count,
    set_videos_count;
  simpl;
  repeat match goal with
         | |- context [match ?x with _ => _ end] =>
             lazymatch x with
             | context [match _ with _ => _ end] => fail
             | _ => destruct x eqn:?; simpl
             end
         end.

Ltac same_world :=
  rewrite ?emits_nil, ?with_posts_count_same, ?with_comments_count_same,
    ?with_images_count_same, ?with_videos_count_same;
  try reflexivity;
  try congruence;
  try (match goal with w : world |- _ => destruct w end;
       unfold emits, with_ui; simpl; rewrite <- ?app_assoc; reflexivity).

Section Blocks.

Variable host : Host.

Lemma progress_block_eq (line : text) (w : world) :
  progress_block host line w =
  (match progress_done host line with
   | Some n =>
       emits (match progress_total host line with
              | Some total => progress_published host n total
              | None => []
              end) (with_posts_count n w)
   | None => w
   end, Normal tt).
Proof.
  unfold progress_block, progress_done, progress_total, progress_trigger,
    payload, progress_published.
  run_block; same_world.
Qed.


Lemma saved_block_eq (line : text) (w : world) :
  saved_block host line w =
  (match saved_delta host line with
   | Some n =>
       emits (count_published host PostsW (posts_count w + n))
         (with_posts_count (posts_count w + n) w)
   | None => w
   end, Normal tt).
Proof.
  unfold saved_block, saved_delta, saved_trigger, payload, count_published.
  run_block; same_world.
Qed.

Lemma comments_block_eq (line : text) (w : world) :
  comments_block host line w =
  (match comments_total host line with
   | Some n => emits (count_published host CommentsW n) (with_comments_count n w)
   | None => w
   end, Normal tt).
Proof.
  unfold comments_block, comments_total, comments_trigger, payload,
    count_published.
  run_block; same_world.
Qed.

Lemma fetching_block_eq (line : text) (w : world) :
  fetching_block host line w =
  if fetching_trigger line then
    if str_accepts host (comments_count w + 1) then
      (emits [Metric CommentsW (MApprox (comments_count w + 1))]
         (with_comments_count (comments_count w + 1) w), Normal tt)
    else (with_comments_count (comments_count w + 1) w, Raised ValueError)
  else (w, Normal tt).
Proof.
  unfold fetching_block, fetching_trigger.
  run_block; same_world.
Qed.

Lemma images_block_eq (line : text) (w : world) :
  images_block host line w =
  (match images_total host line with
   | Some n => emits (count_published host ImagesW n) (with_images_count n w)
   | None => w
   end, Normal tt).
Proof.
  unfold images_block, images_total, images_trigger, payload, count_published.
  run_block; same_world.
Qed.

Lemma videos_block_eq (line : text) (w : world) :
  videos_block host line w =
  (match videos_total host line with
   | Some n => emits (count_published host VideosW n) (with_videos_count n w)
   | None => w
   end, Normal tt).
Proof.
  unfold videos_block, videos_total, videos_trigger, payload, count_published.
  run_block; same_world.
Qed.

Lemma found_block_eq (line : text) (w : world) :
  found_block host line w =
  (match found_batch host line with
   | Some batch =>
       emits (if str_accepts host batch then [StatusInfo (SFound batch)] else []) w
   | None => w
   end, Normal tt).
Proof.
  unfold found_block, found_batch, found_trigger, payload.
  run_block; same_world.
Qed.

(** The tests after the first, as one step. *)
Lemma patterns_eq (line : text) (w : world) :
  patterns host line w =
  later_patterns host line (fst (progress_block host line w)).
Proof.
  unfold patterns, later_patterns, bind at 1.
  rewrite progress_block_eq. reflexivity.
Qed.

End Blocks.

(** ** Invariants of the loop *)

Lemma quiet_refl (w : world) : quiet w w.
Proof. exists []. split; [now rewrite app_nil_r | constructor]. Qed.

Lemma quiet_trans (a b c : world) : quiet a b -> quiet b c -> quiet a c.
Proof.
  intros [e1 [E1 F1]] [e2 [E2 F2]]. exists (e1 ++ e2). split.
  - now rewrite E2, E1, app_assoc.
  - apply Forall_app. now split.
Qed.

Lemma quiet_same_ui (w w' : world) : ui w' = ui w -> quiet w w'.
Proof. intros E. exists []. split; [now rewrite app_nil_r | constructor]. Qed.

Lemma quiet_emits (evs : list ui_event) (w : world) :
  Forall (fun e => is_snapshot e = true) evs -> quiet w (emits evs w).
Proof. intros F. now exists evs. Qed.

Lemma good_emits (evs : list ui_event) (w : world) :
  good w -> Forall event_nonneg evs -> good (emits evs w).
Proof.
  intros [C F] F'. split; [exact C | simpl; apply Forall_app; now split].
Qed.

Lemma good_start : good start.
Proof. split; [unfold counters_nonneg; simpl; lia | constructor]. Qed.

Section Loop.

Variable host : Host.

Lemma int_value_nonneg (ds : text) (n : Z) : int_value host ds = Some n -> 0 <= n.
Proof.
  unfold int_value. destruct ds; [discriminate |].
  destruct (int_value_from host 0 (c :: ds)); simpl; [| discriminate].
  intros [= <-]. apply N2Z.is_nonneg.
Qed.

Lemma parse_int_nonneg (ds : text) (n : Z) : parse_int host ds = Some n -> 0 <= n.
Proof.
  unfold parse_int. destruct (int_value host ds) eqn:E; [| discriminate].
  destruct (int_accepts host ds); [| discriminate].
  intros [= <-]. eapply int_value_nonneg; eassumption.
Qed.

Lemma payload_nonneg (i : nat) (p : regex) (line : text) (n : Z) :
  payload host i p line = Some n -> 0 <= n.
Proof.
  unfold payload. destruct (re_search host p line); [| discriminate].
  destruct (nth_error l (i - 1)); [| discriminate]. apply parse_int_nonneg.
Qed.

Ltac payload_facts :=
  repeat match goal with
         | E : (if ?b then _ else None) = Some _ |- _ =>
             destruct b; [apply payload_nonneg in E | discriminate E]
         end.

Lemma progress_done_nonneg line n : progress_done host line = Some n -> 0 <= n.
Proof. unfold progress_done. intros E. now payload_facts. Qed.
Lemma progress_total_nonneg line n : progress_total host line = Some n -> 0 <= n.
Proof. unfold progress_total. intros E. now payload_facts. Qed.
Lemma saved_delta_nonneg line n : saved_delta host line = Some n -> 0 <= n.
Proof. unfold saved_delta. intros E. now payload_facts. Qed.
Lemma comments_total_nonneg line n : comments_total host line = Some n -> 0 <= n.
Proof. unfold comments_total. intros E. now payload_facts. Qed.
Lemma images_total_nonneg line n : images_total host line = Some n -> 0 <= n.
Proof. unfold images_total. intros E. now payload_facts. Qed.
Lemma videos_total_nonneg line n : videos_total host line = Some n -> 0 <= n.
Proof. unfold videos_total. intros E. now payload_facts. Qed.
Lemma found_batch_nonneg line n : found_batch host line = Some n -> 0 <= n.
Proof. unfold found_batch. intros E. now payload_facts. Qed.

Lemma progress_published_snapshot n total :
  Forall (fun e => is_snapshot e = true) (progress_published host n total).
Proof.
  unfold progress_published.
  destruct (total =? 0), (div_accepts host n total),
    (str_accepts host n && str_accepts host total); repeat constructor.
Qed.

Lemma progress_published_nonneg n total :
  0 <= n -> 0 <= total -> Forall event_nonneg (progress_published host n total).
Proof.
  intros Hn Ht. unfold progress_published.
  destruct (total =? 0), (div_accepts host n total),
    (str_accepts host n && str_accepts host total);
    repeat constructor; simpl; assumption.
Qed.

Lemma count_published_snapshot m n :
  Forall (fun e => is_snapshot e = true) (count_published host m n).
Proof. unfold count_published. destruct (str_accepts host n); repeat constructor. Qed.

Lemma count_published_nonneg m n :
  0 <= n -> Forall event_nonneg (count_published host m n).
Proof.
  intros Hn. unfold count_published.
  destruct (str_accepts host n); repeat constructor; simpl; assumption.
Qed.

Lemma ok_step_refl w : ok_step w w.
Proof. split; [reflexivity | split; [apply quiet_refl | tauto]]. Qed.

Lemma ok_step_trans a b c : ok_step a b -> ok_step b c -> ok_step a c.
Proof.
  intros [L1 [Q1 G1]] [L2 [Q2 G2]]. split; [congruence |]. split.
  - eapply quiet_trans; eassumption.
  - intros G. apply G2, G1, G.
Qed.

Lemma ok_step_emits evs w :
  Forall (fun e => is_snapshot e = true) evs ->
  (good w -> Forall event_nonneg evs) ->
  ok_step w (emits evs w).
Proof.
  intros S N. split; [reflexivity |]. split; [now apply quiet_emits |].
  intros G. apply good_emits; auto.
Qed.

Lemma ok_step_posts n w :
  (good w -> 0 <= n) -> ok_step w (with_posts_count n w).
Proof.
  intros N. split; [reflexivity |]. split; [now apply quiet_same_ui |].
  intros G. specialize (N G). destruct G as [[? [? [? ?]]] F].
  split; [unfold counters_nonneg; simpl; tauto | exact F].
Qed.

Lemma ok_step_comments n w :
  (good w -> 0 <= n) -> ok_step w (with_comments_count n w).
Proof.
  intros N. split; [reflexivity |]. split; [now apply quiet_same_ui |].
  intros G. specialize (N G). destruct G as [[? [? [? ?]]] F].
  split; [unfold counters_nonneg; simpl; tauto | exact F].
Qed.

Lemma ok_step_images n w :
  (good w -> 0 <= n) -> ok_step w (with_images_count n w).
Proof.
  intros N. split; [reflexivity |]. split; [now apply quiet_same_ui |].
  intros G. specialize (N G). destruct G as [[? [? [? ?]]] F].
  split; [unfold counters_nonneg; simpl; tauto | exact F].
Qed.

Lemma ok_step_videos n w :
  (good w -> 0 <= n) -> ok_step w (with_videos_count n w).
Proof.
  intros N. split; [reflexivity |]. split; [now apply quiet_same_ui |].
  intros G. specialize (N G). destruct G as [[? [? [? ?]]] F].
  split; [unfold counters_nonneg; simpl; tauto | exact F].
Qed.

Lemma progress_block_ok line w : ok_step w (fst (progress_block host line w)).
Proof.
  rewrite progress_block_eq. simpl.
  destruct (progress_done host line) as [n|] eqn:Ed; [| apply ok_step_refl].
  assert (Hn := progress_done_nonneg _ _ Ed).
  apply ok_step_trans with (b := with_posts_count n w);
    [apply ok_step_posts; auto | apply ok_step_emits].
  - destruct (progress_total host line);
      [apply progress_published_snapshot | constructor].
  - intros _. destruct (progress_total host line) as [t|] eqn:Et; [| constructor].
    apply progress_published_nonneg;
      [exact Hn | eapply progress_total_nonneg; eassumption].
Qed.

Lemma saved_block_ok line w : ok_step w (fst (saved_block host line w)).
Proof.
  rewrite saved_block_eq. simpl.
  destruct (saved_delta host line) as [n|] eqn:Ed; [| apply ok_step_refl].
  assert (Hn := saved_delta_nonneg _ _ Ed).
  assert (N : good w -> 0 <= posts_count w + n)
    by (intros [[? _] _]; lia).
  apply ok_step_trans with (b := with_posts_count (posts_count w + n) w);
    [apply ok_step_posts; exact N | apply ok_step_emits].
  - apply count_published_snapshot.
  - intros [[P _] _]. simpl in P. now apply count_published_nonneg.
Qed.

Lemma comments_block_ok line w : ok_step w (fst (comments_block host line w)).
Proof.
  rewrite comments_block_eq. simpl.
  destruct (comments_total host line) as [n|] eqn:Ed; [| apply ok_step_refl].
  assert (Hn := comments_total_nonneg _ _ Ed).
  apply ok_step_trans with (b := with_comments_count n w);
    [apply ok_step_comments; auto | apply ok_step_emits].
  - apply count_published_snapshot.
  - intros _. now apply count_published_nonneg.
Qed.

Lemma fetching_block_ok line w : ok_step w (fst (fetching_block host line w)).
Proof.
  rewrite fetching_block_eq.
  assert (N : good w -> 0 <= comments_count w + 1)
    by (intros [[_ [? _]] _]; lia).
  destruct (fetching_trigger line); [| apply ok_step_refl].
  destruct (str_accepts host (comments_count w + 1)); simpl;
    [| now apply ok_step_comments].
  apply ok_step_trans with (b := with_comments_count (comments_count w + 1) w);
    [apply ok_step_comments; exact N | apply ok_step_emits].
  - repeat constructor.
  - intros [[_ [P _]] _]. simpl in P. repeat constructor. exact P.
Qed.

Lemma images_block_ok line w : ok_step w (fst (images_block host line w)).
Proof.
  rewrite images_block_eq. simpl.
  destruct (images_total host line) as [n|] eqn:Ed; [| apply ok_step_refl].
  assert (Hn := images_total_nonneg _ _ Ed).
  apply ok_step_trans with (b := with_images_count n w);
    [apply ok_step_images; auto | apply ok_step_emits].
  - apply count_published_snapshot.
  - intros _. now apply count_published_nonneg.
Qed.

Lemma videos_block_ok line w : ok_step w (fst (videos_block host line w)).
Proof.
  rewrite videos_block_eq. simpl.
  destruct (videos_total host line) as [n|] eqn:Ed; [| apply ok_step_refl].
  assert (Hn := videos_total_nonneg _ _ Ed).
  apply ok_step_trans with (b := with_videos_count n w);
    [apply ok_step_videos; auto | apply ok_step_emits].
  - apply count_published_snapshot.
  - intros _. now apply count_published_nonneg.
Qed.

Lemma found_block_ok line w : ok_step w (fst (found_block host line w)).
Proof.
  rewrite found_block_eq. simpl.
  destruct (found_batch host line) as [n|] eqn:Ed; [| apply ok_step_refl].
  assert (Hn := found_batch_nonneg _ _ Ed).
  apply ok_step_emits.
  - destruct (str_accepts host n); repeat constructor.
  - intros _. destruct (str_accepts host n); repeat constructor. exact Hn.
Qed.

(** Sequencing keeps the property, whether or not the first part raises. *)
Lemma bind_ok (m k : M unit) (w : world) :
  ok_step w (fst (m w)) ->
  (forall w1, ok_step w1 (fst (k w1))) ->
  ok_step w (fst ((m ;; k) w)).
Proof.
  intros Hm Hk. unfold bind. specialize (Hk (fst (m w))).
  destruct (m w) as [w1 [[]|e]]; simpl in *;
    [eapply ok_step_trans; eassumption | exact Hm].
Qed.

Lemma patterns_ok line w : ok_step w (fst (patterns host line w)).
Proof.
  unfold patterns.
  repeat (apply bind_ok; [| intros ?]);
    auto using progress_block_ok, saved_block_ok, comments_block_ok,
      fetching_block_ok, images_block_ok, videos_block_ok, found_block_ok.
Qed.

End Loop.

Section Patterns.

Variable host : Host.

(** After the tests of one line have run to their end, each counter is
    what its own tests make of it, whatever the other tests found. *)
Lemma patterns_counters (line : text) (w w' : world) :
  patterns host line w = (w', Normal tt) ->
  posts_count w' =
    default (posts_count w) (progress_done host line)
    + default 0 (saved_delta host line) /\
  comments_count w' =
    default (comments_count w) (comments_total host line)
    + (if fetching_trigger line then 1 else 0) /\
  images_count w' = default (images_count w) (images_total host line) /\
  videos_count w' = default (videos_count w) (videos_total host line).
Proof.
  unfold patterns, bind.
  rewrite progress_block_eq; cbv beta iota.
  rewrite saved_block_eq; cbv beta iota.
  rewrite comments_block_eq; cbv beta iota.
  rewrite fetching_block_eq.
  destruct (fetching_trigger line);
    [match goal with
     | |- context [str_accepts host ?n] => destruct (str_accepts host n)
     end; [| discriminate] |];
    cbv beta iota;
    rewrite images_block_eq; cbv beta iota;
    rewrite videos_block_eq; cbv beta iota;
    rewrite found_block_eq;
    intros [= <-];
    destruct (progress_done host line), (saved_delta host line),
      (comments_total host line), (images_total host line),
      (videos_total host line), (found_batch host line);
    simpl; repeat split; lia.
Qed.

(** The first two counters do not depend on how the tests end. *)
Lemma patterns_posts_comments (line : text) (w : world) :
  posts_count (fst (patterns host line w)) =
    default (posts_count w) (progress_done host line)
    + default 0 (saved_delta host line) /\
  comments_count (fst (patterns host line w)) =
    default (comments_count w) (comments_total host line)
    + (if fetching_trigger line then 1 else 0).
Proof.
  unfold patterns, bind.
  rewrite progress_block_eq; cbv beta iota.
  rewrite saved_block_eq; cbv beta iota.
  rewrite comments_block_eq; cbv beta iota.
  rewrite fetching_block_eq.
  destruct (fetching_trigger line);
    [match goal with
     | |- context [str_accepts host ?n] => destruct (str_accepts host n)
     end |];
    cbv beta iota;
    rewrite ?images_block_eq; cbv beta iota;
    rewrite ?videos_block_eq; cbv beta iota;
    rewrite ?found_block_eq;
    destruct (progress_done host line), (saved_delta host line),
      (comments_total host line), (images_total host line),
      (videos_total host line), (found_batch host line);
    simpl; split; lia.
Qed.

Lemma no_match_payload (b : bool) (p : regex) (line : text) (i : nat) :
  no_match host b p line = true ->
  (if b then payload host i p line else None) = None.
Proof.
  unfold no_match, payload. destruct b; [| reflexivity]. simpl.
  now destruct (re_search host p line).
Qed.

(** A line on which no test finds anything leaves everything as it is. *)
Lemma patterns_unmatched (line : text) (w : world) :
  unmatched host line = true -> patterns host line w = (w, Normal tt).
Proof.
  unfold unmatched. rewrite !andb_true_iff, negb_true_iff.
  intros [[[[[[P S] C] F] I] V] B].
  unfold patterns, bind.
  rewrite progress_block_eq, saved_block_eq, comments_block_eq.
  unfold progress_done, saved_delta, comments_total.
  rewrite (no_match_payload _ _ _ 1 P), (no_match_payload _ _ _ 1 S),
    (no_match_payload _ _ _ 1 C).
  rewrite fetching_block_eq, F, images_block_eq, videos_block_eq,
    found_block_eq.
  unfold images_total, videos_total, found_batch.
  now rewrite (no_match_payload _ _ _ 1 I), (no_match_payload _ _ _ 1 V),
    (no_match_payload _ _ _ 1 B).
Qed.

(** The tests raise nothing but the [ValueError] of line 436. *)
Lemma patterns_result (line : text) (w : world) :
  snd (patterns host line w) = Normal tt \/
  snd (patterns host line w) = Raised ValueError.
Proof.
  unfold patterns, bind.
  rewrite progress_block_eq; cbv beta iota.
  rewrite saved_block_eq; cbv beta iota.
  rewrite comments_block_eq; cbv beta iota.
  rewrite fetching_block_eq.
  destruct (fetching_trigger line);
    [match goal with
     | |- context [str_accepts host ?n] => destruct (str_accepts host n)
     end |];
    cbv beta iota;
    rewrite ?images_block_eq; cbv beta iota;
    rewrite ?videos_block_eq; cbv beta iota;
    rewrite ?found_block_eq; simpl; auto.
Qed.

End Patterns.

Section Iteration.

Variable host : Host.

Lemma update_status_eq (w : world) :
  update_status host w =
  if float_accepts host (posts_count w) then
    (emits [StatusInfo SRunning] w, Normal tt)
  else if elapsed_positive host (length (output_lines w)) then
    (w, Raised OverflowError)
  else (emits [StatusInfo SRunning] w, Normal tt).
Proof.
  unfold update_status, bind, get, ret, raise, emit.
  destruct (float_accepts host (posts_count w)); [reflexivity |].
  now destruct (elapsed_positive host (length (output_lines w))).
Qed.

Lemma update_display_eq (w : world) :
  update_display w =
  (emits [OutputCode (join (py_last 15 (output_lines w)))] w, Normal tt).
Proof. reflexivity. Qed.

(** Lines 470-476 as one step. *)
Lemma status_display_eq (w : world) :
  (update_status host ;; update_display) w =
  if float_accepts host (posts_count w) then
    (emits [StatusInfo SRunning;
            OutputCode (join (py_last 15 (output_lines w)))] w, Normal tt)
  else if elapsed_positive host (length (output_lines w)) then
    (w, Raised OverflowError)
  else
    (emits [StatusInfo SRunning;
            OutputCode (join (py_last 15 (output_lines w)))] w, Normal tt).
Proof.
  unfold bind at 1. rewrite update_status_eq.
  destruct (float_accepts host (posts_count w));
    [| destruct (elapsed_positive host _); [reflexivity |]];
    rewrite update_display_eq; simpl; now rewrite emits_app.
Qed.

Lemma iteration_eq (raw : bytes) (w : world) :
  iteration host raw w =
  (patterns host (decode host raw) ;; update_status host ;; update_display)
    (appended (decode host raw) w).
Proof. reflexivity. Qed.

(** An iteration that reaches its end ran the tests to their end and then
    published the status and the last lines. *)
Lemma iteration_normal (raw : bytes) (w w' : world) :
  iteration host raw w = (w', Normal tt) ->
  exists w1,
    patterns host (decode host raw) (appended (decode host raw) w)
    = (w1, Normal tt) /\
    w' = emits [StatusInfo SRunning;
                OutputCode (join (py_last 15 (output_lines w1)))] w1.
Proof.
  rewrite iteration_eq. unfold bind at 1.
  destruct (patterns host _ _) as [w1 [[]|e]]; [| discriminate].
  rewrite status_display_eq.
  intros E. exists w1. split; [reflexivity |].
  destruct (float_accepts host (posts_count w1));
    [| destruct (elapsed_positive host _); [discriminate |]];
    now injection E as <-.
Qed.

Lemma appended_quiet line w : quiet w (appended line w).
Proof. now apply quiet_same_ui. Qed.

Lemma appended_good line w : good w -> good (appended line w).
Proof. intros G. exact G. Qed.

Lemma iteration_quiet (raw : bytes) (w : world) :
  quiet w (fst (iteration host raw w)).
Proof.
  rewrite iteration_eq. set (line := decode host raw).
  assert (P := patterns_ok host line (appended line w)).
  destruct P as [_ [Q _]]. unfold bind at 1.
  destruct (patterns host line (appended line w)) as [w1 [[]|e]];
    simpl in Q; [| exact Q].
  rewrite status_display_eq.
  destruct (float_accepts host (posts_count w1));
    [| destruct (elapsed_positive host _); [exact Q |]];
    (eapply quiet_trans; [exact Q | apply quiet_emits; repeat constructor]).
Qed.

Lemma iteration_good (raw : bytes) (w : world) :
  good w -> good (fst (iteration host raw w)).
Proof.
  intros G. rewrite iteration_eq. set (line := decode host raw).
  assert (P := patterns_ok host line (appended line w)).
  destruct P as [_ [_ P]]. specialize (P G). unfold bind at 1.
  destruct (patterns host line (appended line w)) as [w1 [[]|e]];
    simpl in P; [| exact P].
  rewrite status_display_eq.
  destruct (float_accepts host (posts_count w1));
    [| destruct (elapsed_positive host _); [exact P |]];
    (apply good_emits; [exact P |]); repeat constructor.
Qed.

Lemma iteration_lines (raw : bytes) (w : world) :
  output_lines (fst (iteration host raw w))
  = output_lines w ++ [decode host raw].
Proof.
  rewrite iteration_eq. set (line := decode host raw).
  assert (P := patterns_ok host line (appended line w)).
  destruct P as [L _]. unfold bind at 1.
  destruct (patterns host line (appended line w)) as [w1 [[]|e]];
    simpl in L; [| exact L].
  rewrite status_display_eq.
  destruct (float_accepts host (posts_count w1));
    [| destruct (elapsed_positive host _); [exact L |]]; exact L.
Qed.

(** *** The loop *)

Lemma pump_cons (raw : bytes) (rest : list bytes) (w : world) :
  raw <> [] ->
  pump host (raw :: rest) w = (iteration host raw ;; pump host rest) w.
Proof. destruct raw; [congruence | reflexivity]. Qed.

Lemma pump_quiet (lines : list bytes) (w : world) :
  quiet w (fst (pump host lines w)).
Proof.
  revert w. induction lines as [| raw rest IH]; intros w; [apply quiet_refl |].
  destruct raw as [| b raw]; [apply quiet_refl |].
  rewrite pump_cons by discriminate. unfold bind.
  assert (Q := iteration_quiet (b :: raw) w). specialize (IH (fst (iteration host (b :: raw) w))).
  destruct (iteration host (b :: raw) w) as [w1 [[]|e]]; simpl in *;
    [eapply quiet_trans; eassumption | exact Q].
Qed.

Lemma pump_good (lines : list bytes) (w : world) :
  good w -> good (fst (pump host lines w)).
Proof.
  revert w. induction lines as [| raw rest IH]; intros w G; [exact G |].
  destruct raw as [| b raw]; [exact G |].
  rewrite pump_cons by discriminate. unfold bind.
  assert (Q := iteration_good (b :: raw) w G).
  specialize (IH (fst (iteration host (b :: raw) w)) Q).
  destruct (iteration host (b :: raw) w) as [w1 [[]|e]]; simpl in *;
    assumption.
Qed.

(** The lines of a loop that reached its end, in arrival order. *)
Lemma pump_lines (lines : list bytes) (w w' : world) :
  Forall (fun raw => raw <> []) lines ->
  pump host lines w = (w', Normal tt) ->
  output_lines w' = output_lines w ++ map (decode host) lines.
Proof.
  revert w. induction lines as [| raw rest IH]; intros w F E.
  - injection E as <-. simpl. now rewrite app_nil_r.
  - inversion F as [| ? ? Hraw Frest]; subst.
    rewrite pump_cons in E by exact Hraw. unfold bind in E.
    assert (L := iteration_lines raw w).
    destruct (iteration host raw w) as [w1 [[]|e]]; [| discriminate].
    simpl in L. rewrite (IH w1 Frest E), L. simpl. now rewrite <- app_assoc.
Qed.

Lemma displayed_output_last (evs : list ui_event) (t : text) :
  displayed_output (evs ++ [OutputCode t]) = t.
Proof. unfold displayed_output, display_after. now rewrite fold_left_app. Qed.

Lemma shown_start : shown start.
Proof. reflexivity. Qed.

Lemma pump_shown (lines : list bytes) (w w' : world) :
  shown w -> pump host lines w = (w', Normal tt) -> shown w'.
Proof.
  revert w. induction lines as [| raw rest IH]; intros w S E.
  - now injection E as <-.
  - destruct raw as [| b raw]; [now injection E as <- |].
    rewrite pump_cons in E by discriminate. unfold bind in E.
    destruct (iteration host (b :: raw) w) as [w1 [[]|e]] eqn:Ei;
      [| discriminate].
    apply (IH w1); [| exact E].
    apply iteration_normal in Ei. destruct Ei as [w2 [_ ->]].
    unfold shown. simpl.
    change [StatusInfo SRunning; OutputCode (join (py_last 15 (output_lines w2)))]
      with ([StatusInfo SRunning] ++ [OutputCode (join (py_last 15 (output_lines w2)))]).
    now rewrite app_assoc, displayed_output_last.
Qed.

End Iteration.

(** ** Reading lines *)

Lemma byte_eqb_false (a b : byte) : a <> b -> Byte.eqb a b = false.
Proof.
  intros N. destruct (Byte.eqb a b) eqn:E; [| reflexivity].
  now apply Byte.byte_dec_bl in E.
Qed.

Lemma readline_terminated (l rest : bytes) :
  ~ In newline l ->
  readline (terminated l ++ rest) = Line (terminated l) rest.
Proof.
  unfold terminated. induction l as [| b l IH]; intros N; simpl.
  - reflexivity.
  - rewrite byte_eqb_false by (intros ->; apply N; now left).
    rewrite IH; [reflexivity |]. intros I. apply N. now right.
Qed.

Lemma readline_line (s l rest : bytes) :
  readline s = Line l rest -> s = l ++ rest /\ l <> [].
Proof.
  revert l rest. induction s as [| b s IH]; intros l rest; simpl;
    [discriminate |].
  destruct (Byte.eqb b newline).
  - intros [= <- <-]. split; [reflexivity | discriminate].
  - destruct (readline s) as [l' rest' |]; [| discriminate].
    intros [= <- <-]. destruct (IH l' rest' eq_refl) as [-> _].
    split; [reflexivity | discriminate].
Qed.

Lemma readline_at_end (s partial : bytes) :
  readline s = AtEnd partial -> s = partial.
Proof.
  revert partial. induction s as [| b s IH]; intros partial; simpl.
  - now intros [= <-].
  - destruct (Byte.eqb b newline); [discriminate |].
    destruct (readline s) as [| p]; [discriminate |].
    intros [= <-]. now rewrite (IH p eq_refl).
Qed.

(** The iterator never yields the empty line. *)
Lemma iter_readline_nonempty (fuel : nat) (s : bytes) (e : ending) :
  Forall (fun raw => raw <> []) (fst (iter_readline fuel s e)).
Proof.
  revert s. induction fuel as [| fuel IH]; intros s; simpl; [constructor |].
  destruct (readline s) as [l rest | partial] eqn:R.
  - specialize (IH rest). destruct (iter_readline fuel rest e) as [ls r].
    simpl in *. constructor; [| exact IH].
    now destruct (readline_line _ _ _ R).
  - destruct e; [| constructor].
    destruct partial; simpl; repeat constructor. discriminate.
Qed.

(** With more fuel than bytes the iterator runs to the end of the stream:
    the lines it yields make up the stream, and it stops as the stream
    ends. *)
Lemma iter_readline_complete (fuel : nat) (s : bytes) (e : ending) :
  (length s < fuel)%nat ->
  snd (iter_readline fuel s e)
  = match e with EndOfFile => Normal tt | ReadFails => Raised OSError end /\
  (e = EndOfFile -> concat (fst (iter_readline fuel s e)) = s).
Proof.
  revert s. induction fuel as [| fuel IH]; intros s L; [lia |]. simpl.
  destruct (readline s) as [l rest | partial] eqn:R.
  - destruct (readline_line _ _ _ R) as [-> N].
    assert (L' : (length rest < fuel)%nat).
    { rewrite length_app in L. destruct l; [congruence | simpl in L; lia]. }
    specialize (IH rest L'). destruct (iter_readline fuel rest e) as [ls r].
    simpl in *. destruct IH as [-> C]. split; [reflexivity |].
    intros E. now rewrite (C E).
  - apply readline_at_end in R. subst partial.
    destruct e; [| split; [reflexivity | discriminate]].
    destruct s; simpl; split; try reflexivity; intros _;
      now rewrite ?app_nil_r.
Qed.

(** Fuel beyond the number of bytes changes nothing. *)
Lemma iter_readline_fuel (fuel fuel' : nat) (s : bytes) (e : ending) :
  (length s < fuel)%nat -> (length s < fuel')%nat ->
  iter_readline fuel s e = iter_readline fuel' s e.
Proof.
  revert fuel' s. induction fuel as [| fuel IH]; intros fuel' s L L'; [lia |].
  destruct fuel' as [| fuel']; [lia |]. simpl.
  destruct (readline s) as [l rest | partial] eqn:R; [| reflexivity].
  destruct (readline_line _ _ _ R) as [-> N].
  rewrite length_app in L, L'.
  assert (0 < length l)%nat by (destruct l; [congruence | simpl; lia]).
  now rewrite (IH fuel' rest) by lia.
Qed.

(** A stream of terminated lines is read back line by line. *)
Lemma iter_readline_terminated (ls : list bytes) (fuel : nat) (e : ending) :
  Forall (fun l => ~ In newline l) ls ->
  (length (concat (map terminated ls)) < fuel)%nat ->
  iter_readline fuel (concat (map terminated ls)) e
  = (map terminated ls,
     match e with EndOfFile => Normal tt | ReadFails => Raised OSError end).
Proof.
  revert fuel. induction ls as [| l ls IH]; intros fuel F L.
  - destruct fuel; [simpl in L; lia |]. simpl. now destruct e.
  - inversion F as [| ? ? Hl Fls]; subst.
    destruct fuel; [lia |]. simpl in *.
    rewrite readline_terminated by exact Hl.
    rewrite IH; [reflexivity | exact Fls |].
    rewrite length_app in L. unfold terminated in L at 1.
    rewrite length_app in L. simpl in L. lia.
Qed.

(** ** The block as a whole *)

Lemma snapshot_not_outcome (e : ui_event) :
  is_snapshot e = true -> is_outcome e = false.
Proof. now destruct e. Qed.

Lemma job_outcomes_snapshots (evs rest : list ui_event) (seen : text) :
  Forall (fun e => is_snapshot e = true) evs ->
  job_outcomes seen (evs ++ rest) = job_outcomes (display_after seen evs) rest.
Proof.
  revert seen. induction evs as [| e evs IH]; intros seen F; [reflexivity |].
  inversion F as [| ? ? He Fevs]; subst.
  destruct e; try discriminate; simpl; now apply IH.
Qed.

Section Whole.

Variable host : Host.

Lemma finish_eq (rc : Z) (w : world) :
  finish rc w =
  (emits (ProgressFull ::
          if rc =? 0 then [StatusSuccess; Balloons]
          else [StatusError rc; StCode (join (py_last 30 (output_lines w)))]) w,
   Normal tt).
Proof.
  unfold finish, bind, emit, get. simpl.
  destruct (rc =? 0); simpl; destruct w; unfold emits, with_ui; simpl;
    now rewrite <- !app_assoc.
Qed.

Lemma report_error_eq (e : exn) (w : world) :
  report_error e w = (emits [StError e; StTraceback] w, Normal tt).
Proof.
  unfold report_error, bind, emit. simpl.
  destruct w; unfold emits, with_ui; simpl; now rewrite <- !app_assoc.
Qed.

Lemma run_spawn_fails : run host SpawnFails = emits [StError OSError; StTraceback] start.
Proof. reflexivity. Qed.

(** How the block is left, from how the iterator and the loop ended. *)
Lemma run_spawned (p : process) (w1 : world) (r : result unit) :
  pump host (fst (read_lines p)) start = (w1, r) ->
  run host (Spawned p) =
  match r, snd (read_lines p) with
  | Raised e, _ => emits [StError e; StTraceback] w1
  | Normal _, Raised e => emits [StError e; StTraceback] w1
  | Normal _, Normal _ => fst (finish (returncode p) w1)
  end.
Proof.
  intros E. unfold run, supervise, try_except.
  destruct (read_lines p) as [lines stop]; simpl in *.
  unfold bind at 1. rewrite E.
  destruct r as [[] | e]; [| now rewrite report_error_eq].
  unfold bind at 1. destruct stop as [[] | e]; [| now rewrite report_error_eq].
  now rewrite finish_eq.
Qed.

End Whole.

Section Runs.

Variable host : Host.

Lemma float_accepts_small (n : Z) :
  Z.abs n < float_safe_bound -> float_accepts host n = true.
Proof.
  intros L. unfold float_accepts.
  now rewrite (proj2 (Z.ltb_lt _ _) L).
Qed.

Lemma float_accepts_zero : float_accepts host 0 = true.
Proof. apply float_accepts_small. reflexivity. Qed.

(** One iteration on a line on which no test finds anything. *)
Lemma iteration_unmatched (raw : bytes) (w : world) :
  unmatched host (decode host raw) = true ->
  float_accepts host (posts_count w) = true ->
  iteration host raw w =
  (emits [StatusInfo SRunning;
          OutputCode (join (py_last 15 (output_lines w ++ [decode host raw])))]
     (appended (decode host raw) w), Normal tt).
Proof.
  intros U A. rewrite iteration_eq. unfold bind at 1.
  rewrite (patterns_unmatched host _ _ U), status_display_eq.
  simpl. now rewrite A.
Qed.

(** A loop over such lines reaches its end and leaves the counters. *)
Lemma pump_unmatched (lines : list bytes) (w : world) :
  Forall (fun raw => raw <> [] /\ unmatched host (decode host raw) = true) lines ->
  float_accepts host (posts_count w) = true ->
  exists w',
    pump host lines w = (w', Normal tt) /\
    posts_count w' = posts_count w /\
    comments_count w' = comments_count w /\
    images_count w' = images_count w /\
    videos_count w' = videos_count w.
Proof.
  revert w. induction lines as [| raw rest IH]; intros w F A.
  - exists w. now repeat split.
  - inversion F as [| ? ? [N U] Frest]; subst.
    rewrite pump_cons by exact N. unfold bind.
    rewrite (iteration_unmatched raw w U A).
    set (w1 := emits _ _).
    destruct (IH w1 Frest A) as [w' [E C]].
    exists w'. split; [exact E | exact C].
Qed.

(** The counters after a loop that reached its end: each line acts on
    them in arrival order. *)
Lemma pump_counters (lines : list bytes) (w w' : world) :
  Forall (fun raw => raw <> []) lines ->
  pump host lines w = (w', Normal tt) ->
  posts_count w' =
  fold_left (fun n raw => default n (progress_done host (decode host raw))
                          + default 0 (saved_delta host (decode host raw)))
    lines (posts_count w) /\
  comments_count w' =
  fold_left (fun n raw => default n (comments_total host (decode host raw))
                          + (if fetching_trigger (decode host raw)
                             then 1 else 0))
    lines (comments_count w) /\
  images_count w' =
  fold_left (fun n raw => default n (images_total host (decode host raw)))
    lines (images_count w) /\
  videos_count w' =
  fold_left (fun n raw => default n (videos_total host (decode host raw)))
    lines (videos_count w).
Proof.
  revert w. induction lines as [| raw rest IH]; intros w F E.
  - injection E as <-. now repeat split.
  - inversion F as [| ? ? N Frest]; subst.
    rewrite pump_cons in E by exact N. unfold bind in E.
    destruct (iteration host raw w) as [w1 [[]|e]] eqn:Ei; [| discriminate].
    apply iteration_normal in Ei. destruct Ei as [w2 [P ->]].
    apply patterns_counters in P. destruct P as [P [C [I V]]].
    simpl in P, C, I, V.
    destruct (IH _ Frest E) as [P' [C' [I' V']]].
    simpl in P', C', I', V'. simpl fold_left.
    rewrite <- P, <- C, <- I, <- V. now repeat split.
Qed.

(** A fold whose step at [raw] forgets the accumulator and whose later
    steps keep it ends with the value set at [raw]. *)
Lemma fold_overwritten {A : Type} (step : Z -> A -> Z)
      (before after : list A) (raw : A) (n init : Z) :
  (forall m, step m raw = n) ->
  Forall (fun r => forall m, step m r = m) after ->
  fold_left step (before ++ raw :: after) init = n.
Proof.
  intros E F. rewrite fold_left_app. simpl. rewrite E.
  clear E. induction F as [| r rest Hr _ IH]; [reflexivity |].
  simpl. now rewrite Hr.
Qed.

(** A loop over lines that announce the fetching of comments and carry no
    comment total. *)
Lemma pump_fetching (lines : list bytes) (w w' : world) :
  Forall (fun raw => raw <> [] /\
                     fetching_trigger (decode host raw) = true /\
                     comments_total host (decode host raw) = None) lines ->
  pump host lines w = (w', Normal tt) ->
  comments_count w' = comments_count w + Z.of_nat (length lines).
Proof.
  revert w. induction lines as [| raw rest IH]; intros w F E.
  - injection E as <-. simpl. lia.
  - inversion F as [| ? ? [N [T C]] Frest]; subst.
    rewrite pump_cons in E by exact N. unfold bind in E.
    destruct (iteration host raw w) as [w1 [[]|e]] eqn:Ei; [| discriminate].
    apply iteration_normal in Ei. destruct Ei as [w2 [P ->]].
    apply patterns_counters in P. destruct P as [_ [P _]].
    rewrite T, C in P. simpl in P.
    rewrite (IH _ Frest E). simpl comments_count. rewrite P.
    change (length (raw :: rest)) with (S (length rest)). lia.
Qed.

(** The calls of the block: publications, then the report of the end. *)
Lemma run_shape (c : spawn) :
  exists pubs,
    Forall (fun e => is_snapshot e = true) pubs /\
    (ui (run host c) = pubs ++ [StatusSuccess; Balloons] \/
     (exists rc t, ui (run host c) = pubs ++ [StatusError rc; StCode t]) \/
     (exists e, ui (run host c) = pubs ++ [StError e; StTraceback])).
Proof.
  destruct c as [| p].
  - exists []. split; [constructor |]. right. right. now exists OSError.
  - destruct (pump host (fst (read_lines p)) start) as [w1 r] eqn:E.
    assert (Q := pump_quiet host (fst (read_lines p)) start).
    rewrite E in Q. destruct Q as [evs [U S]]. simpl in U.
    rewrite (run_spawned host p w1 r E).
    destruct r as [[] | e].
    + destruct (snd (read_lines p)) as [[] | e].
      * rewrite finish_eq. simpl. rewrite U.
        exists (evs ++ [ProgressFull]). split.
        { apply Forall_app. split; [exact S | repeat constructor]. }
        destruct (returncode p =? 0).
        -- left. now rewrite <- app_assoc.
        -- right. left. eexists. eexists. now rewrite <- app_assoc.
      * exists evs. split; [exact S |]. right. right. exists e.
        simpl. now rewrite U.
    + exists evs. split; [exact S |]. right. right. exists e.
      simpl. now rewrite U.
Qed.

End Runs.

(** * The claims *)

Lemma bind_unfold {A B : Type} (m : M A) (k : A -> M B) (w : world) :
  bind m k w =
  match m w with
  | (w', Normal a) => k a w'
  | (w', Raised e) => (w', Raised e)
  end.
Proof. reflexivity. Qed.

Lemma iteration_counters (host : Host) (raw : bytes) (w : world) :
  let w1 := fst (patterns host (decode host raw) (appended (decode host raw) w)) in
  let w' := fst (iteration host raw w) in
  posts_count w' = posts_count w1 /\ comments_count w' = comments_count w1 /\
  images_count w' = images_count w1 /\ videos_count w' = videos_count w1.
Proof.
  intros w1 w'. subst w1 w'. rewrite iteration_eq, bind_unfold.
  destruct (patterns host _ _) as [w1 [[]|e]]; simpl;
    [| repeat split; reflexivity].
  rewrite status_display_eq.
  destruct (float_accepts host (posts_count w1));
    [| destruct (elapsed_positive host _)]; repeat split; reflexivity.
Qed.

(** C1 (as amended).  The seven tests are not alternatives: every line is
    put to each of them in the fixed order, and each test that finds its
    number applies it.  After an iteration that reached its end,
    [posts_count] is the number of a Progress match (else its old value)
    plus the number of a Saved match, [comments_count] is the number of a
    Comments match (else its old value) plus one if the line announces the
    fetching of comments, and [images_count] and [videos_count] are the
    numbers of an Images and a Videos match (else their old values): no
    test is skipped because an earlier one matched. *)
Theorem C1_every_matching_test_applies
        (host : Host) (raw : bytes) (w w' : world) :
  iteration host raw w = (w', Normal tt) ->
  posts_count w' =
    default (posts_count w) (progress_done host (decode host raw))
    + default 0 (saved_delta host (decode host raw)) /\
  comments_count w' =
    default (comments_count w) (comments_total host (decode host raw))
    + (if fetching_trigger (decode host raw) then 1 else 0) /\
  images_count w' =
    default (images_count w) (images_total host (decode host raw)) /\
  videos_count w' =
    default (videos_count w) (videos_total host (decode host raw)).
Proof.
  intros E. apply iteration_normal in E. destruct E as [w1 [P ->]].
  apply patterns_counters in P. exact P.
Qed.

Lemma C1_witness :
  let raw := bline "Progress: 5/100 Images: 3" in
  let w' := fst (iteration plain_host raw start) in
  iteration plain_host raw start = (w', Normal tt) /\
  posts_count w' = 5 /\ images_count w' = 3.
Proof.
  intros raw w'.
  assert (E : iteration plain_host raw start = (w', Normal tt))
    by (vm_compute; reflexivity).
  split; [exact E |].
  destruct (C1_every_matching_test_applies plain_host raw start w' E)
    as [P [_ [I _]]].
  split; [rewrite P | rewrite I]; vm_compute; reflexivity.
Defined.

(** The line ["Progress: 5/100 Images: 3"] carries the triggers of the first
    and of the fifth test; both counters change, not only the one of the
    earlier test. *)
Lemma C1_counterexample :
  let line := decode plain_host (bline "Progress: 5/100 Images: 3") in
  let w := run plain_host (child [bline "Progress: 5/100 Images: 3"] 0) in
  progress_done plain_host line = Some 5 /\
  images_total plain_host line = Some 3 /\
  posts_count w = 5 /\
  images_count w = 3 /\
  images_count w <> images_count start.
Proof.
  intros line w.
  assert (I : images_count w = 3) by (vm_compute; reflexivity).
  repeat split; try (vm_compute; reflexivity).
  rewrite I. discriminate.
Qed.

(** C2 (as amended).  The source keeps no record of an absolute comment
    total having been seen: a line that announces the fetching of comments
    adds one to [comments_count] every time, on top of what a Comments match
    on the same line assigned.  A line with the total [n] followed by [k]
    lines that only announce fetching leaves [n + k] when the loop reaches
    its end. *)
Theorem C2_fetching_line_always_adds_one (host : Host) :
  (forall (raw : bytes) (w : world),
      fetching_trigger (decode host raw) = true ->
      comments_count (fst (iteration host raw w)) =
      default (comments_count w) (comments_total host (decode host raw)) + 1) /\
  (forall (n : Z) (first : bytes) (lines : list bytes) (w w' : world),
      first <> [] ->
      comments_total host (decode host first) = Some n ->
      fetching_trigger (decode host first) = false ->
      Forall (fun raw => raw <> [] /\
                         fetching_trigger (decode host raw) = true /\
                         comments_total host (decode host raw) = None) lines ->
      pump host (first :: lines) w = (w', Normal tt) ->
      comments_count w' = n + Z.of_nat (length lines)).
Proof.
  split.
  - intros raw w T.
    destruct (iteration_counters host raw w) as [_ [-> _]].
    destruct (patterns_posts_comments host (decode host raw)
                (appended (decode host raw) w)) as [_ ->].
    now rewrite T.
  - intros n first lines w w' N C T F E.
    rewrite pump_cons in E by exact N. unfold bind in E.
    destruct (iteration host first w) as [w1 [[]|e]] eqn:Ei; [| discriminate].
    rewrite (pump_fetching host lines w1 w' F E). f_equal.
    apply iteration_normal in Ei. destruct Ei as [w2 [P ->]].
    apply patterns_counters in P. destruct P as [_ [P _]].
    rewrite C, T in P. simpl in *. lia.
Qed.

Lemma C2_witness :
  let first := bline "Comments: 5" in
  let lines := [bline "Fetching comments for: abc";
                bline "Fetching comments for: def"] in
  let w' := fst (pump plain_host (first :: lines) start) in
  pump plain_host (first :: lines) start = (w', Normal tt) /\
  comments_count w' = 5 + 2.
Proof.
  intros first lines w'.
  assert (E : pump plain_host (first :: lines) start = (w', Normal tt))
    by (vm_compute; reflexivity).
  split; [exact E |].
  apply (proj2 (C2_fetching_line_always_adds_one plain_host)
           5 first lines start w').
  - discriminate.
  - vm_compute; reflexivity.
  - vm_compute; reflexivity.
  - repeat constructor; try discriminate; vm_compute; reflexivity.
  - exact E.
Defined.

(** After the absolute total 5 a line that announces fetching still counts:
    the final value is 6, not 5. *)
Lemma C2_counterexample :
  let l1 := bline "Comments: 5" in
  let l2 := bline "Fetching comments for: abc" in
  let w := run plain_host (child [l1; l2] 0) in
  comments_total plain_host (decode plain_host l1) = Some 5 /\
  fetching_trigger (decode plain_host l2) = true /\
  comments_total plain_host (decode plain_host l2) = None /\
  comments_count w = 6 /\
  comments_count w <> 5.
Proof.
  intros l1 l2 w.
  assert (C : comments_count w = 6) by (vm_compute; reflexivity).
  repeat split; try (vm_compute; reflexivity).
  rewrite C. discriminate.
Qed.

(** C4 (as amended).  A stream made of N lines, each ended by a line feed,
    is read back as exactly those N lines in arrival order however the
    child's writes cut it, and each line keeps its line feed: the text
    appended to [output_lines] is the decoded line with its terminator.
    Two sequences of writes with the same bytes are read alike, and the
    whole block behaves alike on them. *)
Theorem C4_lines_read_back_with_terminator
        (host : Host) (chunks : list bytes) (ls : list bytes) (rc : Z) :
  Forall (fun l => ~ In newline l) ls ->
  concat chunks = concat (map terminated ls) ->
  let p := {| writes := chunks; stream_end := EndOfFile; returncode := rc |} in
  read_lines p = (map terminated ls, Normal tt) /\
  (forall w', pump host (fst (read_lines p)) start = (w', Normal tt) ->
              output_lines w' = map (fun l => decode host (terminated l)) ls) /\
  (forall chunks',
      concat chunks' = concat chunks ->
      let p' := {| writes := chunks'; stream_end := EndOfFile;
                   returncode := rc |} in
      read_lines p' = read_lines p /\
      run host (Spawned p') = run host (Spawned p)).
Proof.
  intros F C p.
  assert (R : read_lines p = (map terminated ls, Normal tt)).
  { unfold read_lines, stream, p. cbn [writes stream_end]. rewrite C.
    apply (iter_readline_terminated ls _ EndOfFile F). lia. }
  split; [exact R |]. split.
  - intros w' E. rewrite R in E. simpl in E.
    apply pump_lines in E.
    + rewrite E. simpl. now rewrite map_map.
    + clear. induction ls; constructor; [| assumption].
      unfold terminated. now destruct a.
  - intros chunks' C' p'.
    assert (R' : read_lines p' = read_lines p).
    { unfold read_lines, stream, p, p'. cbn [writes stream_end].
      now rewrite C'. }
    split; [exact R' |].
    unfold run, supervise. now rewrite R'.
Qed.

Lemma C4_witness :
  let chunks := [blit "ab"; blit "c"; [newline]; blit "d"; [newline]] in
  let p := {| writes := chunks; stream_end := EndOfFile; returncode := 0 |} in
  read_lines p = ([bline "abc"; bline "d"], Normal tt).
Proof.
  intros chunks p.
  refine (proj1 (C4_lines_read_back_with_terminator plain_host chunks
                   [blit "abc"; blit "d"] 0 _ _)).
  - repeat constructor; vm_compute; intuition discriminate.
  - reflexivity.
Defined.

(** The stream ["a\n"], written in two chunks, is read as the one line
    ["a\n"]; the line feed is not stripped. *)
Lemma C4_counterexample :
  let p := {| writes := [blit "a"; [newline]]; stream_end := EndOfFile;
              returncode := 0 |} in
  fst (read_lines p) = [terminated (blit "a")] /\
  output_lines (run plain_host (Spawned p)) = [lit "a" ++ [10%N]] /\
  output_lines (run plain_host (Spawned p)) <> [lit "a"].
Proof.
  intros p.
  assert (O : output_lines (run plain_host (Spawned p)) = [lit "a" ++ [10%N]])
    by (vm_compute; reflexivity).
  repeat split; try (vm_compute; reflexivity).
  rewrite O. discriminate.
Qed.

Section Endings.

Variable host : Host.

Lemma patterns_nothing_parsed (line : text) (w : world) :
  nothing_parsed host line -> patterns host line w = (w, Normal tt).
Proof.
  intros [P [S [C [F [I [V B]]]]]]. unfold patterns.
  rewrite bind_unfold, progress_block_eq, P; cbv beta iota.
  rewrite bind_unfold, saved_block_eq, S; cbv beta iota.
  rewrite bind_unfold, comments_block_eq, C; cbv beta iota.
  rewrite bind_unfold, fetching_block_eq, F; cbv beta iota.
  rewrite bind_unfold, images_block_eq, I; cbv beta iota.
  rewrite bind_unfold, videos_block_eq, V; cbv beta iota.
  now rewrite found_block_eq, B.
Qed.

Lemma unmatched_nothing_parsed (line : text) :
  unmatched host line = true -> nothing_parsed host line.
Proof.
  unfold unmatched. rewrite !andb_true_iff, negb_true_iff.
  intros [[[[[[P S] C] F] I] V] B].
  unfold nothing_parsed, progress_done, saved_delta, comments_total,
    images_total, videos_total, found_batch.
  now rewrite !(no_match_payload host _ _ _ 1) by assumption.
Qed.

Lemma read_lines_nonempty (p : process) :
  Forall (fun raw => raw <> []) (fst (read_lines p)).
Proof. apply iter_readline_nonempty. Qed.

Lemma read_lines_end (p : process) :
  snd (read_lines p) =
  match stream_end p with
  | EndOfFile => Normal tt
  | ReadFails => Raised OSError
  end.
Proof. apply iter_readline_complete. lia. Qed.

(** The outcome read off a trace that ends the publications of a loop. *)
Lemma outcomes_after_loop (w1 : world) (final : list ui_event) :
  quiet start w1 ->
  outcomes_of (emits final w1) = job_outcomes (displayed_output (ui w1)) final.
Proof.
  intros [evs [U S]]. simpl in U. unfold outcomes_of. simpl. rewrite U.
  now rewrite job_outcomes_snapshots.
Qed.

(** The loop reached the end of the stream: the block reports the exit
    status. *)
Lemma run_finished (p : process) (w1 : world) :
  snd (read_lines p) = Normal tt ->
  pump host (fst (read_lines p)) start = (w1, Normal tt) ->
  let w := run host (Spawned p) in
  let lines := map (decode host) (fst (read_lines p)) in
  output_lines w = lines /\
  posts_count w = posts_count w1 /\
  comments_count w = comments_count w1 /\
  images_count w = images_count w1 /\
  videos_count w = videos_count w1 /\
  if returncode p =? 0 then
    ui w = ui w1 ++ [ProgressFull; StatusSuccess; Balloons] /\
    outcomes_of w =
    [{| status := Succeeded; exit_code := Some 0;
        tail_output := join (py_last 15 lines) |}]
  else
    ui w = ui w1 ++ [ProgressFull; StatusError (returncode p);
                     StCode (join (py_last 30 lines))] /\
    outcomes_of w =
    [{| status := Failed; exit_code := Some (returncode p);
        tail_output := join (py_last 30 lines) |}].
Proof.
  intros S E w lines. subst w.
  rewrite (run_spawned host p w1 _ E), S, finish_eq.
  assert (L : output_lines w1 = lines)
    by (apply (pump_lines host _ _ _ (read_lines_nonempty p) E)).
  assert (Q : quiet start w1)
    by (generalize (pump_quiet host (fst (read_lines p)) start);
        now rewrite E).
  assert (D : displayed_output (ui w1) = join (py_last 15 lines))
    by (rewrite <- L; apply (pump_shown host _ _ _ shown_start E)).
  cbn [fst]. rewrite (outcomes_after_loop _ _ Q), D.
  split; [exact L |]. do 4 (split; [reflexivity |]).
  rewrite L. destruct (returncode p =? 0); split; reflexivity.
Qed.

(** The read after the last delivered byte failed. *)
Lemma run_stream_failed (p : process) (w1 : world) :
  stream_end p = ReadFails ->
  pump host (fst (read_lines p)) start = (w1, Normal tt) ->
  let w := run host (Spawned p) in
  snd (read_lines p) = Raised OSError /\
  ui w = ui w1 ++ [StError OSError; StTraceback] /\
  output_lines w = map (decode host) (fst (read_lines p)) /\
  outcomes_of w =
  [{| status := Failed; exit_code := None;
      tail_output := join (py_last 15 (output_lines w)) |}].
Proof.
  intros S E w. subst w.
  assert (R : snd (read_lines p) = Raised OSError)
    by (now rewrite read_lines_end, S).
  rewrite (run_spawned host p w1 _ E), R.
  assert (L := pump_lines host _ _ _ (read_lines_nonempty p) E).
  assert (Q : quiet start w1)
    by (generalize (pump_quiet host (fst (read_lines p)) start);
        now rewrite E).
  assert (D := pump_shown host _ _ _ shown_start E). unfold shown in D.
  rewrite (outcomes_after_loop _ _ Q), D.
  repeat split; exact L.
Qed.

End Endings.

(** C3.  When the stream has been read to its end the block waits for the
    exit status and reports by it.  Status 0: [status_container.success],
    with the output container showing the last 15 lines.  Any other
    status: [status_container.error] with that status and an [st.code] of
    the last 30 lines, in arrival order.  For the lines
    ["Progress: 5/100 posts"] and ["Progress: 10/100 posts"] and status 0:
    [posts_count] is 10, success, a tail of 2 lines.  For any 40 lines on
    which no test finds anything and status 2: failure with exit code 2,
    the tail being lines 11 to 40. *)
Theorem C3_exit_status_decides_outcome (host : Host) :
  (forall (p : process) (w1 : world),
      snd (read_lines p) = Normal tt ->
      pump host (fst (read_lines p)) start = (w1, Normal tt) ->
      let w := run host (Spawned p) in
      let lines := map (decode host) (fst (read_lines p)) in
      output_lines w = lines /\
      if returncode p =? 0 then
        ui w = ui w1 ++ [ProgressFull; StatusSuccess; Balloons] /\
        outcomes_of w =
        [{| status := Succeeded; exit_code := Some 0;
            tail_output := join (py_last 15 lines) |}]
      else
        ui w = ui w1 ++ [ProgressFull; StatusError (returncode p);
                         StCode (join (py_last 30 lines))] /\
        outcomes_of w =
        [{| status := Failed; exit_code := Some (returncode p);
            tail_output := join (py_last 30 lines) |}]) /\
  (let w := run host (child [bline "Progress: 5/100 posts";
                             bline "Progress: 10/100 posts"] 0) in
   posts_count w = 10 /\
   length (py_last 15 (output_lines w)) = 2%nat /\
   outcomes_of w =
   [{| status := Succeeded; exit_code := Some 0;
       tail_output := join (py_last 15 (output_lines w)) |}]) /\
  (forall ls : list bytes,
      length ls = 40%nat ->
      Forall (fun l => ~ In newline l /\
                       unmatched host (decode host (terminated l)) = true) ls ->
      let w := run host (child (map terminated ls) 2) in
      outcomes_of w =
      [{| status := Failed; exit_code := Some 2;
          tail_output :=
            join (map (decode host) (skipn 10 (map terminated ls))) |}]).
Proof.
  split; [| split].
  - intros p w1 S E.
    destruct (run_finished host p w1 S E) as [L [_ [_ [_ [_ R]]]]].
    split; [exact L | exact R].
  - vm_compute. repeat split; reflexivity.
  - intros ls Len F. unfold child.
    set (p := {| writes := map terminated ls; stream_end := EndOfFile;
                 returncode := 2 |}).
    assert (R : read_lines p = (map terminated ls, Normal tt)).
    { unfold read_lines, stream, p. cbn [writes stream_end].
      apply (iter_readline_terminated ls _ EndOfFile); [| lia].
      eapply Forall_impl; [| exact F]. now intros l [N _]. }
    destruct (pump_unmatched host (map terminated ls) start) as [w1 [E _]].
    + apply Forall_map. eapply Forall_impl; [| exact F].
      intros l [_ U]. split; [unfold terminated; now destruct l | exact U].
    + apply float_accepts_zero.
    + destruct (run_finished host p w1) as [_ [_ [_ [_ [_ [_ O]]]]]];
        [now rewrite R | now rewrite R |].
      cbn [returncode p] in O. simpl (2 =? 0) in O. cbv iota in O.
      rewrite O, R. cbn [fst]. unfold py_last.
      rewrite !length_map, Len. simpl (40 - 30)%nat.
      now rewrite skipn_map.
Qed.

Lemma C3_witness :
  let p := {| writes := [bline "Saved 3 new posts"; bline "done"];
              stream_end := EndOfFile; returncode := 1 |} in
  outcomes_of (run plain_host (Spawned p)) =
  [{| status := Failed; exit_code := Some 1;
      tail_output :=
        join (py_last 30 (map (decode plain_host) (fst (read_lines p)))) |}].
Proof.
  intros p.
  refine (proj2 (proj2 (proj1 (C3_exit_status_decides_outcome plain_host) p
                   (fst (pump plain_host (fst (read_lines p)) start)) _ _))).
  - vm_compute; reflexivity.
  - vm_compute; reflexivity.
Defined.

(** C5.  Whatever the child does, the block reports the end of the job
    exactly once (by [status_container.success], [status_container.error]
    or [st.error]); every call before the report is not a report, and no
    call after it publishes counters, progress, status or output. *)
Theorem C5_exactly_one_outcome (host : Host) (c : spawn) :
  length (outcomes_of (run host c)) = 1%nat /\
  exists before o after,
    ui (run host c) = before ++ o :: after /\
    is_outcome o = true /\
    Forall (fun e => is_outcome e = false) before /\
    Forall (fun e => is_outcome e = false /\ is_snapshot e = false) after.
Proof.
  destruct (run_shape host c) as [pubs [S T]].
  assert (B : Forall (fun e => is_outcome e = false) pubs)
    by (eapply Forall_impl; [apply snapshot_not_outcome | exact S]).
  unfold outcomes_of.
  destruct T as [-> | [[rc [t ->]] | [e ->]]];
    (split;
     [ now rewrite job_outcomes_snapshots
     | eexists pubs, _, [_]; repeat split; [exact B | repeat constructor] ]).
Qed.





(** C8.  When the child cannot be created the block reports the error at
    once: the only calls are [st.error] and the traceback, no line was
    read and the output container shows nothing.  When a read of the
    stream fails, the loop ends there, the exit status is not examined,
    and the error is reported while the output container shows the last
    (up to 15) of the lines read before the failure. *)
Theorem C8_spawn_and_stream_failure (host : Host) :
  (let w := run host SpawnFails in
   ui w = [StError OSError; StTraceback] /\
   output_lines w = [] /\
   outcomes_of w =
   [{| status := Failed; exit_code := None; tail_output := [] |}]) /\
  (forall (p : process) (w1 : world),
      stream_end p = ReadFails ->
      pump host (fst (read_lines p)) start = (w1, Normal tt) ->
      let w := run host (Spawned p) in
      snd (read_lines p) = Raised OSError /\
      ui w = ui w1 ++ [StError OSError; StTraceback] /\
      output_lines w = map (decode host) (fst (read_lines p)) /\
      outcomes_of w =
      [{| status := Failed; exit_code := None;
          tail_output := join (py_last 15 (output_lines w)) |}]).
Proof.
  split.
  - repeat split; reflexivity.
  - intros p w1 S E. exact (run_stream_failed host p w1 S E).
Qed.

Lemma C8_witness :
  let p := {| writes := [bline "Saved 2 new posts"; blit "Sav"];
              stream_end := ReadFails; returncode := 0 |} in
  let w := run plain_host (Spawned p) in
  outcomes_of w =
  [{| status := Failed; exit_code := None;
      tail_output := join (py_last 15 (output_lines w)) |}] /\
  output_lines w = [decode plain_host (bline "Saved 2 new posts")].
Proof.
  intros p w.
  destruct (proj2 (C8_spawn_and_stream_failure plain_host) p
              (fst (pump plain_host (fst (read_lines p)) start)))
    as [_ [_ [L O]]].
  - reflexivity.
  - vm_compute; reflexivity.
  - split; [exact O | vm_compute; reflexivity].
Defined.

(** C9.  The four counters are natural numbers throughout: when the block
    is left, and after the loop has handled any lines from the initial
    state, whether it reached its end or was interrupted, every counter is
    at least 0, and so is every number that was published to a widget.
    Every number a test obtains from a line is at least 0. *)
Theorem C9_counters_never_negative (host : Host) :
  (forall c : spawn,
      counters_nonneg (run host c) /\ Forall event_nonneg (ui (run host c))) /\
  (forall lines : list bytes,
      counters_nonneg (fst (pump host lines start)) /\
      Forall event_nonneg (ui (fst (pump host lines start)))) /\
  (forall (i : nat) (p : regex) (line : text) (n : Z),
      payload host i p line = Some n -> 0 <= n).
Proof.
  assert (P : forall lines, good (fst (pump host lines start)))
    by (intros lines; apply pump_good, good_start).
  split; [| split; [exact P | apply payload_nonneg]].
  intros [| p].
  - split; [unfold counters_nonneg; simpl; lia | repeat constructor].
  - specialize (P (fst (read_lines p))).
    destruct (pump host (fst (read_lines p)) start) as [w1 r] eqn:E.
    rewrite (run_spawned host p w1 r E). simpl in P.
    assert (G : forall evs, Forall event_nonneg evs -> good (emits evs w1))
      by (intros evs F; now apply good_emits).
    destruct r as [[] | e]; [destruct (snd (read_lines p)) as [[] | e] |];
      rewrite ?finish_eq; cbn [fst]; apply G;
      try destruct (returncode p =? 0); repeat constructor.
Qed.

Lemma C9_witness :
  payload plain_host 1 re_images (lit "Images: 42") = Some 42 /\
  0 <= 42.
Proof.
  assert (E : payload plain_host 1 re_images (lit "Images: 42")
              = Some 42) by (vm_compute; reflexivity).
  split; [exact E |].
  exact (proj2 (proj2 (C9_counters_never_negative plain_host)) _ _ _ _ E).
Defined.



(** * Further properties of the supervision block *)

(** ** Reading: nothing but an unterminated rest is lost *)

Lemma readline_line_body (s l rest : bytes) :
  readline s = Line l rest ->
  exists body, l = terminated body /\ ~ In newline body /\ s = l ++ rest.
Proof.
  revert l rest. induction s as [| b s IH]; intros l rest; simpl;
    [discriminate |].
  destruct (Byte.eqb b newline) eqn:E.
  - intros [= <- <-]. apply Byte.byte_dec_bl in E. subst b.
    exists []. repeat split. intros [].
  - destruct (readline s) as [l' rest' |]; [| discriminate].
    intros [= <- <-]. destruct (IH l' rest' eq_refl) as [body [-> [N ->]]].
    exists (b :: body). repeat split.
    intros [-> | I]; [| now apply N].
    discriminate E.
Qed.

Lemma readline_at_end_body (s partial : bytes) :
  readline s = AtEnd partial -> s = partial /\ ~ In newline partial.
Proof.
  revert partial. induction s as [| b s IH]; intros partial; simpl.
  - intros [= <-]. split; [reflexivity | intros []].
  - destruct (Byte.eqb b newline) eqn:E; [discriminate |].
    destruct (readline s) as [| p]; [discriminate |].
    intros [= <-]. destruct (IH p eq_refl) as [-> N].
    split; [reflexivity |]. intros [-> | I]; [| now apply N].
    discriminate E.
Qed.

Lemma iter_readline_partition (fuel : nat) (s : bytes) (e : ending) :
  (length s < fuel)%nat ->
  exists (bodies : list bytes) (rest : bytes),
    Forall (fun b => ~ In newline b) bodies /\
    ~ In newline rest /\
    s = concat (map terminated bodies) ++ rest /\
    iter_readline fuel s e =
    match e with
    | EndOfFile =>
        (map terminated bodies ++ match rest with [] => [] | _ :: _ => [rest] end,
         Normal tt)
    | ReadFails => (map terminated bodies, Raised OSError)
    end.
Proof.
  revert s. induction fuel as [| fuel IH]; intros s L; [lia |]. simpl.
  destruct (readline s) as [l rest | partial] eqn:R.
  - destruct (readline_line_body _ _ _ R) as [body [-> [N ->]]].
    assert (L' : (length rest < fuel)%nat).
    { rewrite length_app in L. unfold terminated in L.
      rewrite length_app in L. simpl in L. lia. }
    destruct (IH rest L') as [bodies [tail [F [T [-> E]]]]].
    exists (body :: bodies), tail. rewrite E.
    repeat split; [now constructor | exact T | simpl; now rewrite app_assoc |].
    now destruct e.
  - destruct (readline_at_end_body _ _ R) as [-> N].
    exists [], partial. repeat split; [constructor | exact N |].
    destruct e; [now destruct partial | reflexivity].
Qed.

(** X1.  The lines the iterator yields are the terminated lines of the
    stream, in order, each with its line feed as its last and only one;
    at end of file the unterminated bytes after the last line feed follow
    as one more line if there are any, and when the read fails exactly
    those bytes are lost.  Joined, the lines give the stream back. *)
Theorem read_lines_partition (p : process) :
  exists (bodies : list bytes) (rest : bytes),
    Forall (fun b => ~ In newline b) bodies /\
    ~ In newline rest /\
    stream p = concat (map terminated bodies) ++ rest /\
    read_lines p =
    match stream_end p with
    | EndOfFile =>
        (map terminated bodies ++ match rest with [] => [] | _ :: _ => [rest] end,
         Normal tt)
    | ReadFails => (map terminated bodies, Raised OSError)
    end /\
    (stream_end p = EndOfFile -> concat (fst (read_lines p)) = stream p).
Proof.
  destruct (iter_readline_partition (S (length (stream p))) (stream p)
              (stream_end p)) as [bodies [rest [F [N [S R]]]]]; [lia |].
  exists bodies, rest. repeat split; try assumption.
  intros E. unfold read_lines. apply iter_readline_complete; [lia | exact E].
Qed.

Lemma read_lines_partition_witness :
  let p := {| writes := [blit "ab"; [newline]; blit "cd"];
              stream_end := EndOfFile; returncode := 0 |} in
  concat (fst (read_lines p)) = stream p.
Proof.
  intros p.
  destruct (read_lines_partition p) as [bodies [rest [_ [_ [_ [_ C]]]]]].
  apply C. reflexivity.
Defined.

(** ** How the block can end *)

Section Ends.

Variable host : Host.

Lemma iteration_result (raw : bytes) (w : world) :
  snd (iteration host raw w) = Normal tt \/
  snd (iteration host raw w) = Raised ValueError \/
  snd (iteration host raw w) = Raised OverflowError.
Proof.
  rewrite iteration_eq, bind_unfold.
  destruct (patterns_result host (decode host raw)
              (appended (decode host raw) w)) as [P | P];
    destruct (patterns host _ _) as [w1 r]; simpl in P; subst r;
    [| now right; left].
  rewrite status_display_eq.
  destruct (float_accepts host (posts_count w1));
    [| destruct (elapsed_positive host _)]; simpl; auto.
Qed.

Lemma pump_result (lines : list bytes) (w : world) :
  snd (pump host lines w) = Normal tt \/
  snd (pump host lines w) = Raised ValueError \/
  snd (pump host lines w) = Raised OverflowError.
Proof.
  revert w. induction lines as [| raw rest IH]; intros w; [now left |].
  destruct raw as [| b raw]; [now left |].
  rewrite pump_cons by discriminate. rewrite bind_unfold.
  destruct (iteration_result (b :: raw) w) as [R | R];
    destruct (iteration host (b :: raw) w) as [w1 r]; simpl in R.
  - subst r. apply IH.
  - destruct R as [-> | ->]; simpl; auto.
Qed.

Lemma not_in_snapshots (e : ui_event) (evs : list ui_event) :
  is_snapshot e = false ->
  Forall (fun x => is_snapshot x = true) evs ->
  ~ In e evs.
Proof.
  intros N F I. rewrite Forall_forall in F. specialize (F e I). congruence.
Qed.

End Ends.

Section Reports.

Variable host : Host.

(** The trace of a run on a child that was created: the publications of
    the loop, then what the end of the loop commands. *)
Lemma run_trace (p : process) (w1 : world) (r : result unit) :
  pump host (fst (read_lines p)) start = (w1, r) ->
  Forall (fun e => is_snapshot e = true) (ui w1) /\
  ui (run host (Spawned p)) =
  ui w1 ++
  match r, stream_end p with
  | Raised e, _ => [StError e; StTraceback]
  | Normal _, ReadFails => [StError OSError; StTraceback]
  | Normal _, EndOfFile =>
      ProgressFull ::
      if returncode p =? 0 then [StatusSuccess; Balloons]
      else [StatusError (returncode p);
            StCode (join (py_last 30 (output_lines w1)))]
  end.
Proof.
  intros E. split.
  - generalize (pump_quiet host (fst (read_lines p)) start).
    rewrite E. intros [evs [U S]]. simpl in U. now rewrite U.
  - rewrite (run_spawned host p w1 r E), read_lines_end.
    destruct r as [[] | e]; [| reflexivity].
    destruct (stream_end p); [| reflexivity].
    now rewrite finish_eq.
Qed.

End Reports.



(** ** What the loop publishes *)

Lemma extends_with_refl (P : ui_event -> Prop) (w : world) : extends_with P w w.
Proof. exists []. split; [now rewrite app_nil_r | constructor]. Qed.

Lemma extends_with_trans (P : ui_event -> Prop) (a b c : world) :
  extends_with P a b -> extends_with P b c -> extends_with P a c.
Proof.
  intros [e1 [E1 F1]] [e2 [E2 F2]]. exists (e1 ++ e2). split.
  - now rewrite E2, E1, app_assoc.
  - apply Forall_app. now split.
Qed.

Lemma extends_with_emits (P : ui_event -> Prop) (evs : list ui_event)
      (w' w : world) :
  ui w' = ui w -> Forall P evs -> extends_with P w (emits evs w').
Proof. intros U F. exists evs. simpl. now rewrite U. Qed.

Lemma extends_with_weaken (P Q : ui_event -> Prop) (w w' : world) :
  (forall e, P e -> Q e) -> extends_with P w w' -> extends_with Q w w'.
Proof.
  intros I [evs [U F]]. exists evs. split; [exact U |].
  eapply Forall_impl; [exact I | exact F].
Qed.

Lemma extends_with_bind (P : ui_event -> Prop) (m k : M unit) (w : world) :
  extends_with P w (fst (m w)) ->
  (forall w1, extends_with P w1 (fst (k w1))) ->
  extends_with P w (fst ((m ;; k) w)).
Proof.
  intros Hm Hk. rewrite bind_unfold. specialize (Hk (fst (m w))).
  destruct (m w) as [w1 [[]|e]]; simpl in *;
    [eapply extends_with_trans; eassumption | exact Hm].
Qed.

Section Published.

Variable host : Host.

Lemma count_published_pattern (m : widget) (n : Z) :
  Forall pattern_event (count_published host m n).
Proof.
  unfold count_published. destruct (str_accepts host n); repeat constructor.
Qed.

Lemma progress_published_pattern (n total : Z) :
  0 <= n -> 0 <= total -> Forall pattern_event (progress_published host n total).
Proof.
  intros Hn Ht. unfold progress_published.
  destruct (total =? 0) eqn:E; [constructor |].
  apply Z.eqb_neq in E.
  destruct (div_accepts host n total); [| constructor].
  constructor; [simpl; lia |].
  destruct (str_accepts host n && str_accepts host total); repeat constructor.
Qed.

Lemma progress_block_pattern line w :
  extends_with pattern_event w (fst (progress_block host line w)).
Proof.
  rewrite progress_block_eq. cbn [fst].
  destruct (progress_done host line) as [n|] eqn:D;
    [| apply extends_with_refl].
  apply extends_with_emits; [reflexivity |].
  destruct (progress_total host line) as [t|] eqn:T; [| constructor].
  apply progress_published_pattern;
    [eapply progress_done_nonneg | eapply progress_total_nonneg]; eassumption.
Qed.

Lemma saved_block_pattern line w :
  extends_with pattern_event w (fst (saved_block host line w)).
Proof.
  rewrite saved_block_eq. cbn [fst].
  destruct (saved_delta host line); [| apply extends_with_refl].
  apply extends_with_emits; [reflexivity | apply count_published_pattern].
Qed.

Lemma comments_block_pattern line w :
  extends_with pattern_event w (fst (comments_block host line w)).
Proof.
  rewrite comments_block_eq. cbn [fst].
  destruct (comments_total host line); [| apply extends_with_refl].
  apply extends_with_emits; [reflexivity | apply count_published_pattern].
Qed.

Lemma fetching_block_pattern line w :
  extends_with pattern_event w (fst (fetching_block host line w)).
Proof.
  rewrite fetching_block_eq.
  destruct (fetching_trigger line); [| apply extends_with_refl].
  destruct (str_accepts host (comments_count w + 1)); cbn [fst].
  - apply extends_with_emits; [reflexivity | repeat constructor].
  - exists []. split; [simpl; now rewrite app_nil_r | constructor].
Qed.

Lemma images_block_pattern line w :
  extends_with pattern_event w (fst (images_block host line w)).
Proof.
  rewrite images_block_eq. cbn [fst].
  destruct (images_total host line); [| apply extends_with_refl].
  apply extends_with_emits; [reflexivity | apply count_published_pattern].
Qed.

Lemma videos_block_pattern line w :
  extends_with pattern_event w (fst (videos_block host line w)).
Proof.
  rewrite videos_block_eq. cbn [fst].
  destruct (videos_total host line); [| apply extends_with_refl].
  apply extends_with_emits; [reflexivity | apply count_published_pattern].
Qed.

Lemma found_block_pattern line w :
  extends_with pattern_event w (fst (found_block host line w)).
Proof.
  rewrite found_block_eq. cbn [fst].
  destruct (found_batch host line) as [b|]; [| apply extends_with_refl].
  apply extends_with_emits; [reflexivity |].
  destruct (str_accepts host b); repeat constructor.
Qed.

Lemma patterns_pattern line w :
  extends_with pattern_event w (fst (patterns host line w)).
Proof.
  unfold patterns.
  repeat (apply extends_with_bind; [| intros ?]);
    auto using progress_block_pattern, saved_block_pattern,
      comments_block_pattern, fetching_block_pattern, images_block_pattern,
      videos_block_pattern, found_block_pattern.
Qed.

Lemma pattern_is_loop_event (e : ui_event) : pattern_event e -> loop_event e.
Proof. destruct e as [| | | [] | | | | | | |]; simpl; tauto. Qed.

Lemma iteration_loop_events (raw : bytes) (w : world) :
  extends_with loop_event w (fst (iteration host raw w)).
Proof.
  rewrite iteration_eq, bind_unfold.
  assert (P := patterns_pattern (decode host raw)
                 (appended (decode host raw) w)).
  apply (extends_with_weaken _ loop_event _ _ pattern_is_loop_event) in P.
  destruct (patterns host _ _) as [w1 [[]|e]]; cbn [fst] in *; [| exact P].
  rewrite status_display_eq.
  destruct (float_accepts host (posts_count w1));
    [| destruct (elapsed_positive host _); [exact P |]]; cbn [fst];
    (eapply extends_with_trans;
     [exact P | apply extends_with_emits; [reflexivity | repeat constructor]]).
Qed.

Lemma pump_loop_events (lines : list bytes) (w : world) :
  extends_with loop_event w (fst (pump host lines w)).
Proof.
  revert w. induction lines as [| raw rest IH]; intros w;
    [apply extends_with_refl |].
  destruct raw as [| b raw]; [apply extends_with_refl |].
  rewrite pump_cons by discriminate.
  apply extends_with_bind; [apply iteration_loop_events | exact IH].
Qed.

End Published.

(** X3.  The progress bar is only ever given a ratio that is defined and
    not negative: every call [progress_bar.progress(min(n / total, 1.0))]
    the block makes, on any child, has [0 <= n] and [0 < total], so its
    argument lies between 0 and 1. *)
Theorem progress_ratio_always_defined
        (host : Host) (c : spawn) (n total : Z) :
  In (ProgressRatio n total) (ui (run host c)) -> 0 <= n /\ 0 < total.
Proof.
  destruct c as [| p].
  - rewrite run_spawn_fails. intros [E | [E | []]]; discriminate E.
  - destruct (pump host (fst (read_lines p)) start) as [w1 r] eqn:E.
    destruct (run_trace host p w1 r E) as [_ ->].
    generalize (pump_loop_events host (fst (read_lines p)) start).
    rewrite E. intros [evs [U F]]. simpl in U. rewrite U.
    intros I. apply in_app_or in I. destruct I as [I | I].
    + rewrite Forall_forall in F. exact (F _ I).
    + destruct r as [[] | e];
        [destruct (stream_end p); [destruct (returncode p =? 0) |] |];
        simpl in I; intuition discriminate.
Qed.

Lemma progress_ratio_always_defined_witness :
  In (ProgressRatio 5 10)
     (ui (run plain_host (child [bline "Progress: 5/10"] 0))) /\
  0 <= 5 /\ 0 < 10.
Proof.
  assert (I : In (ProgressRatio 5 10)
                 (ui (run plain_host (child [bline "Progress: 5/10"] 0))))
    by (vm_compute; auto).
  split; [exact I |].
  exact (progress_ratio_always_defined plain_host _ 5 10 I).
Defined.

(** ** The output window and the cadence of publications *)

Lemma py_last_length {A : Type} (n : nat) (l : list A) :
  length (py_last n l) = Nat.min n (length l).
Proof. unfold py_last. rewrite length_skipn. lia. Qed.

Lemma py_last_suffix {A : Type} (n : nat) (l : list A) :
  firstn (length l - n) l ++ py_last n l = l.
Proof. unfold py_last. apply firstn_skipn. Qed.

Lemma py_last_all {A : Type} (n : nat) (l : list A) :
  (length l <= n)%nat -> py_last n l = l.
Proof.
  intros L. unfold py_last. now replace (length l - n)%nat with 0%nat by lia.
Qed.

Lemma output_refreshes_app (a b : list ui_event) :
  output_refreshes (a ++ b) = output_refreshes a ++ output_refreshes b.
Proof. unfold output_refreshes. apply flat_map_app. Qed.

Lemma output_refreshes_patterns (evs : list ui_event) :
  Forall pattern_event evs -> output_refreshes evs = [].
Proof.
  induction 1 as [| e evs He _ IH]; [reflexivity |].
  destruct e; simpl in *; try contradiction; exact IH.
Qed.

Section Window.

Variable host : Host.

(** An iteration that reached its end: the calls of the tests, then the
    running status, then the output. *)
Lemma iteration_cadence (raw : bytes) (w w' : world) :
  iteration host raw w = (w', Normal tt) ->
  exists evs,
    Forall pattern_event evs /\
    output_lines w' = output_lines w ++ [decode host raw] /\
    ui w' = ui w ++ evs ++
            [StatusInfo SRunning;
             OutputCode (join (py_last 15 (output_lines w')))].
Proof.
  intros E. assert (L := iteration_lines host raw w). rewrite E in L.
  cbn [fst] in L.
  apply iteration_normal in E. destruct E as [w1 [P ->]].
  generalize (patterns_pattern host (decode host raw)
                (appended (decode host raw) w)).
  rewrite P. intros [evs [U F]]. cbn [fst] in U.
  exists evs. split; [exact F |]. split; [exact L |].
  simpl in *. now rewrite U, <- app_assoc.
Qed.

Lemma pump_refreshes (lines : list bytes) (w w' : world) :
  Forall (fun raw => raw <> []) lines ->
  pump host lines w = (w', Normal tt) ->
  output_refreshes (ui w') =
  output_refreshes (ui w) ++
  map (fun k => join (py_last 15 (output_lines w
                                  ++ firstn k (map (decode host) lines))))
      (seq 1 (length lines)).
Proof.
  revert w. induction lines as [| raw rest IH]; intros w F E.
  - injection E as <-. simpl. now rewrite app_nil_r.
  - inversion F as [| ? ? N Frest]; subst.
    rewrite pump_cons in E by exact N. rewrite bind_unfold in E.
    destruct (iteration host raw w) as [w1 [[]|e]] eqn:Ei; [| discriminate].
    rewrite (IH w1 Frest E).
    destruct (iteration_cadence raw w w1 Ei) as [evs [P [L U]]].
    rewrite U, !output_refreshes_app, (output_refreshes_patterns evs P), L.
    simpl. rewrite <- app_assoc. simpl. do 2 f_equal.
    rewrite <- (seq_shift (length rest) 1), map_map. apply map_ext.
    intros k. simpl. now rewrite <- app_assoc.
Qed.

End Window.

(** X4.  The output container is refreshed once per line, and the k-th
    refresh shows the last 15 of the first k lines, joined: all of them up
    to the fifteenth line, a window of 15 lines after it.  [output_lines]
    itself is never shortened: when the loop has reached its end it holds
    every line read. *)
Theorem output_window (host : Host) (lines : list bytes) (w' : world) :
  Forall (fun raw => raw <> []) lines ->
  pump host lines start = (w', Normal tt) ->
  output_lines w' = map (decode host) lines /\
  output_refreshes (ui w') =
  map (fun k => join (py_last 15 (firstn k (map (decode host) lines))))
      (seq 1 (length lines)) /\
  (forall k, (k <= 15)%nat ->
             py_last 15 (firstn k (map (decode host) lines))
             = firstn k (map (decode host) lines)) /\
  (forall k, length (py_last 15 (firstn k (map (decode host) lines))) <= 15)%nat.
Proof.
  intros F E. split; [| split; [| split]].
  - now rewrite (pump_lines host lines start w' F E).
  - now rewrite (pump_refreshes host lines start w' F E).
  - intros k K. apply py_last_all. rewrite length_firstn. lia.
  - intros k. rewrite py_last_length. lia.
Qed.

Lemma output_window_witness :
  let lines := [bline "a"; bline "b"] in
  output_refreshes (ui (fst (pump plain_host lines start))) =
  [decode plain_host (bline "a");
   decode plain_host (bline "a") ++ decode plain_host (bline "b")].
Proof.
  intros lines.
  destruct (output_window plain_host lines
              (fst (pump plain_host lines start))) as [_ [R _]].
  - repeat constructor; discriminate.
  - vm_compute; reflexivity.
  - rewrite R. vm_compute. reflexivity.
Defined.

(** X5.  Every iteration that reaches its end closes with the running
    status and then the output, after the calls of the tests, which are
    metrics, progress and the Found status only.  So a status
    "Found ... posts in batch" is always replaced by the running status
    within the iteration that published it; a match of the Found test
    changes neither a counter nor [output_lines]. *)
Theorem found_status_is_replaced (host : Host) :
  (forall (raw : bytes) (w w' : world),
      iteration host raw w = (w', Normal tt) ->
      exists evs,
        Forall pattern_event evs /\
        ui w' = ui w ++ evs ++
                [StatusInfo SRunning;
                 OutputCode (join (py_last 15 (output_lines w')))] /\
        last (status_infos (ui w')) SRunning = SRunning /\
        status_infos (ui w') <> status_infos (ui w)) /\
  (forall (line : text) (w : world),
      let w' := fst (found_block host line w) in
      output_lines w' = output_lines w /\
      posts_count w' = posts_count w /\
      comments_count w' = comments_count w /\
      images_count w' = images_count w /\
      videos_count w' = videos_count w).
Proof.
  split.
  - intros raw w w' E.
    destruct (iteration_cadence host raw w w' E) as [evs [P [_ U]]].
    exists evs. split; [exact P |]. split; [exact U |].
    assert (S : status_infos (ui w')
                = status_infos (ui w ++ evs) ++ [SRunning]).
    { rewrite U. unfold status_infos.
      rewrite app_assoc, flat_map_app. reflexivity. }
    split.
    + rewrite S. apply last_last.
    + rewrite S. unfold status_infos at 1. rewrite flat_map_app.
      fold (status_infos (ui w)). fold (status_infos evs).
      rewrite <- app_assoc. intros C.
      apply (f_equal (@length status_text)) in C.
      rewrite !length_app in C. simpl in C. lia.
  - intros line w. rewrite found_block_eq. cbn [fst].
    destruct (found_batch host line); repeat split; reflexivity.
Qed.

Lemma found_status_is_replaced_witness :
  let raw := bline "Found 25 posts in this batch" in
  status_infos (ui (fst (iteration plain_host raw start)))
  = [SFound 25; SRunning].
Proof.
  intros raw.
  destruct (proj1 (found_status_is_replaced plain_host) raw start
              (fst (iteration plain_host raw start)))
    as [evs [_ [U _]]].
  - vm_compute; reflexivity.
  - vm_compute. reflexivity.
Defined.

(** X6.  Saved lines accumulate.  Over lines from which the Progress test
    obtains no number, a loop that reached its end leaves [posts_count]
    at its initial value plus the sum of the numbers of the Saved matches;
    it never decreases. *)
Theorem saved_deltas_accumulate
        (host : Host) (lines : list bytes) (w w' : world) :
  Forall (fun raw => raw <> []) lines ->
  Forall (fun raw => progress_done host (decode host raw) = None) lines ->
  pump host lines w = (w', Normal tt) ->
  posts_count w' =
  posts_count w
  + fold_right (fun raw s => default 0 (saved_delta host (decode host raw)) + s)
      0 lines /\
  posts_count w <= posts_count w'.
Proof.
  intros N P E.
  destruct (pump_counters host lines w w' N E) as [-> _].
  clear N E. revert P. generalize (posts_count w) as n.
  induction lines as [| raw rest IH]; intros n P; [simpl; lia |].
  inversion P as [| ? ? Praw Prest]; subst. simpl.
  rewrite Praw. simpl.
  destruct (IH (n + default 0 (saved_delta host (decode host raw))) Prest)
    as [-> L].
  assert (0 <= default 0 (saved_delta host (decode host raw))).
  { destruct (saved_delta host (decode host raw)) eqn:S; simpl; [| lia].
    eapply saved_delta_nonneg; eassumption. }
  split; lia.
Qed.

Lemma saved_deltas_accumulate_witness :
  let lines := [bline "Saved 3 new posts"; bline "noise";
                bline "Saved 4 new posts"] in
  posts_count (fst (pump plain_host lines start)) = 0 + (3 + (0 + (4 + 0))).
Proof.
  intros lines.
  refine (proj1 (saved_deltas_accumulate plain_host lines start
                   (fst (pump plain_host lines start)) _ _ _)).
  - repeat constructor; discriminate.
  - repeat constructor; vm_compute; reflexivity.
  - vm_compute; reflexivity.
Defined.

(** ** What the expressions match *)

Section Matching.

Variable host : Host.

Lemma star_spaces_inv {A : Type} (k : text -> option A) (s : text) (r : A) :
  star_spaces host k s = Some r ->
  exists sp s',
    s = sp ++ s' /\ Forall (fun c => is_space host c = true) sp /\
    k s' = Some r.
Proof.
  induction s as [| c s IH]; simpl.
  - intros E. exists [], []. now repeat split.
  - destruct (is_space host c) eqn:C.
    + destruct (star_spaces host k s) as [r' |] eqn:S.
      * intros [= <-]. destruct (IH eq_refl) as [sp [s' [-> [F K]]]].
        exists (c :: sp), s'. repeat split; [now constructor | exact K].
      * intros E. exists [], (c :: s). now repeat split.
    + intros E. exists [], (c :: s). now repeat split.
Qed.

Lemma plus_digits_inv {A : Type} (acc : text) (k : text -> text -> option A)
      (s : text) (r : A) :
  plus_digits host acc k s = Some r ->
  exists ds rest,
    s = ds ++ rest /\ digit_string host ds /\ k (acc ++ ds) rest = Some r.
Proof.
  revert acc. induction s as [| c s IH]; intros acc; simpl; [discriminate |].
  destruct (is_digit host c) eqn:C; [| discriminate].
  destruct (plus_digits host (acc ++ [c]) k s) as [r' |] eqn:P.
  - intros [= <-]. destruct (IH _ P) as [ds [rest [-> [[_ F] K]]]].
    exists (c :: ds), rest. rewrite <- app_assoc in K.
    repeat split; [discriminate | now constructor | exact K].
  - intros K. exists [c], s.
    repeat split; [discriminate | now repeat constructor | exact K].
Qed.

(** When the continuation cannot fail, [(\d+)] takes every digit there is. *)
Lemma plus_digits_greedy {A : Type} (acc : text) (k : text -> text -> A)
      (s : text) (r : A) :
  plus_digits host acc (fun g rest => Some (k g rest)) s = Some r ->
  exists ds rest,
    s = ds ++ rest /\ digit_string host ds /\ no_digit_ahead host rest /\
    r = k (acc ++ ds) rest.
Proof.
  revert acc. induction s as [| c s IH]; intros acc; simpl; [discriminate |].
  destruct (is_digit host c) eqn:C; [| discriminate].
  destruct (plus_digits host (acc ++ [c]) _ s) as [r' |] eqn:P.
  - intros [= <-]. destruct (IH _ P) as [ds [rest [-> [[_ F] [N ->]]]]].
    exists (c :: ds), rest. rewrite <- app_assoc.
    repeat split; [discriminate | now constructor | exact N].
  - intros [= <-]. exists [c], s.
    repeat split; [discriminate | now repeat constructor |].
    destruct s as [| d s]; [exact I |]. simpl in *.
    destruct (is_digit host d); [| reflexivity].
    now destruct (plus_digits host ((acc ++ [c]) ++ [d]) _ s).
Qed.

Lemma match_here_lits (t : text) (p : regex) (s : text) (gs : list text) :
  match_here host (map Lit t ++ p) s = Some gs ->
  exists s', s = t ++ s' /\ match_here host p s' = Some gs.
Proof.
  revert s. induction t as [| c t IH]; intros s; simpl.
  - intros E. now exists s.
  - destruct s as [| x s]; [discriminate |].
    destruct (N.eqb x c) eqn:E; [| discriminate].
    apply N.eqb_eq in E. subst x. intros M.
    destruct (IH s M) as [s' [-> M']]. now exists s'.
Qed.

Lemma match_here_groups (p : regex) (s : text) (gs : list text) :
  match_here host p s = Some gs ->
  length gs = groups p /\ Forall (digit_string host) gs.
Proof.
  revert s gs. induction p as [| i p IH]; intros s gs; simpl.
  - intros [= <-]. split; [reflexivity | constructor].
  - destruct i as [c | |].
    + destruct s as [| x s]; [discriminate |].
      destruct (N.eqb x c); [apply IH | discriminate].
    + intros S. apply star_spaces_inv in S.
      destruct S as [_ [s' [_ [_ M]]]]. exact (IH _ _ M).
    + intros P. apply plus_digits_inv in P.
      destruct P as [ds [rest [_ [D K]]]].
      destruct (match_here host p rest) as [gs' |] eqn:M; [| discriminate].
      injection K as <-. destruct (IH _ _ M) as [L F].
      split; [unfold groups in *; simpl; now rewrite L | now constructor].
Qed.

Lemma re_search_inv (p : regex) (s : text) (gs : list text) :
  re_search host p s = Some gs ->
  exists pre s0, s = pre ++ s0 /\ match_here host p s0 = Some gs.
Proof.
  induction s as [| c s IH]; simpl.
  - destruct (match_here host p []) eqn:M; [| discriminate].
    intros [= <-]. now exists [], [].
  - destruct (match_here host p (c :: s)) eqn:M.
    + intros [= <-]. now exists [], (c :: s).
    + intros R. destruct (IH R) as [pre [s0 [-> M0]]].
      now exists (c :: pre), s0.
Qed.

Lemma int_value_from_digits (ds : text) (acc : N) :
  Forall (fun c => is_digit host c = true) ds ->
  exists n, int_value_from host acc ds = Some n.
Proof.
  intros F. revert acc. induction F as [| c ds C _ IH]; intros acc; simpl.
  - now exists acc.
  - unfold is_digit in C. destruct (digit_value host c); [apply IH | discriminate].
Qed.

Lemma digit_string_value (g : text) :
  digit_string host g ->
  exists n, int_value host g = Some n /\ 0 <= n /\
            (length g <= 640 -> parse_int host g = Some n)%nat.
Proof.
  intros [N F]. destruct (int_value_from_digits g 0 F) as [m E].
  exists (Z.of_N m). unfold parse_int, int_value, int_accepts.
  destruct g; [congruence |]. rewrite E. simpl option_map.
  split; [reflexivity |]. split; [apply N2Z.is_nonneg |].
  intros L. apply Nat.leb_le in L. now rewrite L.
Qed.

Lemma starts_with_app (t s : text) : starts_with t (t ++ s) = true.
Proof.
  induction t as [| c t IH]; [now destruct s |].
  simpl. now rewrite N.eqb_refl, IH.
Qed.

Lemma contains_here (t s : text) : starts_with t s = true -> contains t s = true.
Proof. intros E. destruct s; simpl in *; now rewrite E. Qed.

Lemma contains_after (t pre s : text) :
  contains t s = true -> contains t (pre ++ s) = true.
Proof.
  intros C. induction pre as [| c pre IH]; [exact C |].
  simpl. rewrite IH. apply orb_true_r.
Qed.

Lemma contains_inside (t pre post : text) : contains t (pre ++ t ++ post) = true.
Proof. apply contains_after, contains_here, starts_with_app. Qed.

(** An expression ["label\s*(\d+)"]: where it matches, and that it takes
    the whole number. *)
Lemma labelled_search (t : text) (line : text) (gs : list text) :
  re_search host (map Lit t ++ [Spaces; Digits]) line = Some gs ->
  exists pre sp ds post,
    line = pre ++ t ++ sp ++ ds ++ post /\
    Forall (fun c => is_space host c = true) sp /\
    digit_string host ds /\
    no_digit_ahead host post /\
    gs = [ds].
Proof.
  intros R. apply re_search_inv in R. destruct R as [pre [s0 [-> M]]].
  apply match_here_lits in M. destruct M as [s1 [-> M]].
  simpl in M. apply star_spaces_inv in M.
  destruct M as [sp [s2 [-> [S P]]]].
  apply (plus_digits_greedy [] (fun g _ => [g])) in P.
  destruct P as [ds [post [-> [D [N ->]]]]].
  now exists pre, sp, ds, post.
Qed.

End Matching.

(** X7.  When one of the expressions matches, the groups the block reads
    exist and are non-empty strings of decimal digits: [match.group(i)]
    never raises, each group denotes a natural number, and [int] returns
    it unless the group has more than 640 digits.  The Progress expression
    has two groups, the other five have one. *)
Theorem matched_groups_are_numbers
        (host : Host) (p : regex) (line : text) (gs : list text) :
  re_search host p line = Some gs ->
  length gs = groups p /\
  (forall (i : nat) (w : world),
      (1 <= i <= groups p)%nat ->
      exists g, group i gs w = (w, Normal g) /\ In g gs) /\
  Forall (fun g =>
            digit_string host g /\
            exists n, int_value host g = Some n /\ 0 <= n /\
                      (length g <= 640 -> parse_int host g = Some n)%nat) gs /\
  groups re_progress = 2%nat /\ groups re_saved = 1%nat /\
  groups re_comments = 1%nat /\ groups re_images = 1%nat /\
  groups re_videos = 1%nat /\ groups re_found = 1%nat.
Proof.
  intros R. apply re_search_inv in R. destruct R as [pre [s0 [_ M]]].
  apply match_here_groups in M. destruct M as [L F].
  split; [exact L |]. split; [| split].
  - intros i w [I1 I2]. unfold group.
    destruct (nth_error gs (i - 1)) as [g |] eqn:E.
    + exists g. split; [reflexivity |]. eapply nth_error_In; eassumption.
    + apply nth_error_None in E. lia.
  - eapply Forall_impl; [| exact F]. intros g D.
    split; [exact D | now apply digit_string_value].
  - repeat split; reflexivity.
Qed.

Lemma matched_groups_are_numbers_witness :
  let line := lit "Progress: 12/345 posts" in
  re_search plain_host re_progress line = Some [lit "12"; lit "345"] /\
  length [lit "12"; lit "345"] = groups re_progress.
Proof.
  intros line.
  assert (R : re_search plain_host re_progress line
              = Some [lit "12"; lit "345"]) by (vm_compute; reflexivity).
  split; [exact R |].
  exact (proj1 (matched_groups_are_numbers plain_host _ _ _ R)).
Defined.

(** X8.  What the Comments, Images and Videos tests read.  When such a test
    obtains the number [n], the line contains the label, then white space
    (possibly none), then a string of digits that denotes [n] and that is
    not followed by a further digit: the whole number is read, never a
    prefix of it.  For these tests the check that the label is in the line
    never rejects a line the expression matches. *)
Theorem labelled_total_reads_whole_number (host : Host) (line : text) :
  let reads (label : text) (total : option Z) :=
    forall n, total = Some n ->
    exists pre sp ds post,
      line = pre ++ label ++ sp ++ ds ++ post /\
      Forall (fun c => is_space host c = true) sp /\
      digit_string host ds /\
      no_digit_ahead host post /\
      int_value host ds = Some n in
  reads (lit "Comments:") (comments_total host line) /\
  reads (lit "Images:") (images_total host line) /\
  reads (lit "Videos:") (videos_total host line) /\
  comments_total host line = payload host 1 re_comments line /\
  images_total host line = payload host 1 re_images line /\
  videos_total host line = payload host 1 re_videos line.
Proof.
  assert (G : forall (t : text) (n : Z),
             payload host 1 (map Lit t ++ [Spaces; Digits]) line = Some n ->
             exists pre sp ds post,
               line = pre ++ t ++ sp ++ ds ++ post /\
               Forall (fun c => is_space host c = true) sp /\
               digit_string host ds /\
               no_digit_ahead host post /\
               int_value host ds = Some n).
  { intros t n. unfold payload.
    destruct (re_search host _ line) as [gs |] eqn:R; [| discriminate].
    apply labelled_search in R.
    destruct R as [pre [sp [ds [post [-> [S [D [N ->]]]]]]]].
    simpl. unfold parse_int.
    destruct (int_value host ds) as [m |] eqn:V; [| discriminate].
    destruct (int_accepts host ds); [| discriminate].
    intros [= <-]. now exists pre, sp, ds, post. }
  assert (T : forall (t : text),
             (if contains t line
              then payload host 1 (map Lit t ++ [Spaces; Digits]) line
              else None)
             = payload host 1 (map Lit t ++ [Spaces; Digits]) line).
  { intros t. destruct (contains t line) eqn:C; [reflexivity |].
    destruct (payload host 1 _ line) as [n |] eqn:P; [| reflexivity].
    destruct (G t n P) as [pre [sp [ds [post [E _]]]]].
    rewrite E, contains_inside in C. discriminate C. }
  cbv zeta. unfold comments_total, images_total, videos_total,
    comments_trigger, images_trigger, videos_trigger.
  change re_comments with (map Lit (lit "Comments:") ++ [Spaces; Digits]).
  change re_images with (map Lit (lit "Images:") ++ [Spaces; Digits]).
  change re_videos with (map Lit (lit "Videos:") ++ [Spaces; Digits]).
  rewrite !T. repeat split; try reflexivity; intros n; apply G.
Qed.

Lemma labelled_total_reads_whole_number_witness :
  exists pre sp ds post,
    lit "got Images:  123 so far" = pre ++ lit "Images:" ++ sp ++ ds ++ post /\
    int_value plain_host ds = Some 123.
Proof.
  destruct (proj1 (proj2 (labelled_total_reads_whole_number plain_host
                            (lit "got Images:  123 so far"))) 123)
    as [pre [sp [ds [post [E [_ [_ [_ V]]]]]]]].
  - vm_compute; reflexivity.
  - now exists pre, sp, ds, post.
Defined.

(** * The Scraper tab: the command line *)

Lemma int_value_from_cons (host : Host) (c : char) (ds : text) (acc d : N) :
  digit_value host c = Some d ->
  int_value_from host acc (c :: ds) = int_value_from host (10 * acc + d) ds.
Proof. intros E. simpl. now rewrite E. Qed.

Ltac next_digit host c k :=
  cbn [uint_text Pos.of_uint_acc Pos.of_uint];
  rewrite (int_value_from_cons host c _ _ k eq_refl).

Lemma int_value_from_uint (host : Host) (d : Decimal.uint) (p : positive) :
  int_value_from host (Npos p) (uint_text d) = Some (Npos (Pos.of_uint_acc d p)).
Proof.
  revert p. induction d; intros p; [reflexivity | ..].
  - next_digit host 48%N 0%N. rewrite <- IHd. f_equal; lia.
  - next_digit host 49%N 1%N. rewrite <- IHd. f_equal; lia.
  - next_digit host 50%N 2%N. rewrite <- IHd. f_equal; lia.
  - next_digit host 51%N 3%N. rewrite <- IHd. f_equal; lia.
  - next_digit host 52%N 4%N. rewrite <- IHd. f_equal; lia.
  - next_digit host 53%N 5%N. rewrite <- IHd. f_equal; lia.
  - next_digit host 54%N 6%N. rewrite <- IHd. f_equal; lia.
  - next_digit host 55%N 7%N. rewrite <- IHd. f_equal; lia.
  - next_digit host 56%N 8%N. rewrite <- IHd. f_equal; lia.
  - next_digit host 57%N 9%N. rewrite <- IHd. f_equal; lia.
Qed.

Lemma int_value_from_uint_zero (host : Host) (d : Decimal.uint) :
  int_value_from host 0 (uint_text d) = Some (Pos.of_uint d).
Proof.
  induction d; [reflexivity | ..].
  - next_digit host 48%N 0%N. exact IHd.
  - next_digit host 49%N 1%N. apply int_value_from_uint.
  - next_digit host 50%N 2%N. apply int_value_from_uint.
  - next_digit host 51%N 3%N. apply int_value_from_uint.
  - next_digit host 52%N 4%N. apply int_value_from_uint.
  - next_digit host 53%N 5%N. apply int_value_from_uint.
  - next_digit host 54%N 6%N. apply int_value_from_uint.
  - next_digit host 55%N 7%N. apply int_value_from_uint.
  - next_digit host 56%N 8%N. apply int_value_from_uint.
  - next_digit host 57%N 9%N. apply int_value_from_uint.
Qed.

Lemma uint_text_digits (host : Host) (d : Decimal.uint) :
  Forall (fun c => is_digit host c = true) (uint_text d).
Proof. induction d; simpl; constructor; auto. Qed.

Lemma to_uint_not_nil (n : N) : uint_text (N.to_uint n) <> [].
Proof.
  destruct n as [| p]; [discriminate |]. simpl.
  assert (H := DecimalPos.Unsigned.to_uint_nonnil p).
  destruct (Pos.to_uint p); [congruence | ..]; discriminate.
Qed.

(** [int(str(n)) = n] for a natural number *)
Lemma int_value_str_int (host : Host) (n : Z) :
  0 <= n -> int_value host (str_int n) = Some n.
Proof.
  intros Hn. assert (E : str_int n = uint_text (N.to_uint (Z.to_N n)))
    by (destruct n; [reflexivity | reflexivity | lia]).
  rewrite E. unfold int_value.
  destruct (uint_text (N.to_uint (Z.to_N n))) eqn:U;
    [now apply to_uint_not_nil in U |].
  rewrite <- U, int_value_from_uint_zero. simpl. f_equal.
  change (Pos.of_uint (N.to_uint (Z.to_N n)))
    with (N.of_uint (N.to_uint (Z.to_N n))).
  rewrite DecimalN.Unsigned.of_to. lia.
Qed.

Lemma str_int_digit_string (host : Host) (n : Z) :
  0 <= n -> digit_string host (str_int n).
Proof.
  intros Hn. assert (E : str_int n = uint_text (N.to_uint (Z.to_N n)))
    by (destruct n; [reflexivity | reflexivity | lia]).
  rewrite E. split; [apply to_uint_not_nil | apply uint_text_digits].
Qed.

Lemma uint_text_no_minus (d : Decimal.uint) (s : text) :
  uint_text d <> 45%N :: s.
Proof. destruct d; discriminate. Qed.

Lemma str_int_injective (a b : Z) : str_int a = str_int b -> a = b.
Proof.
  assert (P : forall z, 0 <= z ->
                        int_value plain_host (str_int z) = Some z)
    by (intros z; apply int_value_str_int).
  assert (Q : forall x y, 0 <= x -> 0 <= y -> str_int x = str_int y -> x = y).
  { intros x y Hx Hy E. apply P in Hx. apply P in Hy.
    rewrite E in Hx. rewrite Hx in Hy. now injection Hy. }
  intros E. destruct a as [| a | a], b as [| b | b].
  all: try (apply Q; [lia | lia | exact E]).
  all: cbv beta iota delta [str_int] in E.
  all: try (exfalso; eapply uint_text_no_minus; eassumption).
  all: try (exfalso; symmetry in E; eapply uint_text_no_minus; eassumption).
  injection E as E.
  assert (R : Zpos a = Zpos b) by (apply Q; [lia | lia | exact E]).
  now injection R as ->.
Qed.

(** X9.  The command line of a scrape.  The argument vector handed to
    [Popen] determines the form: two different settings of target, mode,
    limit and the three check boxes never give the same vector.  It begins
    with [python -u main.py], the target, [--mode], the mode, [--limit] and
    the limit in decimal, and each of [--user], [--no-media],
    [--no-comments] follows exactly when its box is ticked.  No child is
    started exactly when the name is empty. *)
Theorem command_line_is_faithful :
  (forall f g : scrape_form,
      cmd_with_unbuffered f = cmd_with_unbuffered g -> f = g) /\
  (forall f : scrape_form,
      firstn 8 (cmd_with_unbuffered f) =
      [lit "python"; lit "-u"; lit "main.py"; new_sub f; lit "--mode";
       mode f; lit "--limit"; str_int (limit f)] /\
      (In (lit "--user") (skipn 8 (cmd_with_unbuffered f))
       <-> is_user f = true) /\
      (In (lit "--no-media") (skipn 8 (cmd_with_unbuffered f))
       <-> no_media f = true) /\
      (In (lit "--no-comments") (skipn 8 (cmd_with_unbuffered f))
       <-> no_comments f = true)) /\
  (forall f : scrape_form, start_scraping f = None <-> new_sub f = []).
Proof.
  split; [| split].
  - intros [s1 u1 l1 m1 nm1 nc1] [s2 u2 l2 m2 nm2 nc2].
    unfold cmd_with_unbuffered, cmd. cbn [new_sub is_user limit mode
      no_media no_comments tl app].
    intros E. injection E as Es Em El Ef.
    apply str_int_injective in El. subst.
    destruct u1, u2, nm1, nm2, nc1, nc2; try reflexivity;
      cbn in Ef; discriminate Ef.
  - intros [s u l m nm nc]. unfold cmd_with_unbuffered, cmd.
    cbn [new_sub is_user limit mode no_media no_comments tl app firstn skipn].
    split; [reflexivity |].
    destruct u, nm, nc; cbn; intuition discriminate.
  - intros f. unfold start_scraping. destruct (new_sub f); split;
      congruence.
Qed.

Lemma command_line_is_faithful_witness :
  let f := {| new_sub := lit "python"; is_user := false; limit := 100;
              mode := lit "full"; no_media := true; no_comments := false |} in
  cmd_with_unbuffered f =
  [lit "python"; lit "-u"; lit "main.py"; lit "python"; lit "--mode";
   lit "full"; lit "--limit"; lit "100"; lit "--no-media"] /\
  In (lit "--no-media") (skipn 8 (cmd_with_unbuffered f)).
Proof.
  intros f. split; [reflexivity |].
  apply (proj2 (proj1 (proj2 (proj2 (proj1 (proj2 command_line_is_faithful)
                                       f))))).
  reflexivity.
Defined.

(** * A printed number is read back *)

Section ReadBack.

Variable host : Host.

Lemma match_here_lits_app (t : text) (p : regex) (s : text) :
  match_here host (map Lit t ++ p) (t ++ s) = match_here host p s.
Proof.
  induction t as [| c t IH]; [reflexivity |].
  simpl. now rewrite N.eqb_refl.
Qed.

Lemma re_search_skip (c : char) (t : text) (p : regex) (pre s : text) :
  Forall (fun x => x <> c) pre ->
  re_search host (map Lit (c :: t) ++ p) (pre ++ s)
  = re_search host (map Lit (c :: t) ++ p) s.
Proof.
  induction 1 as [| x pre Hx _ IH]; [reflexivity |].
  cbn [app re_search map match_here].
  apply N.eqb_neq in Hx. now rewrite Hx.
Qed.

Lemma star_spaces_through {A : Type} (k : text -> option A) (sp s : text)
      (r : A) :
  Forall (fun c => is_space host c = true) sp ->
  star_spaces host k s = Some r ->
  star_spaces host k (sp ++ s) = Some r.
Proof.
  intros F S. induction F as [| c sp C _ IH]; [exact S |].
  simpl. now rewrite C, IH.
Qed.

Lemma plus_digits_all {A : Type} (k : text -> text -> A) (ds rest acc : text) :
  digit_string host ds ->
  no_digit_ahead host rest ->
  plus_digits host acc (fun g r => Some (k g r)) (ds ++ rest)
  = Some (k (acc ++ ds) rest).
Proof.
  intros [N F] Ahead. revert acc. induction F as [| c ds C F IH]; [congruence |].
  intros acc. simpl. rewrite C.
  destruct ds as [| d ds].
  - simpl. destruct rest as [| x rest]; [reflexivity |].
    simpl in *. now rewrite Ahead.
  - rewrite IH by discriminate. now rewrite <- app_assoc.
Qed.

Lemma ascii_digit_not_space (c : char) :
  (48 <= c <= 57)%N -> is_space host c = false.
Proof.
  intros [L U]. unfold is_space.
  replace (N.eqb c 32) with false by (symmetry; apply N.eqb_neq; lia).
  replace (N.leb c 13) with false by (symmetry; apply N.leb_gt; lia).
  rewrite andb_false_r. simpl.
  replace (N.ltb 32 c) with true by (symmetry; apply N.ltb_lt; lia).
  replace (N.ltb c 127) with true by (symmetry; apply N.ltb_lt; lia).
  reflexivity.
Qed.

Lemma uint_text_ascii (d : Decimal.uint) :
  Forall (fun c => (48 <= c <= 57)%N) (uint_text d).
Proof. induction d; simpl; constructor; auto; lia. Qed.

Lemma str_int_head (n : Z) :
  0 <= n -> exists c s, str_int n = c :: s /\ (48 <= c <= 57)%N.
Proof.
  intros Hn. assert (E : str_int n = uint_text (N.to_uint (Z.to_N n)))
    by (destruct n; [reflexivity | reflexivity | lia]).
  rewrite E. assert (A := uint_text_ascii (N.to_uint (Z.to_N n))).
  destruct (uint_text (N.to_uint (Z.to_N n))) as [| c s] eqn:U;
    [now apply to_uint_not_nil in U |].
  exists c, s. split; [reflexivity | now inversion A].
Qed.

(** A line that shows a natural number after a label. *)
Lemma labelled_payload (c : char) (t pre sp rest : text) (n : Z) :
  0 <= n -> (length (str_int n) <= 640)%nat ->
  Forall (fun x => is_space host x = true) sp ->
  no_digit_ahead host rest ->
  Forall (fun x => x <> c) pre ->
  payload host 1 (map Lit (c :: t) ++ [Spaces; Digits])
    (pre ++ (c :: t) ++ sp ++ str_int n ++ rest) = Some n.
Proof.
  intros Hn L S A P. unfold payload.
  rewrite (re_search_skip c t _ pre _ P).
  assert (M : match_here host (map Lit (c :: t) ++ [Spaces; Digits])
                ((c :: t) ++ sp ++ str_int n ++ rest) = Some [str_int n]).
  { rewrite match_here_lits_app. cbn [match_here].
    apply star_spaces_through; [exact S |].
    destruct (str_int_head n Hn) as [d [s [E D]]].
    assert (G : plus_digits host []
                  (fun g r => match match_here host [] r with
                              | Some gs => Some (g :: gs)
                              | None => None
                              end) (str_int n ++ rest) = Some [str_int n])
      by (apply (plus_digits_all (fun g _ => [g]));
          [now apply str_int_digit_string | exact A]).
    rewrite E in *. cbn [app star_spaces].
    now rewrite (ascii_digit_not_space d D). }
  destruct (((c :: t) ++ sp ++ str_int n ++ rest)) eqn:Line;
    [discriminate Line |].
  cbn [re_search]. rewrite M. cbn [Nat.sub nth_error].
  unfold parse_int, int_accepts. rewrite (int_value_str_int host n Hn).
  apply Nat.leb_le in L. now rewrite L.
Qed.

End ReadBack.

(** X10.  A line that shows a natural number [n] of at most 640 digits,
    in decimal, after ["Comments:"], ["Images:"] or ["Videos:"] and any
    white space is read as [n] by the test of that label, whatever follows
    the number (but a digit) and whatever precedes the label (but its
    first letter): what the scraper prints is what the dashboard counts. *)
Theorem printed_total_is_read_back
        (host : Host) (pre sp rest : text) (n : Z) :
  0 <= n -> (length (str_int n) <= 640)%nat ->
  Forall (fun x => is_space host x = true) sp ->
  no_digit_ahead host rest ->
  (Forall (fun x => x <> 67%N) pre ->
   comments_total host (pre ++ lit "Comments:" ++ sp ++ str_int n ++ rest)
   = Some n) /\
  (Forall (fun x => x <> 73%N) pre ->
   images_total host (pre ++ lit "Images:" ++ sp ++ str_int n ++ rest)
   = Some n) /\
  (Forall (fun x => x <> 86%N) pre ->
   videos_total host (pre ++ lit "Videos:" ++ sp ++ str_int n ++ rest)
   = Some n).
Proof.
  intros Hn L S A.
  unfold comments_total, images_total, videos_total, comments_trigger,
    images_trigger, videos_trigger.
  rewrite !contains_inside.
  repeat split; intros P.
  - exact (labelled_payload host 67%N (lit "omments:") pre sp rest n Hn L S A P).
  - exact (labelled_payload host 73%N (lit "mages:") pre sp rest n Hn L S A P).
  - exact (labelled_payload host 86%N (lit "ideos:") pre sp rest n Hn L S A P).
Qed.

Lemma printed_total_is_read_back_witness :
  images_total plain_host
    (lit "## " ++ lit "Images:" ++ lit "  " ++ str_int 2024 ++ lit " files")
  = Some 2024.
Proof.
  refine (proj1 (proj2 (printed_total_is_read_back plain_host (lit "## ")
                          (lit "  ") (lit " files") 2024 _ _ _ _)) _).
  - lia.
  - vm_compute. lia.
  - repeat constructor.
  - reflexivity.
  - repeat constructor; discriminate.
Defined.

(** * The list of scraped subreddits *)

Lemma text_eqb_eq (a b : text) : text_eqb a b = true <-> a = b.
Proof.
  revert b. induction a as [| x a IH]; intros [| y b]; simpl;
    try (split; [discriminate | intros; discriminate]); [tauto |].
  rewrite andb_true_iff, N.eqb_eq, IH. split.
  - now intros [-> ->].
  - intros E. now injection E.
Qed.

Lemma text_eqb_refl (a : text) : text_eqb a a = true.
Proof. now apply text_eqb_eq. Qed.

Lemma lookup_in (name : text) (es : list (text * node)) (x : node) :
  lookup name es = Some x -> In (name, x) es.
Proof.
  induction es as [| [n y] es IH]; simpl; [discriminate |].
  destruct (text_eqb name n) eqn:E.
  - apply text_eqb_eq in E. intros [= ->]. left. now subst.
  - intros L. right. now apply IH.
Qed.

Lemma in_lookup (name : text) (es : list (text * node)) (x : node) :
  NoDup (map fst es) -> In (name, x) es -> lookup name es = Some x.
Proof.
  induction es as [| [n y] es IH]; simpl; [tauto |].
  intros D. inversion D as [| ? ? Hn D']; subst.
  intros [E | I].
  - injection E as -> ->. now rewrite text_eqb_refl.
  - destruct (text_eqb name n) eqn:E; [| now apply IH].
    apply text_eqb_eq in E. subst n. exfalso. apply Hn.
    change name with (fst (name, x)). now apply in_map.
Qed.

Lemma text_leb_refl (a : text) : text_leb a a = true.
Proof. induction a as [| x a IH]; simpl; [| rewrite N.ltb_irrefl]; auto. Qed.

Lemma text_leb_total (a b : text) : text_leb a b = true \/ text_leb b a = true.
Proof.
  revert b. induction a as [| x a IH]; intros [| y b]; simpl; auto.
  destruct (N.ltb_spec x y), (N.ltb_spec y x); auto; lia.
Qed.

Lemma text_leb_antisym (a b : text) :
  text_leb a b = true -> text_leb b a = true -> a = b.
Proof.
  revert b. induction a as [| x a IH]; intros [| y b]; simpl;
    try discriminate; auto.
  destruct (N.ltb_spec x y), (N.ltb_spec y x); try discriminate; try lia.
  intros A B. f_equal; [lia | now apply IH].
Qed.

Lemma text_leb_trans (a b c : text) :
  text_leb a b = true -> text_leb b c = true -> text_leb a c = true.
Proof.
  revert b c. induction a as [| x a IH]; intros [| y b] [| z c]; simpl;
    try discriminate; auto.
  destruct (N.ltb_spec x y), (N.ltb_spec y x), (N.ltb_spec y z),
    (N.ltb_spec z y), (N.ltb_spec x z), (N.ltb_spec z x);
    try discriminate; try lia; auto.
  apply IH.
Qed.

Lemma insert_sorted_perm (x : text) (l : list text) :
  Permutation (insert_sorted x l) (x :: l).
Proof.
  induction l as [| y l IH]; simpl; [reflexivity |].
  destruct (text_leb x y); [reflexivity |].
  rewrite IH. apply perm_swap.
Qed.

Lemma py_sorted_perm (l : list text) : Permutation (py_sorted l) l.
Proof.
  induction l as [| x l IH]; simpl; [reflexivity |].
  rewrite insert_sorted_perm. now constructor.
Qed.

Lemma insert_sorted_sorted (x : text) (l : list text) :
  StronglySorted text_le l -> StronglySorted text_le (insert_sorted x l).
Proof.
  induction 1 as [| y l S IH F]; simpl; [repeat constructor |].
  destruct (text_leb x y) eqn:E.
  - constructor; [now constructor |]. constructor; [exact E |].
    eapply Forall_impl; [| exact F]. intros z. now apply text_leb_trans.
  - constructor; [exact IH |].
    assert (P := insert_sorted_perm x l).
    apply (Permutation_Forall (Permutation_sym P)).
    constructor; [| exact F].
    destruct (text_leb_total x y) as [T | T]; [congruence | exact T].
Qed.

Lemma py_sorted_sorted (l : list text) : StronglySorted text_le (py_sorted l).
Proof.
  induction l as [| x l IH]; simpl; [constructor |].
  now apply insert_sorted_sorted.
Qed.

Lemma sorted_perm_eq (l1 l2 : list text) :
  StronglySorted text_le l1 -> StronglySorted text_le l2 ->
  Permutation l1 l2 -> l1 = l2.
Proof.
  intros S1. revert l2. induction S1 as [| a l1 S1 IH F1]; intros l2 S2 P.
  - now apply Permutation_nil in P.
  - destruct S2 as [| b l2 S2 F2];
      [apply Permutation_sym, Permutation_nil in P; discriminate |].
    assert (E : a = b).
    { assert (Ia : In a (b :: l2))
        by (apply (Permutation_in _ P); now left).
      assert (Ib : In b (a :: l1))
        by (apply (Permutation_in _ (Permutation_sym P)); now left).
      destruct Ia as [-> | Ia]; [reflexivity |].
      destruct Ib as [-> | Ib]; [reflexivity |].
      rewrite Forall_forall in F1, F2.
      apply text_leb_antisym; [now apply F1 | now apply F2]. }
    subst b. f_equal. apply IH; [exact S2 |].
    now apply Permutation_cons_inv in P.
Qed.

Lemma py_sorted_order (l1 l2 : list text) :
  Permutation l1 l2 -> py_sorted l1 = py_sorted l2.
Proof.
  intros P. apply sorted_perm_eq; try apply py_sorted_sorted.
  rewrite !py_sorted_perm. exact P.
Qed.

Lemma filter_perm {A : Type} (f : A -> bool) (l1 l2 : list A) :
  Permutation l1 l2 -> Permutation (filter f l1) (filter f l2).
Proof.
  induction 1 as [| x l1 l2 P IH | x y l | l1 l2 l3 P1 IH1 P2 IH2]; simpl.
  - constructor.
  - destruct (f x); [now constructor | exact IH].
  - destruct (f x), (f y); try reflexivity. apply perm_swap.
  - now transitivity (filter f l2).
Qed.

Lemma has_posts_spec (name : text) (n : node) :
  has_posts (name, n) = true <->
  exists sub, n = Dir sub /\ lookup (lit "posts.csv") sub <> None.
Proof.
  unfold has_posts, is_dir, path_exists, joinpath. cbn [snd].
  destruct n as [| sub]; simpl.
  - split; [discriminate | intros [sub [E _]]; discriminate E].
  - destruct (lookup (lit "posts.csv") sub) eqn:L; split; try discriminate.
    + intros _. exists sub. split; [reflexivity | congruence].
    + reflexivity.
    + intros [s [[= <-] N]]. congruence.
Qed.

Lemma listed_subreddits_in (es : list (text * node)) (name : text) :
  In name (listed_subreddits es) <->
  exists sub, In (name, Dir sub) es /\ lookup (lit "posts.csv") sub <> None.
Proof.
  unfold listed_subreddits. split.
  - intros I. apply (Permutation_in _ (py_sorted_perm _)) in I.
    apply in_map_iff in I. destruct I as [[n x] [E I]]. simpl in E. subst n.
    apply filter_In in I. destruct I as [I Q].
    apply has_posts_spec in Q. destruct Q as [sub [-> L]].
    now exists sub.
  - intros [sub [I L]].
    apply (Permutation_in _ (Permutation_sym (py_sorted_perm _))).
    change name with (fst (name, Dir sub)). apply in_map.
    apply filter_In. split; [exact I |].
    apply has_posts_spec. now exists sub.
Qed.

(** X11.  The subreddits offered for selection.  For a data directory with
    the entries [es], whatever their kinds and the order in which the
    operating system lists them: the list is in ascending order of the
    names; a name is in it exactly when it is the name of an entry that is
    a directory in which [posts.csv] exists; listing the same entries in
    another order gives the same list.  A missing data directory gives the
    empty list, and a file in its place is not caught. *)
Theorem listed_subreddits_spec :
  (forall es, StronglySorted text_le (listed_subreddits es)) /\
  (forall es name,
      In name (listed_subreddits es) <->
      exists sub, In (name, Dir sub) es
                  /\ lookup (lit "posts.csv") sub <> None) /\
  (forall es es',
      Permutation es es' -> listed_subreddits es = listed_subreddits es') /\
  (forall project,
      match lookup (lit "data") project with
      | None => get_available_subreddits project = Returns []
      | Some File => get_available_subreddits project = Raises tt
      | Some (Dir es) =>
          get_available_subreddits project = Returns (listed_subreddits es)
      end).
Proof.
  split; [| split; [| split]].
  - intros es. apply py_sorted_sorted.
  - apply listed_subreddits_in.
  - intros es es' P. unfold listed_subreddits. apply py_sorted_order.
    now apply Permutation_map, filter_perm.
  - intros project. unfold get_available_subreddits.
    destruct (lookup (lit "data") project) as [[| es] |]; reflexivity.
Qed.

Section LoadingFacts.

Variables frame csv_error : Type.
Variable read_csv : node -> outcome csv_error frame.
Variable empty_frame : frame.
Variable selectbox : list text -> text.

(** X12.  With a select box that returns one of its options and a data
    directory whose entries have distinct names, [main] never reports
    ["No posts data found!"]: the selected subreddit was listed because
    its [posts.csv] exists, so [load_subreddit_data] reads that file, and
    [main] either goes on with what [read_csv] made of it or ends with the
    exception of [read_csv].  When it goes on, the selected name is one of
    the listed ones. *)
Theorem no_posts_message_is_unreachable (project : list (text * node)) :
  (forall l, l <> [] -> In (selectbox l) l) ->
  (forall es, lookup (lit "data") project = Some (Dir es) ->
              NoDup (map fst es)) ->
  main_head frame csv_error read_csv empty_frame selectbox project
  <> Returns NoPostsData /\
  (forall s p c,
      main_head frame csv_error read_csv empty_frame selectbox project
      = Returns (Dashboard s p c) ->
      exists es sub f,
        lookup (lit "data") project = Some (Dir es) /\
        In s (listed_subreddits es) /\
        lookup s es = Some (Dir sub) /\
        lookup (lit "posts.csv") sub = Some f /\
        read_csv f = Returns p).
Proof.
  intros Sel Distinct. unfold main_head, get_available_subreddits.
  destruct (lookup (lit "data") project) as [[| es] |] eqn:D;
    [split; [discriminate | intros; discriminate] | |
     split; [discriminate | intros; discriminate]].
  destruct (listed_subreddits es) as [| s0 ss] eqn:L;
    [split; [discriminate | intros; discriminate] |].
  cbv zeta.
  assert (I : In (selectbox (s0 :: ss)) (listed_subreddits es))
    by (rewrite L; apply Sel; discriminate).
  set (s := selectbox (s0 :: ss)) in *.
  apply listed_subreddits_in in I.
  destruct I as [sub [I P]].
  assert (Ls : lookup s es = Some (Dir sub))
    by (apply in_lookup; [now apply Distinct | exact I]).
  destruct (lookup (lit "posts.csv") sub) as [f |] eqn:Lp; [| congruence].
  assert (Ls' : joinpath s (Some (Dir es)) = Some (Dir sub)) by exact Ls.
  assert (Lp' : joinpath (lit "posts.csv") (Some (Dir sub)) = Some f)
    by exact Lp.
  unfold load_subreddit_data, load_file. rewrite !Ls', !Lp'.
  destruct (read_csv f) as [p |] eqn:R; cbv beta iota;
    [| split; [discriminate | intros; discriminate]].
  destruct (joinpath (lit "comments.csv") (Some (Dir sub))) as [g |];
    cbv beta iota.
  - destruct (read_csv g); cbv beta iota; cbn [posts comments];
      (split; [discriminate |]); try (intros; discriminate).
    intros s' p' c' [= <- <- <-]. exists es, sub, f.
    repeat split; auto.
    apply listed_subreddits_in. exists sub. split; [exact I | congruence].
  - cbn [posts comments]. split; [discriminate |].
    intros s' p' c' [= <- <- <-]. exists es, sub, f.
    repeat split; auto.
    apply listed_subreddits_in. exists sub. split; [exact I | congruence].
Qed.

End LoadingFacts.

Lemma no_posts_message_is_unreachable_witness :
  main_head nat unit (fun _ => Returns 0%nat) 0%nat (hd [])
    [(lit "data", Dir [(lit "r_python", Dir [(lit "posts.csv", File)]);
                       (lit "notes.txt", File)])]
  <> Returns NoPostsData.
Proof.
  refine (proj1 (no_posts_message_is_unreachable nat unit
                   (fun _ => Returns 0%nat) 0%nat (hd []) _ _ _)).
  - intros [| x l] N; [congruence | now left].
  - intros es E. vm_compute in E. injection E as <-.
    repeat constructor; simpl; intuition discriminate.
Defined.

(** * Replacing in a string *)

Lemma replace_from_length (old s : text) (k : nat) :
  (length (replace_from k old [] s) <= length s)%nat.
Proof.
  revert k. induction s as [| c s IH]; intros k; [simpl; lia |].
  cbn [replace_from]. destruct k as [| k].
  - destruct (starts_with old (c :: s)); cbn [app length].
    + specialize (IH (length old - 1)%nat). lia.
    + specialize (IH 0%nat). lia.
  - specialize (IH k). cbn [length]. lia.
Qed.

Lemma py_replace_absent (old new s : text) :
  contains old s = false -> py_replace old new s = s.
Proof.
  unfold py_replace. induction s as [| c s IH]; [reflexivity |].
  cbn [contains replace_from]. intros C.
  apply orb_false_iff in C. destruct C as [C1 C2].
  rewrite C1. f_equal. now apply IH.
Qed.

Lemma py_replace_shorter (old s : text) :
  old <> [] -> contains old s = true ->
  (length (py_replace old [] s) < length s)%nat.
Proof.
  intros N. unfold py_replace. induction s as [| c s IH].
  - destruct old; [congruence | discriminate].
  - cbn [contains replace_from]. intros C.
    destruct (starts_with old (c :: s)) eqn:S.
    + cbn [app length].
      assert (L := replace_from_length old s (length old - 1)). lia.
    + simpl in C. specialize (IH C). cbn [length]. lia.
Qed.

Lemma replace_from_skip (old new t s : text) :
  replace_from (length t) old new (t ++ s) = replace_from 0 old new s.
Proof.
  induction t as [| c t IH]; [reflexivity |]. exact IH.
Qed.

Lemma py_replace_at_head (old s : text) :
  old <> [] -> py_replace old [] (old ++ s) = py_replace old [] s.
Proof.
  intros N. destruct old as [| c old]; [congruence |].
  unfold py_replace. cbn [app replace_from].
  assert (S : starts_with (c :: old) (c :: old ++ s) = true)
    by (change (c :: old ++ s) with ((c :: old) ++ s);
        apply starts_with_app).
  rewrite S. cbn [app].
  replace (length (c :: old) - 1)%nat with (length old) by (simpl; lia).
  apply replace_from_skip.
Qed.

(** X13.  The name handed to the Parquet export.  [target_name] is never
    longer than the directory name and leaves a name without ["r_"] and
    ["u_"] as it is.  For a directory name ["r_" ++ s] or ["u_" ++ s] it
    is the scraped name [s] exactly when neither ["r_"] nor ["u_"] occurs
    inside [s]: the two replacements remove every occurrence, not only the
    prefix. *)
Theorem target_name_spec :
  (forall s, (length (target_name s) <= length s)%nat) /\
  (forall s, contains (lit "r_") s = false ->
             contains (lit "u_") s = false -> target_name s = s) /\
  (forall s, target_name (lit "r_" ++ s) = s <->
             contains (lit "r_") s = false /\ contains (lit "u_") s = false) /\
  (forall s, target_name (lit "u_" ++ s) = s <->
             contains (lit "r_") s = false /\ contains (lit "u_") s = false).
Proof.
  assert (Len : forall old s,
             (length (py_replace old [] s) <= length s)%nat)
    by (intros; apply replace_from_length).
  assert (Keep : forall s, contains (lit "r_") s = false ->
                           contains (lit "u_") s = false ->
                           target_name s = s).
  { intros s R U. unfold target_name.
    rewrite (py_replace_absent (lit "r_")) by exact R.
    now apply py_replace_absent. }
  assert (Inner : forall s,
             py_replace (lit "u_") [] (py_replace (lit "r_") [] s) = s <->
             contains (lit "r_") s = false /\ contains (lit "u_") s = false).
  { intros s. split; [| intros [R U]; now apply Keep].
    intros E.
    destruct (contains (lit "r_") s) eqn:R.
    - exfalso.
      assert (L1 := py_replace_shorter (lit "r_") s ltac:(discriminate) R).
      assert (L2 := Len (lit "u_") (py_replace (lit "r_") [] s)).
      rewrite E in L2. lia.
    - split; [reflexivity |].
      rewrite (py_replace_absent (lit "r_")) in E by exact R.
      destruct (contains (lit "u_") s) eqn:U; [| reflexivity].
      exfalso.
      assert (L1 := py_replace_shorter (lit "u_") s ltac:(discriminate) U).
      rewrite E in L1. lia. }
  split; [| split; [exact Keep | split]].
  - intros s. unfold target_name.
    assert (L1 := Len (lit "u_") (py_replace (lit "r_") [] s)).
    assert (L2 := Len (lit "r_") s). lia.
  - intros s. unfold target_name.
    rewrite (py_replace_at_head (lit "r_")) by discriminate. apply Inner.
  - intros s. unfold target_name.
    assert (E : py_replace (lit "r_") [] (lit "u_" ++ s)
                = lit "u_" ++ py_replace (lit "r_") [] s) by reflexivity.
    rewrite E. rewrite (py_replace_at_head (lit "u_")) by discriminate.
    apply Inner.
Qed.

Lemma target_name_spec_witness :
  target_name (lit "r_" ++ lit "AskReddit") = lit "AskReddit".
Proof.
  apply (proj2 (proj1 (proj2 (proj2 target_name_spec)) (lit "AskReddit"))).
  split; reflexivity.
Defined.

(** * The keys of the objects stored in S3 *)

Lemma py_replace_char (a b : char) (s : text) :
  py_replace [a] [b] s = map (fun c => if N.eqb c a then b else c) s.
Proof.
  unfold py_replace. induction s as [| c s IH]; [reflexivity |].
  cbn [replace_from starts_with length Nat.sub map].
  rewrite andb_true_r, (N.eqb_sym a c).
  destruct (N.eqb c a); cbn [app]; now rewrite IH.
Qed.

Lemma map_join_with {f : char -> char} (sep : text) (parts : list text) :
  map f (join_with sep parts) = join_with (map f sep) (map (map f) parts).
Proof.
  induction parts as [| p ps IH]; [reflexivity |].
  destruct ps as [| q ps]; [reflexivity |].
  change (join_with sep (p :: q :: ps))
    with (p ++ sep ++ join_with sep (q :: ps)).
  change (join_with (map f sep) (map (map f) (p :: q :: ps)))
    with (map f p ++ map f sep
          ++ join_with (map f sep) (map (map f) (q :: ps))).
  now rewrite !map_app, IH.
Qed.

Lemma slashed_plain (p : text) : ~ In 92%N p -> map slashed p = p.
Proof.
  induction p as [| c p IH]; [reflexivity |]. intros N. simpl.
  rewrite IH by (intros I; apply N; now right).
  unfold slashed. destruct (N.eqb_spec c 92); [| reflexivity].
  exfalso. apply N. now left.
Qed.

Lemma slashed_plain_all (ps : list text) :
  Forall plain_name ps -> map (map slashed) ps = ps.
Proof.
  induction 1 as [| p ps [_ P] _ IH]; [reflexivity |]. simpl.
  now rewrite IH, slashed_plain.
Qed.

Lemma split_at_first (c : char) (a b x y : text) :
  ~ In c a -> ~ In c b -> a ++ c :: x = b ++ c :: y -> a = b /\ x = y.
Proof.
  revert b. induction a as [| u a IH]; intros [| v b] Na Nb E; simpl in E.
  - injection E as <-. auto.
  - injection E as ->. exfalso. apply Nb. now left.
  - injection E as ->. exfalso. apply Na. now left.
  - injection E as -> E. destruct (IH b) as [-> ->]; auto.
    + intros I. apply Na. now right.
    + intros I. apply Nb. now right.
Qed.

Lemma join_with_injective (c : char) (p q : list text) :
  p <> [] -> q <> [] ->
  Forall (fun x => ~ In c x) p -> Forall (fun x => ~ In c x) q ->
  join_with [c] p = join_with [c] q -> p = q.
Proof.
  revert q. induction p as [| a p IH]; [congruence |].
  intros [| b q] _ Nq Fp Fq; [congruence |].
  inversion Fp as [| ? ? Ha Fp']; subst.
  inversion Fq as [| ? ? Hb Fq']; subst.
  destruct p as [| a2 p], q as [| b2 q].
  - simpl. now intros ->.
  - cbn [join_with app]. intros E. exfalso. apply Ha. rewrite E.
    apply in_or_app. right. now left.
  - cbn [join_with app]. intros E. exfalso. apply Hb. rewrite <- E.
    apply in_or_app. right. now left.
  - change (join_with [c] (a :: a2 :: p))
      with (a ++ c :: join_with [c] (a2 :: p)).
    change (join_with [c] (b :: b2 :: q))
      with (b ++ c :: join_with [c] (b2 :: q)).
    intros E. apply split_at_first in E; [| assumption | assumption].
    destruct E as [-> E]. f_equal.
    apply IH; [discriminate | discriminate | assumption | assumption
               | exact E].
Qed.

Lemma s3_key_map (sep : char) (s3_prefix : text) (parts : list text) :
  parts <> [] ->
  s3_key sep s3_prefix parts =
  match s3_prefix with
  | [] => join_with [slashed sep] (map (map slashed) parts)
  | _ :: _ => map slashed s3_prefix ++ lit "/"
              ++ join_with [slashed sep] (map (map slashed) parts)
  end.
Proof.
  intros Ne. unfold s3_key, path_str.
  destruct parts as [| p ps]; [congruence |].
  change (lit "/") with [47%N]. rewrite py_replace_char.
  change (fun c : char => if N.eqb c 92 then 47%N else c) with slashed.
  destruct s3_prefix as [| x pre].
  - exact (map_join_with (f := slashed) [sep] (p :: ps)).
  - rewrite !map_app. f_equal. f_equal.
    exact (map_join_with (f := slashed) [sep] (p :: ps)).
Qed.

(** X14.  The key of an uploaded file.  It never holds a backslash; it is
    the same whether the relative path is rendered with the separator of
    Windows or with ["/"]; and under either separator two different
    relative paths whose components hold neither ["/"] nor a backslash get
    different keys, so that no upload of a directory overwrites another
    one. *)
Theorem s3_key_spec :
  (forall sep s3_prefix parts,
      ~ In 92%N (s3_key sep s3_prefix parts)) /\
  (forall s3_prefix parts,
      s3_key 92%N s3_prefix parts = s3_key 47%N s3_prefix parts) /\
  (forall sep s3_prefix p q,
      sep = 47%N \/ sep = 92%N ->
      p <> [] -> q <> [] ->
      Forall plain_name p -> Forall plain_name q ->
      s3_key sep s3_prefix p = s3_key sep s3_prefix q -> p = q).
Proof.
  split; [| split].
  - intros sep s3_prefix parts. unfold s3_key.
    change (lit "/") with [47%N]. rewrite py_replace_char.
    intros I. apply in_map_iff in I. destruct I as [c [E _]].
    destruct (N.eqb_spec c 92); [discriminate E | congruence].
  - intros s3_prefix parts. destruct parts as [| p ps]; [reflexivity |].
    rewrite !s3_key_map by discriminate. reflexivity.
  - intros sep s3_prefix p q S Np Nq Fp Fq.
    rewrite !s3_key_map by assumption.
    rewrite !slashed_plain_all by assumption.
    assert (Sl : slashed sep = 47%N) by (destruct S as [-> | ->]; reflexivity).
    rewrite Sl.
    assert (J : join_with [47%N] p = join_with [47%N] q -> p = q).
    { apply join_with_injective; try assumption.
      - eapply Forall_impl; [| exact Fp]. now intros x [A _].
      - eapply Forall_impl; [| exact Fq]. now intros x [A _]. }
    destruct s3_prefix as [| x pre]; [exact J |].
    intros E. apply app_inv_head in E. apply app_inv_head in E. now apply J.
Qed.

Lemma s3_key_spec_witness :
  s3_key 92%N (lit "reddit/r_python/20240101_120000")
    [lit "media"; lit "images"; lit "a.jpg"]
  = lit "reddit/r_python/20240101_120000/media/images/a.jpg" /\
  [lit "media"; lit "a.jpg"] <> [lit "media_a.jpg"] /\
  (s3_key 92%N [] [lit "media"; lit "a.jpg"] = s3_key 92%N [] [lit "media_a.jpg"]
   -> [lit "media"; lit "a.jpg"] = [lit "media_a.jpg"]).
Proof.
  split; [reflexivity |]. split; [discriminate |].
  apply (proj2 (proj2 s3_key_spec) 92%N []).
  - now right.
  - discriminate.
  - discriminate.
  - repeat constructor; simpl; intuition discriminate.
  - repeat constructor; simpl; intuition discriminate.
Defined.

(** * Dictionaries *)

Lemma text_eqb_neq (a b : text) : text_eqb a b = false <-> a <> b.
Proof.
  split.
  - intros E H. apply text_eqb_eq in H. congruence.
  - intros H. destruct (text_eqb a b) eqn:E; [| reflexivity].
    apply text_eqb_eq in E. contradiction.
Qed.

Lemma dict_get_set (k k' v : text) (d : dict) :
  dict_get k (dict_set k' v d)
  = if text_eqb k k' then Some v else dict_get k d.
Proof.
  induction d as [| [k0 v0] d IH]; simpl.
  - reflexivity.
  - destruct (text_eqb k' k0) eqn:E0; simpl.
    + apply text_eqb_eq in E0. subst k0.
      destruct (text_eqb k k'); reflexivity.
    + destruct (text_eqb k k0) eqn:E1.
      * apply text_eqb_eq in E1. subst k0.
        destruct (text_eqb k k') eqn:E2; [| reflexivity].
        apply text_eqb_eq in E2. subst k'.
        rewrite text_eqb_refl in E0. discriminate.
      * exact IH.
Qed.

Lemma dict_set_keys (k v x : text) (d : dict) :
  In x (map fst (dict_set k v d)) <-> x = k \/ In x (map fst d).
Proof.
  induction d as [| [k0 v0] d IH]; simpl.
  - intuition.
  - destruct (text_eqb k k0) eqn:E; simpl.
    + apply text_eqb_eq in E. subst k0. intuition.
    + rewrite IH. intuition.
Qed.

Lemma dict_set_nodup (k v : text) (d : dict) :
  NoDup (map fst d) -> NoDup (map fst (dict_set k v d)).
Proof.
  induction d as [| [k0 v0] d IH]; simpl; intros D.
  - repeat constructor. intros [].
  - inversion D as [| ? ? N D']; subst.
    destruct (text_eqb k k0) eqn:E; simpl.
    + now constructor.
    + constructor; [| now apply IH].
      rewrite dict_set_keys. intros [-> | I]; [| contradiction].
      rewrite text_eqb_refl in E. discriminate.
Qed.

Lemma dict_set_fresh (k v : text) (d : dict) :
  ~ In k (map fst d) -> dict_set k v d = d ++ [(k, v)].
Proof.
  induction d as [| [k0 v0] d IH]; simpl; intros N; [reflexivity |].
  destruct (text_eqb k k0) eqn:E.
  - apply text_eqb_eq in E. subst. exfalso. apply N. now left.
  - rewrite IH; [reflexivity |]. intros I. apply N. now right.
Qed.

Lemma dict_of_keys (entries : list (text * text)) (d : dict) (x : text) :
  In x (map fst (dict_of entries d))
  <-> In x (map fst d) \/ In x (map fst entries).
Proof.
  unfold dict_of. revert d.
  induction entries as [| [k v] entries IH]; intros d; simpl.
  - intuition.
  - rewrite IH, dict_set_keys. intuition.
Qed.

Lemma dict_of_nodup (entries : list (text * text)) (d : dict) :
  NoDup (map fst d) -> NoDup (map fst (dict_of entries d)).
Proof.
  unfold dict_of. revert d.
  induction entries as [| [k v] entries IH]; intros d D; simpl;
    [exact D |].
  apply IH. now apply dict_set_nodup.
Qed.

Lemma dict_of_absent (entries : list (text * text)) (d : dict) (k : text) :
  ~ In k (map fst entries) ->
  dict_get k (dict_of entries d) = dict_get k d.
Proof.
  unfold dict_of. revert d.
  induction entries as [| [k0 v0] entries IH]; intros d N; simpl;
    [reflexivity |].
  rewrite IH by (intros I; apply N; now right).
  rewrite dict_get_set. simpl.
  destruct (text_eqb k k0) eqn:E; [| reflexivity].
  apply text_eqb_eq in E. subst. exfalso. apply N. now left.
Qed.

Lemma dict_of_last (before after : list (text * text)) (d : dict)
      (k v : text) :
  ~ In k (map fst after) ->
  dict_get k (dict_of (before ++ (k, v) :: after) d) = Some v.
Proof.
  intros N. unfold dict_of. rewrite fold_left_app. simpl.
  fold (dict_of after (dict_set k v (dict_of before d))).
  rewrite dict_of_absent by exact N.
  now rewrite dict_get_set, text_eqb_refl.
Qed.

Lemma dict_of_fresh (entries : list (text * text)) (d : dict) :
  NoDup (map fst entries) ->
  (forall k, In k (map fst entries) -> ~ In k (map fst d)) ->
  dict_of entries d = d ++ entries.
Proof.
  unfold dict_of. revert d.
  induction entries as [| [k v] entries IH]; intros d D F; simpl.
  - now rewrite app_nil_r.
  - simpl in D. inversion D as [| ? ? N D']; subst.
    rewrite dict_set_fresh by (apply F; now left).
    rewrite IH; [now rewrite <- app_assoc | exact D' |].
    intros x I. rewrite map_app, in_app_iff. simpl.
    intros [J | [<- | []]]; [| contradiction].
    apply (F x); [now right | exact J].
Qed.

Lemma dict_of_length (entries : list (text * text)) :
  (length (dict_of entries []) <= length entries)%nat /\
  (length (dict_of entries []) = length entries
   <-> NoDup (map fst entries)).
Proof.
  assert (D : NoDup (map fst (dict_of entries [])))
    by (apply dict_of_nodup; constructor).
  assert (I : incl (map fst (dict_of entries [])) (map fst entries)).
  { intros x H. apply dict_of_keys in H. destruct H as [[] | H]. exact H. }
  assert (L := NoDup_incl_length D I). rewrite !length_map in L.
  split; [exact L |]. split.
  - intros E. apply (NoDup_incl_NoDup D); [| exact I].
    rewrite !length_map. lia.
  - intros N. rewrite dict_of_fresh; [reflexivity | exact N |].
    intros k _ [].
Qed.

(** * The walk of a directory *)

Lemma node_induction (P : node -> Prop) :
  P File ->
  (forall es, Forall (fun e => P (snd e)) es -> P (Dir es)) ->
  forall n, P n.
Proof.
  intros HF HD. fix IH 1. intros [| es]; [exact HF |].
  apply HD. induction es as [| [name x] es IHes]; constructor.
  - apply IH.
  - exact IHes.
Qed.

Lemma rglob_cons (name : text) (x : node) (es : list (text * node)) :
  rglob (Dir ((name, x) :: es))
  = (([name], x) :: map (fun q => (name :: fst q, snd q)) (rglob x))
    ++ rglob (Dir es).
Proof. reflexivity. Qed.

Lemma rglob_head (es : list (text * node)) (p : list text) :
  In p (map fst (rglob (Dir es))) ->
  exists name rest, p = name :: rest /\ In name (map fst es).
Proof.
  induction es as [| [name x] es IH]; [intros [] |].
  rewrite rglob_cons, map_app, in_app_iff. cbn [map fst In].
  intros [[<- | I] | I].
  - exists name, []. split; [reflexivity | now left].
  - rewrite map_map in I. apply in_map_iff in I.
    destruct I as [q [<- _]]. exists name, (fst q).
    split; [reflexivity | now left].
  - destruct (IH I) as [nm [rest [-> J]]]. exists nm, rest.
    split; [reflexivity | now right].
Qed.

Lemma rglob_paths (sep : char) (n : node) :
  well_formed sep n ->
  NoDup (map fst (rglob n)) /\
  Forall (clean_path sep) (map fst (rglob n)).
Proof.
  induction n as [| es IH] using node_induction; [now split; constructor |].
  induction es as [| [name x] es IHes]; [now split; constructor |].
  inversion IH as [| ? ? IHx IH']; subst. cbn [snd] in IHx.
  intros [D [[Hn Wx] W]]. cbn [map fst] in D.
  inversion D as [| ? ? Nn D']; subst.
  destruct (IHes IH' (conj D' W)) as [ND CL].
  destruct (IHx Wx) as [NDx CLx].
  rewrite rglob_cons, map_app. cbn [map fst]. rewrite map_map. cbn [fst].
  rewrite <- (map_map fst (cons name)).
  split.
  - apply NoDup_app.
    + constructor.
      * intros I. apply in_map_iff in I. destruct I as [q [E I]].
        injection E as ->. rewrite Forall_forall in CLx.
        now destruct (CLx [] I).
      * apply NoDup_map_NoDup_ForallPairs; [| exact NDx].
        intros a b _ _ E. now injection E.
    + exact ND.
    + intros p I J. apply rglob_head in J.
      destruct J as [nm [rest [-> J]]]. apply Nn.
      destruct I as [E | I]; [injection E as ->; exact J |].
      apply in_map_iff in I. destruct I as [q [E _]].
      injection E as -> _. exact J.
  - apply Forall_app. split; [| exact CL].
    constructor.
    + split; [discriminate | now repeat constructor].
    + apply Forall_forall. intros p I. apply in_map_iff in I.
      destruct I as [q [<- I]]. rewrite Forall_forall in CLx.
      destruct (CLx q I) as [_ F]. split; [discriminate |].
      now constructor.
Qed.

Lemma filter_fst_nodup {A B : Type} (f : A * B -> bool) (l : list (A * B)) :
  NoDup (map fst l) -> NoDup (map fst (filter f l)).
Proof.
  induction l as [| q l IH]; simpl; intros D; [constructor |].
  inversion D as [| ? ? N D']; subst.
  destruct (f q); simpl; [| now apply IH].
  constructor; [| now apply IH].
  intros I. apply N. apply in_map_iff in I. destruct I as [r [E I]].
  apply filter_In in I. rewrite <- E. apply in_map. tauto.
Qed.

Lemma files_below_paths (sep : char) (n : node) :
  well_formed sep n ->
  NoDup (files_below n) /\ Forall (clean_path sep) (files_below n).
Proof.
  intros W. destruct (rglob_paths sep n W) as [D C]. unfold files_below.
  split; [now apply filter_fst_nodup |].
  apply Forall_forall. intros p I. rewrite Forall_forall in C. apply C.
  apply in_map_iff in I. destruct I as [q [E I]]. apply filter_In in I.
  rewrite <- E. apply in_map. tauto.
Qed.

Lemma path_str_injective (sep : char) (p q : list text) :
  clean_path sep p -> clean_path sep q ->
  path_str sep p = path_str sep q -> p = q.
Proof.
  intros [Np Fp] [Nq Fq]. unfold path_str.
  destruct p as [| a p]; [congruence |]. destruct q as [| b q]; [congruence |].
  now apply join_with_injective.
Qed.

Lemma files_below_keys (sep : char) (n : node) :
  well_formed sep n -> NoDup (map (path_str sep) (files_below n)).
Proof.
  intros W. destruct (files_below_paths sep n W) as [D C].
  apply NoDup_map_NoDup_ForallPairs; [| exact D].
  intros p q Ip Iq. rewrite Forall_forall in C.
  apply path_str_injective; now apply C.
Qed.

(** * Uploads to S3 *)

Section S3Facts.

Variable sep : char.
Variables bucket_name region : text.
Variable client : list text -> text -> put_result.

Lemma key_fallback (s3_prefix : text) (p : list text) :
  p <> [] ->
  match s3_key sep s3_prefix p with
  | [] => basename p
  | _ :: _ => s3_key sep s3_prefix p
  end = s3_key sep s3_prefix p.
Proof.
  intros Ne. destruct (s3_key sep s3_prefix p) as [| c k] eqn:K;
    [| reflexivity].
  rewrite s3_key_map in K by exact Ne.
  destruct s3_prefix as [| x pre]; [| discriminate K].
  destruct p as [| a [| b p]]; [congruence | |].
  - simpl in K. now destruct a.
  - exfalso. cbn [map join_with] in K.
    apply app_eq_nil in K. destruct K as [_ K]. discriminate K.
Qed.

Lemma s3_upload_loop (s3_prefix : text) (files : list (list text)) (d : dict) :
  Forall (fun p => p <> []) files ->
  match S3Uploader.upload_loop sep bucket_name region client s3_prefix
          files d with
  | Returns uploaded =>
      uploaded
      = dict_of (S3Uploader.stored_entries sep bucket_name region client
                   s3_prefix files) d
  | Raises _ =>
      exists p, In p files /\ client p (s3_key sep s3_prefix p) = OtherError
  end.
Proof.
  intros F. revert d. induction F as [| p files Np F IH]; intros d;
    [reflexivity |].
  cbn [S3Uploader.upload_loop]. unfold S3Uploader.upload_file.
  cbn [negb]. cbv zeta. rewrite (key_fallback s3_prefix p Np).
  unfold S3Uploader.stored_entries. cbn [filter].
  destruct (client p (s3_key sep s3_prefix p)) eqn:C; cbn [is_stored].
  - specialize (IH (dict_set (path_str sep p)
                      (S3Uploader.url_of bucket_name region
                         (s3_key sep s3_prefix p)) d)).
    cbn [map]. unfold dict_of at 1. cbn [fold_left fst snd].
    destruct (S3Uploader.upload_loop sep bucket_name region client
                s3_prefix files _) eqn:L.
    + exact IH.
    + destruct IH as [q [I Q]]. exists q. split; [now right | exact Q].
  - specialize (IH d).
    destruct (S3Uploader.upload_loop sep bucket_name region client
                s3_prefix files d) eqn:L.
    + exact IH.
    + destruct IH as [q [I Q]]. exists q. split; [now right | exact Q].
  - exists p. split; [now left | exact C].
Qed.

End S3Facts.



(** * Uploads to Google Drive *)

Section DriveFacts.

Variable create_folder : text -> outcome unit (option text).
Variable service : list text -> option text -> drive_result.

Lemma drive_upload_loop (root : option text) (files : list (list text))
      (d uploaded : dict) :
  GDriveUploader.upload_loop service root files d = Returns uploaded ->
  uploaded = dict_of (GDriveUploader.linked_entries service root files) d.
Proof.
  revert d. induction files as [| p files IH]; intros d; simpl.
  - now intros [= <-].
  - unfold GDriveUploader.linked_entries. cbn [flat_map].
    unfold GDriveUploader.link_of at 1.
    destruct (GDriveUploader.upload_file service true p root)
      as [[[| c u] |] | e]; try discriminate; intros L;
      apply IH in L; exact L.
Qed.


End DriveFacts.


(** * Subreddit statistics *)

Section StatsFacts.

Import SubredditStats.

Variable number : Type.
Variable nonzero : number -> bool.
Variable zero : number.
Variable isoformat : json number -> option text.
Variable requests_get : text -> response number.

Lemma before_question_cut (s : text) :
  exists rest, s = before_question s ++ rest
               /\ ~ In 63%N (before_question s)
               /\ (rest = [] \/ exists r, rest = 63%N :: r).
Proof.
  induction s as [| c s [rest [E [N R]]]].
  - exists []. simpl. intuition.
  - simpl. destruct (N.eqb_spec c 63) as [-> | Nc].
    + exists (63%N :: s). simpl. split; [reflexivity |].
      split; [tauto | right; now exists s].
    + exists rest. simpl. split; [now f_equal |].
      split; [| exact R]. intros [I | I]; [congruence | contradiction].
Qed.

Lemma url_field_cut (members : list (text * json number)) (k : text)
      (u : option text) :
  url_field number nonzero (JDict number members) k = Some u ->
  cut_from number nonzero (member number k members) u.
Proof.
  unfold url_field, get, cut_from.
  destruct (member number k members) as [v |] eqn:M.
  - destruct (truthy number nonzero v) eqn:T.
    + destruct v as [| b | x | s | l | d]; try discriminate.
      intros [= <-].
      destruct (before_question_cut s) as [rest [E [N R]]].
      exists rest. rewrite <- E. repeat split; auto.
      intros ->. discriminate T.
    + now intros [= <-].
  - simpl. now intros [= <-].
Qed.

Lemma about_of_members (data : json number) (a : about_info number) :
  about_of number nonzero zero isoformat data = Some a ->
  exists members,
    data = JDict number members /\
    isoformat (match member number (lit "created_utc") members with
               | Some x => x
               | None => JNum number zero
               end) = Some (created_utc number a) /\
    subscribers number a = match member number (lit "subscribers") members with
                           | Some x => x
                           | None => JNum number zero
                           end /\
    active_users number a
    = match member number (lit "accounts_active") members with
      | Some x => x
      | None => JNum number zero
      end /\
    url_field number nonzero data (lit "icon_img")
    = Some (icon_url number a) /\
    url_field number nonzero data (lit "banner_img")
    = Some (banner_url number a) /\
    url_field number nonzero data (lit "community_icon")
    = Some (community_icon number a).
Proof.
  destruct data as [| b | x | s | l | members]; try discriminate.
  unfold about_of. cbv zeta.
  destruct (isoformat _) as [created |] eqn:C; [| discriminate].
  destruct (url_field number nonzero _ (lit "icon_img")) as [i |];
    [| discriminate].
  destruct (url_field number nonzero _ (lit "banner_img")) as [b |];
    [| discriminate].
  destruct (url_field number nonzero _ (lit "community_icon")) as [c |];
    [| discriminate].
  intros [= <-]. exists members. cbn. repeat split; auto.
Qed.

Lemma about_response (subreddit : text) (a : about_info number) :
  get_subreddit_about number nonzero zero isoformat requests_get
    subreddit = Some a ->
  exists j data,
    requests_get (about_url subreddit) = Response number 200 (Some j) /\
    subscript number j (lit "data") = Some data /\
    about_of number nonzero zero isoformat data = Some a.
Proof.
  unfold get_subreddit_about.
  destruct (requests_get (about_url subreddit)) as [| status body];
    [discriminate |].
  destruct (Z.eqb_spec status 200) as [-> | Ns]; [| discriminate].
  cbn [negb]. destruct body as [j |]; [| discriminate].
  destruct (subscript number j (lit "data")) as [data |] eqn:S;
    [| discriminate].
  intros A. now exists j, data.
Qed.

(** X17.  What [get_subreddit_about] returns comes from an answer with
    status 200 whose body is an object with an object under ["data"].
    Each of the three URLs of the dictionary is the text before the first
    question mark of the non-empty string the answer holds under its key,
    and holds no question mark; it is [None] exactly for a key that is
    missing or holds a false value.  The date is what [fromtimestamp]
    accepts of ["created_utc"], [0] when the key is missing. *)
Theorem about_urls_are_cut (subreddit : text) (a : about_info number) :
  get_subreddit_about number nonzero zero isoformat requests_get
    subreddit = Some a ->
  exists j members,
    requests_get (about_url subreddit) = Response number 200 (Some j) /\
    subscript number j (lit "data") = Some (JDict number members) /\
    isoformat (match member number (lit "created_utc") members with
               | Some x => x
               | None => JNum number zero
               end) = Some (created_utc number a) /\
    cut_from number nonzero (member number (lit "icon_img") members)
      (icon_url number a) /\
    cut_from number nonzero (member number (lit "banner_img") members)
      (banner_url number a) /\
    cut_from number nonzero (member number (lit "community_icon") members)
      (community_icon number a).
Proof.
  intros A. destruct (about_response subreddit a A) as [j [data [R [S D]]]].
  destruct (about_of_members data a D)
    as [members [-> [C [_ [_ [I [B Ci]]]]]]].
  exists j, members. repeat split; auto using url_field_cut.
Qed.

Variable now : text.

(** X18.  The statistics need numeric counts.  Statistics that are
    returned hold the dictionary of [get_subreddit_about], and their
    subscriber and active user counts are numbers.  When the answer holds
    anything else under ["subscribers"] or ["accounts_active"] - [null],
    say - and [get_subreddit_about] accepts it, the summary raises
    [ValueError] for a string and [TypeError] otherwise, in
    [get_full_subreddit_stats] and so in [save_subreddit_stats], which
    then writes no file. *)
Theorem stats_need_numeric_counts (subreddit : text) :
  (forall st, get_full_subreddit_stats number nonzero zero isoformat requests_get
    now subreddit = Returns (Some st) ->
              get_subreddit_about number nonzero zero isoformat requests_get
    subreddit = Some (about number st) /\
              is_number number (subscribers number (about number st)) = true /\
              is_number number (active_users number (about number st))
              = true) /\
  (forall j members a k v,
      requests_get (about_url subreddit) = Response number 200 (Some j) ->
      subscript number j (lit "data") = Some (JDict number members) ->
      about_of number nonzero zero isoformat (JDict number members)
      = Some a ->
      k = lit "subscribers" \/ k = lit "accounts_active" ->
      member number k members = Some v ->
      is_number number v = false ->
      exists e,
        get_full_subreddit_stats number nonzero zero isoformat requests_get
    now subreddit = Raises e /\
        (forall output_dir, save_subreddit_stats number nonzero zero isoformat requests_get now
    subreddit output_dir = Raises e) /\
        (e = FormatValueError -> exists s, JStr number s
                                           = subscribers number a
                                           \/ JStr number s
                                              = active_users number a)).
Proof.
  split.
  - intros st. unfold get_full_subreddit_stats.
    destruct (get_subreddit_about number nonzero zero isoformat requests_get
    subreddit) as [a |]; [| discriminate]. cbv zeta.
    destruct (subscribers number a) eqn:S; try discriminate;
      destruct (active_users number a) eqn:U; try discriminate;
      intros [= <-]; cbn [about]; rewrite S, U; auto.
  - intros j members a k v R S A K M Nv.
    assert (G : get_subreddit_about number nonzero zero isoformat requests_get
    subreddit = Some a).
    { unfold get_subreddit_about. rewrite R. cbn [Z.eqb negb Pos.eqb].
      now rewrite S. }
    destruct (about_of_members _ a A)
      as [ms [[= <-] [_ [Es [Eu _]]]]].
    unfold save_subreddit_stats, get_full_subreddit_stats. rewrite G.
    cbv zeta.
    destruct K as [-> | ->].
    + rewrite M in Es. rewrite Es.
      destruct v as [| b | x | s | l | d]; try discriminate Nv;
        cbn [with_thousands].
      all: eexists; split; [reflexivity |]; split; [reflexivity |].
      all: try discriminate.
      intros _. exists s. now left.
    + rewrite M in Eu. rewrite Eu.
      destruct (subscribers number a) eqn:Sa; cbn [with_thousands].
      all: try (eexists; split; [reflexivity |]; split; [reflexivity |];
                first [discriminate | intros _; eexists; left; reflexivity]).
      all: destruct v as [| b' | x' | s | l | d]; try discriminate Nv;
        cbn [with_thousands].
      all: eexists; split; [reflexivity |]; split; [reflexivity |].
      all: try discriminate.
      all: intros _; exists s; now right.
Qed.

Lemma for_each_length {A B : Type} (f : A -> option B) (l : list A)
      (r : list B) :
  for_each f l = Some r -> length r = length l.
Proof.
  revert r. induction l as [| x l IH]; intros r; simpl.
  - now intros [= <-].
  - destruct (f x); [| discriminate].
    destruct (for_each f l) as [ys |]; [| discriminate].
    intros [= <-]. simpl. f_equal. now apply IH.
Qed.

Lemma for_each_all {A B : Type} (f : A -> option B) (l : list A) :
  Forall (fun x => f x <> None) l -> exists r, for_each f l = Some r.
Proof.
  induction 1 as [| x l Hx _ [r IH]]; simpl; [now exists [] |].
  destruct (f x) as [y |]; [| congruence]. rewrite IH. now exists (y :: r).
Qed.

Lemma for_each_one {A B : Type} (f : A -> option B) (l : list A) :
  Exists (fun x => f x = None) l -> for_each f l = None.
Proof.
  induction 1 as [x l Hx | x l _ IH]; simpl.
  - now rewrite Hx.
  - rewrite IH. now destruct (f x).
Qed.

Lemma or_empty_for_each {A B : Type} (f : A -> option B) (l : list A) :
  (Forall (fun x => f x <> None) l ->
   length (or_empty (for_each f l)) = length l) /\
  (Exists (fun x => f x = None) l -> or_empty (for_each f l) = []).
Proof.
  split.
  - intros F. destruct (for_each_all f l F) as [r E]. rewrite E.
    simpl. now apply (for_each_length f).
  - intros E. now rewrite for_each_one.
Qed.

(** X19.  The three lists are all or nothing.  For an answer with status
    200 whose body leads to the entries [items]: when every entry is
    accepted (an object, with a date [fromtimestamp] takes) the list has
    one element for each entry; when one entry is not, the list is empty,
    whatever the other entries are. *)
Theorem lists_are_all_or_nothing (subreddit : text)
        (data : json number) (items : list (json number)) :
  (requests_get (rules_url subreddit) = Response number 200 (Some data) ->
   get number data (lit "rules") (JList number []) = Some (JList number items)
   ->
   (Forall (fun x => rule_of number zero isoformat x <> None) items ->
    length (get_subreddit_rules number zero isoformat requests_get subreddit)
    = length items) /\
   (Exists (fun x => rule_of number zero isoformat x = None) items ->
    get_subreddit_rules number zero isoformat requests_get subreddit = []))
  /\
  (forall inner,
      requests_get (mods_url subreddit) = Response number 200 (Some data) ->
      get number data (lit "data") (JDict number []) = Some inner ->
      get number inner (lit "children") (JList number [])
      = Some (JList number items) ->
      (Forall (fun x => mod_of number nonzero zero isoformat x <> None) items
       -> length (get_subreddit_mods number nonzero zero isoformat
                    requests_get subreddit)
          = length items) /\
      (Exists (fun x => mod_of number nonzero zero isoformat x = None) items
       -> get_subreddit_mods number nonzero zero isoformat requests_get
            subreddit = []))
  /\
  (requests_get (flairs_url subreddit)
   = Response number 200 (Some (JList number items)) ->
   (Forall (fun x => flair_of number x <> None) items ->
    length (get_subreddit_flairs number requests_get subreddit)
    = length items) /\
   (Exists (fun x => flair_of number x = None) items ->
    get_subreddit_flairs number requests_get subreddit = [])).
Proof.
  split; [| split].
  - intros R G. unfold get_subreddit_rules, rules_of. rewrite R.
    cbn [Z.eqb negb Pos.eqb]. rewrite G. cbn [iterate].
    exact (or_empty_for_each (rule_of number zero isoformat) items).
  - intros inner R G1 G2. unfold get_subreddit_mods, mods_of. rewrite R.
    cbn [Z.eqb negb Pos.eqb]. rewrite G1, G2. cbn [iterate].
    exact (or_empty_for_each (mod_of number nonzero zero isoformat) items).
  - intros R. unfold get_subreddit_flairs, flairs_of. rewrite R.
    cbn [Z.eqb negb Pos.eqb iterate].
    exact (or_empty_for_each (flair_of number) items).
Qed.

End StatsFacts.

Lemma about_urls_are_cut_witness :
  exists a,
    SubredditStats.get_subreddit_about Z example_nonzero 0 example_isoformat
      example_get (lit "python") = Some a /\
    SubredditStats.cut_from Z example_nonzero
      (Some (SubredditStats.JStr Z (lit "https://a.example/i.png?width=256")))
      (SubredditStats.icon_url Z a) /\
    SubredditStats.icon_url Z a = Some (lit "https://a.example/i.png").
Proof.
  destruct (SubredditStats.get_subreddit_about Z example_nonzero 0
              example_isoformat example_get (lit "python")) as [a |] eqn:E;
    [| vm_compute in E; discriminate E].
  exists a. split; [reflexivity |].
  destruct (about_urls_are_cut Z example_nonzero 0 example_isoformat
              example_get (lit "python") a E)
    as [j [members [R [S [_ [I _]]]]]].
  vm_compute in R. injection R as <-.
  vm_compute in S. injection S as <-.
  split; [exact I |].
  vm_compute in E. injection E as <-. reflexivity.
Defined.

Lemma stats_need_numeric_counts_witness :
  SubredditStats.get_full_subreddit_stats Z example_nonzero 0
    example_isoformat example_get (lit "2024-01-01T00:00:00") (lit "python")
  = Raises SubredditStats.FormatTypeError.
Proof.
  edestruct (proj2 (stats_need_numeric_counts Z example_nonzero 0
                      example_isoformat example_get
                      (lit "2024-01-01T00:00:00") (lit "python")))
    with (k := lit "subscribers") (v := SubredditStats.JNull Z)
    as [e [E _]].
  - reflexivity.
  - reflexivity.
  - vm_compute. reflexivity.
  - now left.
  - reflexivity.
  - reflexivity.
  - assert (E' := E). vm_compute in E'. injection E' as <-. exact E.
Defined.

Lemma lists_are_all_or_nothing_witness :
  SubredditStats.get_subreddit_rules Z 0 example_isoformat example_get
    (lit "python") = [].
Proof.
  refine (proj2 (proj1 (lists_are_all_or_nothing Z example_nonzero 0
                          example_isoformat example_get (lit "python")
                          example_body
                          [SubredditStats.JDict Z
                             [(lit "short_name",
                               SubredditStats.JStr Z (lit "Be nice"))];
                           SubredditStats.JNull Z]) _ _) _).
  - reflexivity.
  - reflexivity.
  - right. left. reflexivity.
Defined.
